(** * Carris GTFS Saver: a shallow embedding of [carris_gtfs_saver.py]

    The script downloads a GTFS archive over HTTP, hashes it with SHA-256,
    compares the digest with the one stored in an S3 bucket under
    [gtfs/hash.txt] and, when they differ, uploads the archive under a key
    that is not yet taken and then records the new digest.

    Conventions of the embedding:
    - Python [bytes] are [list byte]; a Python [str] is represented by its
      UTF-8 encoding as a [string] (so [encode('utf-8')] is the identity on
      the underlying bytes and [decode('utf-8')] is a validity check);
    - exceptions are values of [exn]; a computation returns a [result]
      together with the new [World];
    - the environment (process environment, clock, HTTP server, local file
      system, bucket) is the explicit [World]; each remote call is recorded
      in [trace] with its outcome;
    - a path is the string the script hands to the operating system, and
      the local files are kept by the file that a path names ([realpath]),
      so that two spellings of one file are one file;
    - the [while True] loop of [generate_unique_s3_key] takes a bound on
      the number of its iterations ([fuel]) and answers [None] when the
      bound is reached; it is shown below that a bound above the number of
      objects in the bucket is never reached;
    - [logger] calls have no influence on control flow and are left out. *)

From Stdlib Require Import ZArith Lia.
From Stdlib Require Import Strings.Byte Strings.Ascii.
From stdpp Require Import gmap strings list fin_maps pretty.
From Equations Require Import Equations.
From Equations.Prop Require Import Logic.

#[local] Set Warnings "-clear-no-such-hyp".

Local Open Scope Z_scope.

(** ** SHA-256 (FIPS 180-4), the function behind [hashlib.sha256] *)

Module SHA256.

Definition w32 (x : Z) : Z := x mod 2 ^ 32.

Definition rotr (n x : Z) : Z :=
  w32 (Z.lor (Z.shiftr x n) (Z.shiftl x (32 - n))).

Definition Ch (x y z : Z) : Z :=
  Z.lxor (Z.land x y) (Z.land (Z.lxor x 0xffffffff) z).

Definition Maj (x y z : Z) : Z :=
  Z.lxor (Z.lxor (Z.land x y) (Z.land x z)) (Z.land y z).

Definition Sigma0 (x : Z) : Z :=
  Z.lxor (Z.lxor (rotr 2 x) (rotr 13 x)) (rotr 22 x).

Definition Sigma1 (x : Z) : Z :=
  Z.lxor (Z.lxor (rotr 6 x) (rotr 11 x)) (rotr 25 x).

Definition sigma0 (x : Z) : Z :=
  Z.lxor (Z.lxor (rotr 7 x) (rotr 18 x)) (Z.shiftr x 3).

Definition sigma1 (x : Z) : Z :=
  Z.lxor (Z.lxor (rotr 17 x) (rotr 19 x)) (Z.shiftr x 10).

(** The constants are not tabulated here but computed the way FIPS 180-4
    defines them: the first 32 bits of the fractional parts of the cube
    roots (round constants) and of the square roots (initial hash value)
    of the first primes. *)
Definition is_prime (n : nat) : bool :=
  forallb (fun d => negb (Nat.eqb (Nat.modulo n d) 0)) (seq 2 (n - 2)).

Definition primes_below (bound : nat) : list Z :=
  Z.of_nat <$> List.filter is_prime (seq 2 (bound - 2)).

(** The integer cube root of [x], found bit by bit from bit [n - 1] down. *)
Fixpoint cube_root (n : nat) (x r : Z) : Z :=
  match n with
  | O => r
  | S n' =>
      let c := r + 2 ^ Z.of_nat n' in
      if c * c * c <=? x then cube_root n' x c else cube_root n' x r
  end.

Definition cube_root_fraction (p : Z) : Z := cube_root 40 (p * 2 ^ 96) 0 mod 2 ^ 32.

Definition square_root_fraction (p : Z) : Z := Z.sqrt (p * 2 ^ 64) mod 2 ^ 32.

Definition K : list Z :=
  Eval vm_compute in cube_root_fraction <$> take 64 (primes_below 312).

(** The eight working variables a..h, and also the chaining value. *)
Record regs : Type := Regs {
  ra : Z; rb : Z; rc : Z; rd : Z; re : Z; rf : Z; rg : Z; rh : Z }.

Definition H0 : regs :=
  Eval vm_compute in
    match square_root_fraction <$> take 8 (primes_below 20) with
    | [a; b; c; d; e; f; g; h] => Regs a b c d e f g h
    | _ => Regs 0 0 0 0 0 0 0 0
    end.

Definition round (k w : Z) (r : regs) : regs :=
  let t1 := rh r + Sigma1 (re r) + Ch (re r) (rf r) (rg r) + k + w in
  let t2 := Sigma0 (ra r) + Maj (ra r) (rb r) (rc r) in
  Regs (w32 (t1 + t2)) (ra r) (rb r) (rc r)
       (w32 (rd r + t1)) (re r) (rf r) (rg r).

(** [win] holds the sixteen schedule words W[t..t+15]; each round uses
    W[t] and appends W[t+16]. *)
Fixpoint rounds (ks : list Z) (win : list Z) (r : regs) : regs :=
  match ks, win with
  | k :: ks', w0 :: rest =>
      let wnew := w32 (sigma1 (nth 14 win 0) + nth 9 win 0
                       + sigma0 (nth 1 win 0) + w0) in
      rounds ks' (rest ++ [wnew]) (round k w0 r)
  | _, _ => r
  end.

Definition add_regs (x y : regs) : regs :=
  Regs (w32 (ra x + ra y)) (w32 (rb x + rb y)) (w32 (rc x + rc y))
       (w32 (rd x + rd y)) (w32 (re x + re y)) (w32 (rf x + rf y))
       (w32 (rg x + rg y)) (w32 (rh x + rh y)).

Definition compress (h : regs) (block : list Z) : regs :=
  add_regs h (rounds K block h).

Definition byteZ (b : byte) : Z := Z.of_N (Byte.to_N b).

(** Big-endian 32-bit words of a byte sequence whose length is a multiple
    of four. *)
Fixpoint words (bs : list Z) : list Z :=
  match bs with
  | b0 :: b1 :: b2 :: b3 :: rest =>
      (((b0 * 256 + b1) * 256 + b2) * 256 + b3) :: words rest
  | _ => []
  end.

Fixpoint be_bytes (n : nat) (x : Z) : list Z :=
  match n with
  | O => []
  | S n' => be_bytes n' (x / 256) ++ [x mod 256]
  end.

(** Message, then 0x80, then zeros up to 56 mod 64, then the bit length
    on eight bytes. *)
Definition pad (msg : list Z) : list Z :=
  let len := Z.of_nat (length msg) in
  let zeros := Z.to_nat ((55 - len) mod 64) in
  msg ++ [128] ++ repeat 0 zeros ++ be_bytes 8 (8 * len).

Fixpoint blocks (fuel : nat) (ws : list Z) (h : regs) : regs :=
  match fuel, ws with
  | S fuel', _ :: _ => blocks fuel' (drop 16 ws) (compress h (take 16 ws))
  | _, _ => h
  end.

Definition digest_regs (msg : list byte) : regs :=
  let ws := words (pad (byteZ <$> msg)) in
  blocks (length ws) ws H0.

(** A word of 32 bits, and registers that hold such words. *)
Definition word_ok (x : Z) : Prop := 0 <= x < 4294967296.

Definition regs_ok (r : regs) : Prop :=
  word_ok (ra r) /\ word_ok (rb r) /\ word_ok (rc r) /\ word_ok (rd r) /\
  word_ok (re r) /\ word_ok (rf r) /\ word_ok (rg r) /\ word_ok (rh r).

(** The 256-bit digest as a number. *)
Definition regs_int (r : regs) : Z :=
  ((((((ra r * 2 ^ 32 + rb r) * 2 ^ 32 + rc r) * 2 ^ 32 + rd r) * 2 ^ 32
      + re r) * 2 ^ 32 + rf r) * 2 ^ 32 + rg r) * 2 ^ 32 + rh r.

Definition digest_int (msg : list byte) : Z := regs_int (digest_regs msg).

Definition hex_digit (d : Z) : ascii :=
  Ascii.ascii_of_N (Z.to_N (if d <? 10 then 48 + d else 87 + d)).

(** [n] lowercase hexadecimal digits of [x], most significant first. *)
Fixpoint hex (n : nat) (x : Z) : string :=
  match n with
  | O => ""
  | S n' => hex n' (x / 16) +:+ String (hex_digit (x mod 16)) ""
  end.

Definition hexdigest_of (msg : list byte) : string := hex 64 (digest_int msg).

End SHA256.

Local Close Scope Z_scope.

(** ** The Python string and bytes operations the script uses *)

Module Py.

(** The double quote character, code 34. *)
Definition dquote : ascii := "034"%char.

(** Truth value of a [str]: the empty string is falsy. *)
Definition truthy (s : string) : bool := negb (String.eqb s "").

(** [s.startswith(p)], returning the rest of [s]. *)
Fixpoint strip_prefix (p s : string) : option string :=
  match p, s with
  | "", _ => Some s
  | String a p', String b s' =>
      if Ascii.eqb a b then strip_prefix p' s' else None
  | String _ _, "" => None
  end.

(** [p in s] for a non-empty pattern [p]. *)
Fixpoint contains (p s : string) : bool :=
  match strip_prefix p s with
  | Some _ => true
  | None => match s with
            | "" => false
            | String _ s' => contains p s'
            end
  end.

(** [s.rsplit(sep, 1)] for a one-character separator: a list of one or
    two strings, split at the last occurrence of [sep]. *)
Fixpoint rsplit_last (sep : ascii) (s : string) : option (string * string) :=
  match s with
  | "" => None
  | String a s' =>
      match rsplit_last sep s' with
      | Some (p, q) => Some (String a p, q)
      | None => if Ascii.eqb a sep then Some ("", s') else None
      end
  end.

Definition rsplit (sep : ascii) (s : string) : list string :=
  match rsplit_last sep s with
  | Some (p, q) => [p; q]
  | None => [s]
  end.

(** The longest prefix without a double quote: what the character class
    of the group (anything but a quote, one or more times) consumes. *)
Fixpoint take_nonquote (s : string) : string :=
  match s with
  | "" => ""
  | String a s' =>
      if Ascii.eqb a dquote then "" else String a (take_nonquote s')
  end.

(** The regular expression of [download_gtfs_file] (the literal
    [filename=], an optional quote, a group of one or more non-quote
    characters, an optional quote) matched at the position just after
    the literal [filename=]: an optional quote, then at least
    one character that is not a quote.  When the quote is followed by
    another quote or by the end, backtracking over the optional quote
    leaves the group facing a quote, so there is no match here. *)
Definition filename_group (rest : string) : option string :=
  let body := match rest with
              | String a r => if Ascii.eqb a dquote then r else rest
              | "" => rest
              end in
  match take_nonquote body with
  | "" => None
  | g => Some g
  end.

(** [re.findall] with that expression on [s]: the group of the leftmost
    match, or [None] when the list of matches is empty. *)
Fixpoint findall_filename_first (s : string) : option string :=
  let later := match s with
               | "" => None
               | String _ s' => findall_filename_first s'
               end in
  match strip_prefix "filename=" s with
  | Some rest => match filename_group rest with
                 | Some g => Some g
                 | None => later
                 end
  | None => later
  end.

(** *** UTF-8 *)

Definition in_range (lo hi : N) (b : byte) : bool :=
  (N.leb lo (Byte.to_N b) && N.leb (Byte.to_N b) hi)%bool.

Definition cont (b : byte) : bool := in_range 128 191 b.

(** Well-formed UTF-8 (RFC 3629): no overlong forms, no surrogates,
    nothing above U+10FFFF.  This is what the strict [decode('utf-8')]
    accepts. *)
Fixpoint utf8_valid (bs : list byte) : bool :=
  match bs with
  | [] => true
  | b0 :: r0 =>
      if in_range 0 127 b0 then utf8_valid r0
      else match r0 with
      | [] => false
      | b1 :: r1 =>
          if in_range 194 223 b0 then cont b1 && utf8_valid r1
          else match r1 with
          | [] => false
          | b2 :: r2 =>
              if in_range 224 239 b0 then
                (if in_range 224 224 b0 then in_range 160 191 b1
                 else if in_range 237 237 b0 then in_range 128 159 b1
                 else cont b1) && cont b2 && utf8_valid r2
              else match r2 with
              | [] => false
              | b3 :: r3 =>
                  in_range 240 244 b0 &&
                  (if in_range 240 240 b0 then in_range 144 191 b1
                   else if in_range 244 244 b0 then in_range 128 143 b1
                   else cont b1) && cont b2 && cont b3 && utf8_valid r3
              end
          end
      end
  end.

(** [bs.decode('utf-8')]; [None] stands for [UnicodeDecodeError]. *)
Definition decode_utf8 (bs : list byte) : option string :=
  if utf8_valid bs then Some (String.string_of_list_byte bs) else None.

(** [s.encode('utf-8')]. *)
Definition encode_utf8 (s : string) : list byte :=
  String.list_byte_of_string s.

(** The characters [str.strip()] removes, by code point: the ASCII ones
    (tab to carriage return, the separators 0x1C-0x1F, space) and the
    Unicode ones 0x85, 0xA0, 0x1680, 0x2000-0x200A, 0x2028, 0x2029,
    0x202F, 0x205F, 0x3000; each given here by its UTF-8 encoding. *)
Definition whitespace : list (list byte) :=
  [ [x09]; [x0a]; [x0b]; [x0c]; [x0d]; [x1c]; [x1d]; [x1e]; [x1f]; [x20];
    [xc2; x85]; [xc2; xa0]; [xe1; x9a; x80];
    [xe2; x80; x80]; [xe2; x80; x81]; [xe2; x80; x82]; [xe2; x80; x83];
    [xe2; x80; x84]; [xe2; x80; x85]; [xe2; x80; x86]; [xe2; x80; x87];
    [xe2; x80; x88]; [xe2; x80; x89]; [xe2; x80; x8a];
    [xe2; x80; xa8]; [xe2; x80; xa9]; [xe2; x80; xaf]; [xe2; x81; x9f];
    [xe3; x80; x80] ]%byte.

(** Drops one leading occurrence of the first pattern that is a prefix. *)
Fixpoint drop_one (pats : list string) (s : string) : option string :=
  match pats with
  | [] => None
  | p :: pats' => match strip_prefix p s with
                  | Some r => Some r
                  | None => drop_one pats' s
                  end
  end.

(** Each step removes at least one character, so the length of the
    string is enough fuel. *)
Fixpoint drop_all (fuel : nat) (pats : list string) (s : string) : string :=
  match fuel with
  | O => s
  | S fuel' => match drop_one pats s with
               | Some r => drop_all fuel' pats r
               | None => s
               end
  end.

Definition lstrip_with (pats : list string) (s : string) : string :=
  drop_all (String.length s) pats s.

Definition lstrip (s : string) : string :=
  lstrip_with (String.string_of_list_byte <$> whitespace) s.

Definition rstrip (s : string) : string :=
  String.rev
    (lstrip_with ((λ p, String.rev (String.string_of_list_byte p)) <$> whitespace)
                 (String.rev s)).

(** [s.strip()] *)
Definition strip (s : string) : string := rstrip (lstrip s).

(** Decimal with at least two digits: [%m], [%d], [%H], [%M], [%S]. *)
Definition pad2 (n : nat) : string :=
  if Nat.ltb n 10 then "0" +:+ pretty n else pretty n.

End Py.

(** ** Exceptions, results and the world *)

(** The exception classes the script distinguishes: [ClientError] carries
    [e.response['Error']['Code']]; [RequestException] is the root of the
    exceptions of [requests]; everything else that derives from
    [Exception] (OSError, UnicodeDecodeError, BotoCoreError, ...) is
    [OtherException]. *)
Inductive exn : Type :=
| ClientError (code : string)
| RequestException (what : string)
| OtherException (what : string).

Inductive result (A : Type) : Type :=
| Ret (a : A)
| Raise (e : exn).
Arguments Ret {A} a.
Arguments Raise {A} e.

(** [datetime.now()] *)
Record datetime : Type := Datetime {
  year : nat; month : nat; day : nat;
  hour : nat; minute : nat; second : nat }.

(** [dt.strftime("%Y%m%d_%H%M%S")]: the year in full, the other fields on
    two digits. *)
Definition strftime (dt : datetime) : string :=
  pretty (year dt) +:+ Py.pad2 (month dt) +:+ Py.pad2 (day dt) +:+ "_" +:+
  Py.pad2 (hour dt) +:+ Py.pad2 (minute dt) +:+ Py.pad2 (second dt).

(** What [requests.get(url, stream=True)] hands back: the status, the
    Content-Disposition header if the server sent one, the chunks that
    [iter_content] yields and, if the transfer breaks, the exception it
    raises after the last chunk delivered. *)
Record Response : Type := {
  status_code : Z;
  content_disposition : option string;
  chunks : list (list byte);
  broken : option exn }.

(** The parameters [get_s3_client] passes to [boto3.client]. *)
Record Client : Type := {
  service_name : string;
  region_name : string;
  endpoint_url : option string;
  credentials : option (string * string) }.

(** Calls that leave the process. *)
Inductive Call : Type :=
| HttpGet (url : string)
| CreateClient (params : Client)
| HeadObject (bucket key : string)
| GetObject (bucket key : string)
| UploadFile (path bucket key : string)
| PutObject (bucket key : string) (body : list byte) (content_type : string).

(** Calls on the local file system that can fail. *)
Inductive FsCall : Type :=
| OpenWrite (path : string)
| OpenRead (path : string)
| Remove (path : string).

(** A call and the exception it raised, if any. *)
Definition Event : Type := Call * option exn.

(** The world the script runs in.  The local file system holds regular
    files.  A path is a string that the script hands to the operating
    system; [realpath] gives the file that a path names there: the working
    directory, [.], [..] and repeated slashes are resolved, so that two
    spellings of one file, such as [./notes.txt] and [notes.txt], have the
    same [realpath].  The local files are kept by file, not by spelling.
    The script creates, writes and removes regular files only, which leaves
    the file that a path names as it is: [realpath] is the same all along.
    Symbolic and hard links are outside the model: a file has one name, and
    removing it removes the file.  The faults are chosen per call as the
    script makes it, spelling included. *)
Record World : Type := {
  environ : gmap string string;              (* os.environ, after load_dotenv *)
  clock : datetime;                          (* datetime.now() *)
  http : string → result Response;           (* the server behind each URL *)
  realpath : string → string;                (* the file a path names *)
  files : gmap string (list byte);           (* the local files, by file *)
  fs_fault : FsCall → option exn;            (* local operations that fail *)
  objects : gmap (string * string) (list byte); (* (bucket, key) to body *)
  s3_fault : Call → option exn;              (* store calls that fail *)
  trace : list Event }.

(** The world with other local files, with another bucket content, with
    one more call in the trace. *)
Definition set_files (f : gmap string (list byte)) (w : World) : World :=
  {| environ := environ w; clock := clock w; http := http w;
     realpath := realpath w; files := f;
     fs_fault := fs_fault w; objects := objects w; s3_fault := s3_fault w;
     trace := trace w |}.

Definition set_objects (o : gmap (string * string) (list byte)) (w : World) : World :=
  {| environ := environ w; clock := clock w; http := http w;
     realpath := realpath w; files := files w;
     fs_fault := fs_fault w; objects := o; s3_fault := s3_fault w;
     trace := trace w |}.

Definition record (c : Call) (e : option exn) (w : World) : World :=
  {| environ := environ w; clock := clock w; http := http w;
     realpath := realpath w; files := files w;
     fs_fault := fs_fault w; objects := objects w; s3_fault := s3_fault w;
     trace := trace w ++ [(c, e)] |}.

(** A computation that may raise and that changes the world. *)
Definition M (A : Type) : Type := World → result A * World.

Definition ret {A} (a : A) : M A := λ w, (Ret a, w).
Definition raise {A} (e : exn) : M A := λ w, (Raise e, w).
Definition bind {A B} (m : M A) (k : A → M B) : M B :=
  λ w, match m w with
       | (Ret a, w') => k a w'
       | (Raise e, w') => (Raise e, w')
       end.

Notation "'let!' x ':=' m 'in' k" := (bind m (λ x, k))
  (at level 10, x name, m at level 100, k at level 200, only parsing).
Notation "'do!' m 'in' k" := (bind m (λ _, k))
  (at level 10, m at level 100, k at level 200, only parsing).

(** *** The outside world: HTTP, the local file system, the bucket *)

(** [requests.get(url, stream=True, timeout=60)] *)
Definition requests_get (url : string) : M Response := λ w,
  match http w url with
  | Ret r => (Ret r, record (HttpGet url) None w)
  | Raise e => (Raise e, record (HttpGet url) (Some e) w)
  end.

(** [response.raise_for_status()]: HTTPError for 4xx and 5xx. *)
Definition raise_for_status (r : Response) : M unit :=
  if ((400 <=? status_code r) && (status_code r <? 600))%Z
  then raise (RequestException "HTTPError")
  else ret tt.

(** [open(path, 'wb')]: creates or truncates the file that [path] names. *)
Definition open_wb (path : string) : M unit := λ w,
  match fs_fault w (OpenWrite path) with
  | Some e => (Raise e, w)
  | None => (Ret tt, set_files (<[realpath w path := []]> (files w)) w)
  end.

(** [f.write(chunk)] on a file opened with [open_wb]. *)
Definition file_write (path : string) (chunk : list byte) : M unit := λ w,
  let file := realpath w path in
  (Ret tt, set_files (<[file := default [] (files w !! file) ++ chunk]> (files w)) w).

(** [open(path, 'rb')]: the bytes of the file. *)
Definition open_rb (path : string) : M (list byte) := λ w,
  match fs_fault w (OpenRead path) with
  | Some e => (Raise e, w)
  | None => match files w !! realpath w path with
            | Some data => (Ret data, w)
            | None => (Raise (OtherException "FileNotFoundError"), w)
            end
  end.

(** [os.path.exists(path)] *)
Definition os_path_exists (path : string) (w : World) : bool :=
  bool_decide (is_Some (files w !! realpath w path)).

(** [os.remove(path)] *)
Definition os_remove (path : string) : M unit := λ w,
  match fs_fault w (Remove path) with
  | Some e => (Raise e, w)
  | None => match files w !! realpath w path with
            | Some _ => (Ret tt, set_files (delete (realpath w path) (files w)) w)
            | None => (Raise (OtherException "FileNotFoundError"), w)
            end
  end.

(** [boto3.client] applied to the parameters collected in [config_params] *)
Definition boto3_client (params : Client) : M Client := λ w,
  match s3_fault w (CreateClient params) with
  | Some e => (Raise e, record (CreateClient params) (Some e) w)
  | None => (Ret params, record (CreateClient params) None w)
  end.

(** [s3_client.head_object(Bucket=, Key=)]: a missing key is reported as
    a [ClientError] with code 404. *)
Definition head_object (c : Client) (bucket key : string) : M unit := λ w,
  let call := HeadObject bucket key in
  match s3_fault w call with
  | Some e => (Raise e, record call (Some e) w)
  | None =>
      match objects w !! (bucket, key) with
      | Some _ => (Ret tt, record call None w)
      | None => (Raise (ClientError "404"),
                 record call (Some (ClientError "404")) w)
      end
  end.

(** [s3_client.get_object(Bucket=, Key=)] followed by [['Body'].read()]:
    a missing key is reported as a [ClientError] with code NoSuchKey. *)
Definition get_object (c : Client) (bucket key : string) : M (list byte) := λ w,
  let call := GetObject bucket key in
  match s3_fault w call with
  | Some e => (Raise e, record call (Some e) w)
  | None =>
      match objects w !! (bucket, key) with
      | Some body => (Ret body, record call None w)
      | None => (Raise (ClientError "NoSuchKey"),
                 record call (Some (ClientError "NoSuchKey")) w)
      end
  end.

(** [s3_client.upload_file(file_path, bucket, key)]: a failed call stores
    nothing. *)
Definition upload_file (c : Client) (path bucket key : string) : M unit := λ w,
  let call := UploadFile path bucket key in
  match s3_fault w call with
  | Some e => (Raise e, record call (Some e) w)
  | None =>
      match files w !! realpath w path with
      | Some data =>
          (Ret tt, record call None (set_objects (<[(bucket, key) := data]> (objects w)) w))
      | None =>
          let e := OtherException "FileNotFoundError" in
          (Raise e, record call (Some e) w)
      end
  end.

(** [s3_client.put_object(Bucket=, Key=, Body=, ContentType=)] *)
Definition put_object (c : Client) (bucket key : string) (body : list byte)
    (content_type : string) : M unit := λ w,
  let call := PutObject bucket key body content_type in
  match s3_fault w call with
  | Some e => (Raise e, record call (Some e) w)
  | None =>
      (Ret tt, record call None (set_objects (<[(bucket, key) := body]> (objects w)) w))
  end.

(** ** The script *)

(** *** Configuration (module level, read from the environment) *)

Definition environ_get (w : World) (name fallback : string) : string :=
  default fallback (environ w !! name).

Definition GTFS_URL (w : World) : string := environ_get w "GTFS_URL" "".
Definition AGENCY_ID (w : World) : string := environ_get w "AGENCY_ID" "1".
Definition LOCAL_GTFS_FILE : string := "GTFS_Carris.zip".
Definition S3_ENDPOINT_URL (w : World) : string := environ_get w "S3_ENDPOINT_URL" "".
Definition S3_ACCESS_KEY_ID (w : World) : string := environ_get w "S3_ACCESS_KEY_ID" "".
Definition S3_SECRET_ACCESS_KEY (w : World) : string :=
  environ_get w "S3_SECRET_ACCESS_KEY" "".
Definition S3_BUCKET_NAME (w : World) : string := environ_get w "S3_BUCKET_NAME" "".
Definition S3_REGION (w : World) : string := environ_get w "S3_REGION" "us-east-1".
Definition S3_PREFIX : string := "gtfs/".

(** *** calculate_file_hash *)

(** A [hashlib.sha256()] object: what has been fed to it so far.
    [update(a); update(b)] is [update(a + b)]. *)
Record sha256_hash : Type := { fed : list byte }.

Definition hashlib_sha256 : sha256_hash := {| fed := [] |}.
Definition update (h : sha256_hash) (block : list byte) : sha256_hash :=
  {| fed := fed h ++ block |}.
Definition hexdigest (h : sha256_hash) : string := SHA256.hexdigest_of (fed h).

(** [f.read(n)] on the rest of an open file: the block and what is left. *)
Definition file_read (n : nat) (rest : list byte) : list byte * list byte :=
  (take n rest, drop n rest).

(** [for byte_block in iter(lambda: f.read(4096), b""): update(byte_block)] *)
Equations? read_blocks (h : sha256_hash) (rest : list byte) : sha256_hash
  by wf (length rest) lt :=
  read_blocks h rest with inspect (fst (file_read 4096 rest)) => {
    | exist _ [] _ := h;
    | exist _ (b :: bs) Hblk :=
        read_blocks (update h (b :: bs)) (snd (file_read 4096 rest)) }.
Proof.
  cbn [file_read fst snd] in *. rewrite length_drop.
  destruct rest; [discriminate | cbn [length]; lia].
Qed.

Definition calculate_file_hash (file_path : string) : M string :=
  let! data := open_rb file_path in
  ret (hexdigest (read_blocks hashlib_sha256 data)).

(** *** download_gtfs_file *)

(** [for chunk in response.iter_content(chunk_size=8192): f.write(chunk)] *)
Fixpoint write_chunks (path : string) (cs : list (list byte)) : M unit :=
  match cs with
  | [] => ret tt
  | c :: cs' => do! file_write path c in write_chunks path cs'
  end.

(** The filename taken from the Content-Disposition header, else the
    default. *)
Definition choose_filename (r : Response) (default_filename : string) : string :=
  match content_disposition r with
  | Some cd =>
      if Py.contains "filename=" cd then
        match Py.findall_filename_first cd with
        | Some m => m
        | None => default_filename
        end
      else default_filename
  | None => default_filename
  end.

(** The handler for [RequestException] logs and raises again, so every
    exception leaves the function unchanged. *)
Definition download_gtfs_file (url default_filename : string) : M string :=
  let! response := requests_get url in
  do! raise_for_status response in
  let filename := choose_filename response default_filename in
  do! open_wb filename in
  do! write_chunks filename (chunks response) in
  match broken response with
  | Some e => raise e
  | None => ret filename
  end.

(** *** get_s3_client *)

(** The dictionary [config_params]: the endpoint only when one is
    configured, the credentials only when both are. *)
Definition config_params (w : World) : Client :=
  {| service_name := "s3";
     region_name := S3_REGION w;
     endpoint_url :=
       if Py.truthy (S3_ENDPOINT_URL w) then Some (S3_ENDPOINT_URL w) else None;
     credentials :=
       if Py.truthy (S3_ACCESS_KEY_ID w) && Py.truthy (S3_SECRET_ACCESS_KEY w)
       then Some (S3_ACCESS_KEY_ID w, S3_SECRET_ACCESS_KEY w) else None |}.

Definition get_s3_client : M Client := λ w,
  boto3_client (config_params w) w.

(** *** get_remote_hash *)

(** [None] is Python's [None]: no hash stored yet. *)
Definition get_remote_hash (s3_client : Client) (bucket_name hash_key : string)
    : M (option string) := λ w,
  match get_object s3_client bucket_name hash_key w with
  | (Ret body, w1) =>
      match Py.decode_utf8 body with
      | Some text => (Ret (Some (Py.strip text)), w1)
      | None => (Raise (OtherException "UnicodeDecodeError"), w1)
      end
  | (Raise (ClientError code), w1) =>
      if String.eqb code "NoSuchKey" then (Ret None, w1)
      else (Raise (ClientError code), w1)
  | (Raise e, w1) => (Raise e, w1)
  end.

(** *** upload_to_s3, save_hash_to_s3 *)

Definition upload_to_s3 (s3_client : Client) (bucket_name file_path s3_key : string)
    : M bool :=
  do! upload_file s3_client file_path bucket_name s3_key in
  ret true.

Definition save_hash_to_s3 (s3_client : Client) (bucket_name hash_key hash_value : string)
    : M bool :=
  do! put_object s3_client bucket_name hash_key (Py.encode_utf8 hash_value) "text/plain" in
  ret true.

(** *** cleanup_local_file *)

(** Never raises: a failure of [os.remove] is logged as a warning. *)
Definition cleanup_local_file (file_path : string) (w : World) : World :=
  if os_path_exists file_path w then snd (os_remove file_path w) else w.

(** *** check_s3_file_exists *)

Definition check_s3_file_exists (s3_client : Client) (bucket_name s3_key : string)
    : M bool := λ w,
  match head_object s3_client bucket_name s3_key w with
  | (Ret _, w1) => (Ret true, w1)
  | (Raise (ClientError code), w1) =>
      if String.eqb code "404" then (Ret false, w1)
      else (Raise (ClientError code), w1)
  | (Raise e, w1) => (Raise e, w1)
  end.

(** *** generate_unique_s3_key *)

(** [prefix] and [filename] of [original_key]. *)
Definition split_key (original_key : string) : string * string :=
  match Py.rsplit "/" original_key with
  | [prefix; filename] => (prefix, filename)
  | _ => ("", original_key)
  end.

(** [f"{prefix}/{new_filename}" if prefix else new_filename] *)
Definition join_key (prefix new_filename : string) : string :=
  if Py.truthy prefix then prefix +:+ "/" +:+ new_filename else new_filename.

(** The key with the timestamp before the extension. *)
Definition stamped_key (original_key timestamp : string) : string :=
  let '(prefix, filename) := split_key original_key in
  let new_filename :=
    match Py.rsplit "." filename with
    | [stem; ext] => stem +:+ "_" +:+ timestamp +:+ "." +:+ ext
    | _ => filename +:+ "_" +:+ timestamp
    end in
  join_key prefix new_filename.

(** The key with the timestamp and the counter before the extension. *)
Definition counted_key (original_key timestamp : string) (counter : nat) : string :=
  let '(prefix, filename) := split_key original_key in
  let new_filename :=
    match Py.rsplit "." filename with
    | [stem; ext] =>
        stem +:+ "_" +:+ timestamp +:+ "_" +:+ pretty counter +:+ "." +:+ ext
    | _ => filename +:+ "_" +:+ timestamp +:+ "_" +:+ pretty counter
    end in
  join_key prefix new_filename.

(** The [while True] loop; [None] when [fuel] iterations were not enough. *)
Fixpoint counter_loop (fuel : nat) (s3_client : Client)
    (bucket_name original_key timestamp : string) (counter : nat) (w : World)
    : option (result string * World) :=
  match fuel with
  | O => None
  | S fuel' =>
      let new_key := counted_key original_key timestamp counter in
      match check_s3_file_exists s3_client bucket_name new_key w with
      | (Raise e, w1) => Some (Raise e, w1)
      | (Ret false, w1) => Some (Ret new_key, w1)
      | (Ret true, w1) =>
          counter_loop fuel' s3_client bucket_name original_key timestamp
                       (counter + 1) w1
      end
  end.

Definition generate_unique_s3_key (fuel : nat) (s3_client : Client)
    (bucket_name original_key : string) (w : World)
    : option (result string * World) :=
  match check_s3_file_exists s3_client bucket_name original_key w with
  | (Raise e, w1) => Some (Raise e, w1)
  | (Ret false, w1) => Some (Ret original_key, w1)
  | (Ret true, w1) =>
      let timestamp := strftime (clock w1) in
      let new_key := stamped_key original_key timestamp in
      match check_s3_file_exists s3_client bucket_name new_key w1 with
      | (Raise e, w2) => Some (Raise e, w2)
      | (Ret false, w2) => Some (Ret new_key, w2)
      | (Ret true, w2) =>
          counter_loop fuel s3_client bucket_name original_key timestamp 1 w2
      end
  end.

(** *** main *)

(** How [main] ends: the [return] of the no-update branch, the end of the
    function after an upload, or [sys.exit(code)]. *)
Inductive run_end : Type :=
| ReturnSkipped
| ReturnUploaded
| SysExit (code : Z).

(** The exit code of the process. *)
Definition exit_code (r : run_end) : Z :=
  match r with
  | ReturnSkipped | ReturnUploaded => 0%Z
  | SysExit code => code
  end.

(** Steps 6 to 8 of [main]: choose the key, upload the archive, save the
    hash, remove the local file. *)
Definition main_publish (fuel : nat) (s3_client : Client)
    (local_file s3_gtfs_key s3_hash_key local_hash : string) (w3 : World)
    : option (result run_end * World) :=
  match generate_unique_s3_key fuel s3_client (S3_BUCKET_NAME w3) s3_gtfs_key w3 with
  | None => None
  | Some (Raise e, w4) => Some (Raise e, w4)
  | Some (Ret final_s3_key, w4) =>
  match upload_to_s3 s3_client (S3_BUCKET_NAME w4) local_file final_s3_key w4 with
  | (Raise e, w5) => Some (Raise e, w5)
  | (Ret _, w5) =>
  match save_hash_to_s3 s3_client (S3_BUCKET_NAME w5) s3_hash_key local_hash w5 with
  | (Raise e, w6) => Some (Raise e, w6)
  | (Ret _, w6) =>
      Some (Ret ReturnUploaded, cleanup_local_file local_file w6)
  end end end.

(** The [try] block of [main] after [local_file] has been bound. *)
Definition main_after_download (fuel : nat) (local_file : string) (w : World)
    : option (result run_end * World) :=
  let s3_gtfs_key := S3_PREFIX +:+ local_file in
  let s3_hash_key := S3_PREFIX +:+ "hash.txt" in
  match calculate_file_hash local_file w with
  | (Raise e, w1) => Some (Raise e, w1)
  | (Ret local_hash, w1) =>
  match get_s3_client w1 with
  | (Raise e, w2) => Some (Raise e, w2)
  | (Ret s3_client, w2) =>
  match get_remote_hash s3_client (S3_BUCKET_NAME w2) s3_hash_key w2 with
  | (Raise e, w3) => Some (Raise e, w3)
  | (Ret remote_hash, w3) =>
  if bool_decide (Some local_hash = remote_hash) then
    Some (Ret ReturnSkipped, cleanup_local_file local_file w3)
  else
    main_publish fuel s3_client local_file s3_gtfs_key s3_hash_key local_hash w3
  end end end.

Definition main (fuel : nat) (w : World) : option (run_end * World) :=
  if negb (Py.truthy (S3_BUCKET_NAME w)) then Some (SysExit 1, w)
  else if Py.truthy (S3_ENDPOINT_URL w)
          && negb (Py.truthy (S3_ACCESS_KEY_ID w)
                   && Py.truthy (S3_SECRET_ACCESS_KEY w))
  then Some (SysExit 1, w)
  else if negb (Py.truthy (GTFS_URL w)) then Some (SysExit 1, w)
  else
    match download_gtfs_file (GTFS_URL w) LOCAL_GTFS_FILE w with
    | (Raise e, w1) =>
        (* 'local_file' is not in locals(): nothing is cleaned up *)
        Some (SysExit 1, w1)
    | (Ret local_file, w1) =>
        match main_after_download fuel local_file w1 with
        | None => None
        | Some (Ret r, w2) => Some (r, w2)
        | Some (Raise e, w2) => Some (SysExit 1, cleanup_local_file local_file w2)
        end
    end.

(** *** Vocabulary of the statements *)

(** The answer of the existence check, without the world. *)
Definition probe (c : Client) (b k : string) (w : World) : result bool :=
  fst (check_s3_file_exists c b k w).

(** The spec's [digest]: the bytes go through the block loop of
    [calculate_file_hash]. *)
Definition digest (data : list byte) : string :=
  hexdigest (read_blocks hashlib_sha256 data).

Definition is_head (ev : Event) : Prop :=
  ∃ b k, ev.1 = HeadObject b k.

(** The two calls that write to the bucket, and the write calls of a
    trace in the order they were made. *)
Definition is_write (call : Call) : bool :=
  match call with
  | UploadFile _ _ _ | PutObject _ _ _ _ => true
  | _ => false
  end.

Definition writes (tr : list Event) : list Event :=
  List.filter (λ ev, is_write ev.1) tr.

(** [main] passes its three checks of the configuration. *)
Definition config_ok (w : World) : bool :=
  Py.truthy (S3_BUCKET_NAME w)
  && negb (Py.truthy (S3_ENDPOINT_URL w)
           && negb (Py.truthy (S3_ACCESS_KEY_ID w)
                    && Py.truthy (S3_SECRET_ACCESS_KEY w)))
  && Py.truthy (GTFS_URL w).

(** The name under which [download_gtfs_file] stores the answer [resp]. *)
Definition local_name (resp : Response) : string :=
  choose_filename resp LOCAL_GTFS_FILE.

(** The key of the fingerprint object. *)
Definition hash_key : string := S3_PREFIX +:+ "hash.txt".

(** The server answers the feed URL with [resp], a status that is not an
    error, and a transfer that completes; the local file can be written
    and read back; the client can be created; reading the fingerprint
    object meets no fault.  On such a world a configured run reaches the
    comparison of the two hashes. *)
Definition reaches_comparison (w : World) (resp : Response) : Prop :=
  config_ok w = true ∧
  http w (GTFS_URL w) = Ret resp ∧
  ((400 <=? status_code resp) && (status_code resp <? 600))%Z = false ∧
  fs_fault w (OpenWrite (local_name resp)) = None ∧
  broken resp = None ∧
  fs_fault w (OpenRead (local_name resp)) = None ∧
  s3_fault w (CreateClient (config_params w)) = None ∧
  s3_fault w (GetObject (S3_BUCKET_NAME w) hash_key) = None.

(** Two worlds that differ at most in their trace. *)
Definition same_state (w w' : World) : Prop :=
  environ w' = environ w ∧ clock w' = clock w ∧ http w' = http w ∧
  files w' = files w ∧ fs_fault w' = fs_fault w ∧
  objects w' = objects w ∧ s3_fault w' = s3_fault w ∧
  realpath w' = realpath w.


(** The world in which the two hashes are compared, on such a run; [o] is
    the outcome of reading the fingerprint object. *)
Definition world_at_comparison (w : World) (resp : Response) (o : option exn)
    : World :=
  record (GetObject (S3_BUCKET_NAME w) hash_key) o
    (record (CreateClient (config_params w)) None
       (set_files (<[realpath w (local_name resp) := mjoin (chunks resp)]> (files w))
          (record (HttpGet (GTFS_URL w)) None w))).

(** Steps 6 to 8 as [main] runs them, with its exception handler. *)
Definition publish_from (fuel : nat) (w : World) (resp : Response) (w3 : World)
    : option (run_end * World) :=
  match main_publish fuel (config_params w) (local_name resp)
          (S3_PREFIX +:+ local_name resp) hash_key
          (digest (mjoin (chunks resp))) w3 with
  | None => None
  | Some (Ret r, w') => Some (r, w')
  | Some (Raise e, w') => Some (SysExit 1, cleanup_local_file (local_name resp) w')
  end.
(** ** Scenarios: concrete worlds on which the script is run *)

Module Scenario.

(** The archive the server delivers, in two chunks. *)
Definition response : Response :=
  {| status_code := 200; content_disposition := None;
     chunks := [[x50; x4b]; [x03; x04]]%byte; broken := None |}.

(** The working directory of the scenarios holds regular files only, and
    the script is given relative paths: a path names the file whose name
    is left once every [./] in front is dropped. *)
Fixpoint in_cwd (path : string) : string :=
  match path with
  | String "."%char (String "/"%char rest) => in_cwd rest
  | _ => path
  end.

(** First run: nothing in the bucket, no local file, no faults;
    the clock shows 2024-01-01 12:00:00. *)
Definition fresh : World :=
  {| environ := {[ "GTFS_URL" := "https://example.org/gtfs";
                   "S3_BUCKET_NAME" := "bucket" ]};
     clock := Datetime 2024 1 1 12 0 0;
     http := λ _, Ret response;
     realpath := in_cwd;
     files := ∅;
     fs_fault := λ _, None;
     objects := ∅;
     s3_fault := λ _, None;
     trace := [] |}.

(** An empty archive lies on the disk. *)
Definition empty_file : World := set_files {[ "GTFS_Carris.zip" := [] ]} fresh.

Definition client : Client :=
  {| service_name := "s3"; region_name := "us-east-1";
     endpoint_url := None; credentials := None |}.

(** An earlier archive sits under the desired key. *)
Definition taken : World :=
  set_objects {[ ("bucket", "gtfs/GTFS_Carris.zip") := [x00]%byte ]} fresh.

(** The hash of the archive is already stored, with a trailing newline. *)
Definition recorded : World :=
  set_objects
    {[ ("bucket", "gtfs/hash.txt") :=
         Py.encode_utf8 (SHA256.hexdigest_of [x50; x4b; x03; x04]%byte) ++ [x0a]%byte ]}
    fresh.

(** The hash of the archive is already stored, exactly. *)
Definition recorded_exact : World :=
  set_objects
    {[ ("bucket", "gtfs/hash.txt") :=
         Py.encode_utf8 (SHA256.hexdigest_of [x50; x4b; x03; x04]%byte) ]}
    fresh.

Definition with_s3_fault (f : Call → option exn) (w : World) : World :=
  {| environ := environ w; clock := clock w; http := http w;
     realpath := realpath w; files := files w;
     fs_fault := fs_fault w; objects := objects w; s3_fault := f;
     trace := trace w |}.

Definition with_fs_fault (f : FsCall → option exn) (w : World) : World :=
  {| environ := environ w; clock := clock w; http := http w;
     realpath := realpath w; files := files w;
     fs_fault := f; objects := objects w; s3_fault := s3_fault w;
     trace := trace w |}.

Definition with_http (h : string → result Response) (w : World) : World :=
  {| environ := environ w; clock := clock w; http := h;
     realpath := realpath w; files := files w;
     fs_fault := fs_fault w; objects := objects w; s3_fault := s3_fault w;
     trace := trace w |}.

Definition with_environ (e : gmap string string) (w : World) : World :=
  {| environ := e; clock := clock w; http := http w;
     realpath := realpath w; files := files w;
     fs_fault := fs_fault w; objects := objects w; s3_fault := s3_fault w;
     trace := trace w |}.

(** Every upload is refused by the store. *)
Definition upload_refused : World :=
  with_s3_fault (λ call, match call with
                         | UploadFile _ _ _ => Some (ClientError "AccessDenied")
                         | _ => None
                         end) fresh.

(** The local archive cannot be removed. *)
Definition undeletable : World :=
  with_fs_fault (λ call, match call with
                         | Remove _ => Some (OtherException "PermissionError")
                         | _ => None
                         end) fresh.

(** The connection breaks after the first chunk. *)
Definition interrupted : World :=
  with_http (λ _, Ret {| status_code := 200; content_disposition := None;
                         chunks := [[x50; x4b]%byte];
                         broken := Some (RequestException "ChunkedEncodingError") |})
            fresh.

(** A custom endpoint without credentials. *)
Definition endpoint_without_keys : World :=
  with_environ {[ "GTFS_URL" := "https://example.org/gtfs";
                  "S3_BUCKET_NAME" := "bucket";
                  "S3_ENDPOINT_URL" := "https://s3.fr-par.scw.cloud" ]} fresh.

End Scenario.


(** ** Further scenarios *)

Module Cases.

(** The server answers 404. *)
Definition not_found : World :=
  Scenario.with_http
    (λ _, Ret {| status_code := 404; content_disposition := None;
                 chunks := []; broken := None |})
    (set_files {[ "GTFS_Carris.zip" := [x01]%byte ]} Scenario.fresh).

(** A header of the usual form, with the name between quotes. *)
Definition header : string :=
  "attachment; filename=" +:+ String Py.dquote ("feed.zip" +:+ String Py.dquote "").

(** A custom endpoint with both keys. *)
Definition custom_endpoint : World :=
  Scenario.with_environ
    {[ "GTFS_URL" := "https://example.org/gtfs";
       "S3_BUCKET_NAME" := "bucket";
       "S3_ENDPOINT_URL" := "https://s3.fr-par.scw.cloud";
       "S3_ACCESS_KEY_ID" := "SCWKEY";
       "S3_SECRET_ACCESS_KEY" := "secret" ]} Scenario.fresh.

(** The archive lies on the disk, nothing in the bucket. *)
Definition downloaded : World :=
  set_files {[ "GTFS_Carris.zip" := [x50; x4b; x03; x04]%byte ]} Scenario.fresh.

(** The fingerprint object is not valid UTF-8. *)
Definition corrupt : World :=
  set_objects {[ ("bucket", "gtfs/hash.txt") := [xff; xfe]%byte ]} Scenario.fresh.

(** The server names the archive like the fingerprint object. *)
Definition named_hash_txt : World :=
  Scenario.with_http
    (λ _, Ret {| status_code := 200;
                 content_disposition :=
                   Some ("attachment; filename="
                         +:+ String Py.dquote ("hash.txt" +:+ String Py.dquote ""));
                 chunks := [[x50; x4b]; [x03; x04]]%byte; broken := None |})
    Scenario.fresh.

(** Another file lies beside the archive. *)
Definition with_notes : World :=
  set_files {[ "notes.txt" := [x01]%byte ]} Scenario.fresh.

(** The server names the archive [./notes.txt], which is that other file
    under another spelling. *)
Definition named_like_notes : World :=
  Scenario.with_http
    (λ _, Ret {| status_code := 200;
                 content_disposition := Some "attachment; filename=./notes.txt";
                 chunks := [[x50; x4b]; [x03; x04]]%byte; broken := None |})
    with_notes.

(** The desired key, the time-stamped key and the key with counter 1 are
    taken. *)
Definition crowded : World :=
  set_objects
    {[ ("bucket", "gtfs/GTFS_Carris.zip") := [x00]%byte;
       ("bucket", "gtfs/GTFS_Carris_20240101_120000.zip") := [x01]%byte;
       ("bucket", "gtfs/GTFS_Carris_20240101_120000_1.zip") := [x02]%byte ]}
    Scenario.fresh.

(** The server cannot be reached. *)
Definition unreachable : World :=
  Scenario.with_http (λ _, Raise (RequestException "ConnectionError")) Scenario.fresh.

End Cases.

(** The fields of a [datetime] are within the ranges Python gives them. *)
Definition datetime_valid (dt : datetime) : Prop :=
  1 ≤ month dt ≤ 12 ∧ 1 ≤ day dt ≤ 31 ∧
  hour dt < 24 ∧ minute dt < 60 ∧ second dt < 60.

(** The character [c] does not occur in [s]. *)
Definition absent (c : ascii) (s : string) : Prop :=
  Py.contains (String c "") s = false.

(** * Properties *)

(** ** The existence check and the key allocator *)

Section allocator.
Context (c : Client) (b : string).

Lemma same_state_refl w : same_state w w.
Proof. by repeat split. Qed.

Lemma same_state_trans w1 w2 w3 :
  same_state w1 w2 → same_state w2 w3 → same_state w1 w3.
Proof. unfold same_state. intros; destruct_and!; repeat split; congruence. Qed.

Lemma same_state_record call e w : same_state w (record call e w).
Proof. by repeat split. Qed.

(** The check records one [HeadObject] call and changes nothing else. *)
Lemma check_world k w :
  ∃ e, snd (check_s3_file_exists c b k w) = record (HeadObject b k) e w.
Proof.
  unfold check_s3_file_exists, head_object.
  destruct (s3_fault w _) as [[code| |]|]; simpl; eauto.
  - destruct (String.eqb code "404"); simpl; eauto.
  - destruct (objects w !! _); simpl; eauto.
Qed.

Lemma check_same_state k w : same_state w (snd (check_s3_file_exists c b k w)).
Proof. destruct (check_world k w) as [e ->]. apply same_state_record. Qed.

(** The answer depends on the bucket and the faults only. *)
Lemma probe_ext k w w' :
  objects w' = objects w → s3_fault w' = s3_fault w →
  probe c b k w' = probe c b k w.
Proof.
  intros Ho Hf.
  unfold probe, check_s3_file_exists, head_object. rewrite Ho, Hf.
  destruct (s3_fault w _) as [[code| |]|]; simpl; try done.
  - by destruct (String.eqb code "404").
  - by destruct (objects w !! _).
Qed.

Lemma probe_same_state k w w' : same_state w w' → probe c b k w' = probe c b k w.
Proof. intros (_ & _ & _ & _ & _ & Ho & Hf & _). by apply probe_ext. Qed.

Lemma probe_true k w :
  probe c b k w = Ret true ↔
  s3_fault w (HeadObject b k) = None ∧ is_Some (objects w !! (b, k)).
Proof.
  unfold probe, check_s3_file_exists, head_object.
  destruct (s3_fault w _) as [[code| |]|]; simpl.
  - destruct (String.eqb code "404"); simpl; naive_solver.
  - naive_solver.
  - naive_solver.
  - destruct (objects w !! _); simpl; naive_solver.
Qed.

Lemma probe_false k w :
  probe c b k w = Ret false ↔
  fst (head_object c b k w) = Raise (ClientError "404").
Proof.
  unfold probe, check_s3_file_exists.
  destruct (head_object c b k w) as [[[]|[code| |]] w1]; simpl; try naive_solver.
  destruct (String.eqb_spec code "404") as [->|Hne]; simpl; naive_solver.
Qed.

Lemma probe_raise k w e :
  fst (head_object c b k w) = Raise e → e ≠ ClientError "404" →
  probe c b k w = Raise e.
Proof.
  unfold probe, check_s3_file_exists.
  destruct (head_object c b k w) as [[[]|[code| |]] w1]; simpl; try naive_solver.
  destruct (String.eqb_spec code "404") as [->|Hne]; simpl; naive_solver.
Qed.

(** The check raises only what a failing [head_object] call raised, and
    without a failing call it tells whether the key is in the bucket. *)
Lemma probe_raise_fault k w e :
  probe c b k w = Raise e → s3_fault w (HeadObject b k) = Some e.
Proof.
  unfold probe, check_s3_file_exists, head_object.
  destruct (s3_fault w _) as [[code| |]|]; simpl.
  - destruct (String.eqb code "404"); simpl; congruence.
  - congruence.
  - congruence.
  - destruct (objects w !! _); simpl; congruence.
Qed.

End allocator.

(** *** Distinct counters give distinct keys *)

Lemma string_app_nil (t : string) : "" +:+ t = t.
Proof. reflexivity. Qed.

Lemma string_app_cons (a : ascii) (s t : string) :
  String a s +:+ t = String a (s +:+ t).
Proof. reflexivity. Qed.

Lemma string_length_app (s t : string) :
  String.length (s +:+ t) = String.length s + String.length t.
Proof.
  induction s as [|a s IH]; [done|].
  rewrite string_app_cons. simpl. by rewrite IH.
Qed.

Lemma string_app_inv_tail (s1 s2 t : string) : s1 +:+ t = s2 +:+ t → s1 = s2.
Proof.
  revert s2. induction s1 as [|a s1 IH]; intros [|a' s2] H.
  - done.
  - apply (f_equal String.length) in H.
    rewrite !string_length_app in H. simpl in H. lia.
  - apply (f_equal String.length) in H.
    rewrite !string_length_app in H. simpl in H. lia.
  - rewrite !string_app_cons in H. injection H as Ha Ht. subst a'.
    f_equal. by apply IH.
Qed.

Lemma join_key_inj prefix : Inj (=) (=) (join_key prefix).
Proof.
  intros x y. unfold join_key. destruct (Py.truthy prefix); [|done].
  intros H. by do 2 apply String.app_inj in H.
Qed.

Lemma counted_key_inj key ts : Inj (=) (=) (counted_key key ts).
Proof.
  intros n m. unfold counted_key. destruct (split_key key) as [prefix filename].
  intros H%join_key_inj. apply (inj (pretty : nat → string)).
  destruct (Py.rsplit "." filename) as [|stem [|ext [|? ?]]].
  - do 4 apply String.app_inj in H. done.
  - do 4 apply String.app_inj in H. done.
  - do 4 apply String.app_inj in H. by apply string_app_inv_tail in H.
  - do 4 apply String.app_inj in H. done.
Qed.

(** A list without repetition inside a finite map is no longer than the
    map is large. *)
Lemma nodup_keys_size {V} (m : gmap (string * string) V) (l : list (string * string)) :
  NoDup l → (∀ x, x ∈ l → is_Some (m !! x)) → length l ≤ size m.
Proof.
  intros Hnd Hin. rewrite <- (size_dom (D := gset (string * string)) m).
  rewrite <- (size_list_to_set (C := gset (string * string)) l Hnd).
  apply subseteq_size. intros x Hx. apply elem_of_dom, Hin.
  by apply elem_of_list_to_set in Hx.
Qed.

Section allocator_loop.
Context (c : Client) (b : string) (key ts : string).

(** Each turn of the loop on which the check answers True found an
    object in the bucket. *)
Lemma counter_loop_none fuel n w :
  counter_loop fuel c b key ts n w = None →
  ∀ j, n ≤ j < n + fuel → is_Some (objects w !! (b, counted_key key ts j)).
Proof.
  revert n w. induction fuel as [|fuel IH]; intros n w H j Hj; [lia|].
  simpl in H.
  pose proof (check_same_state c b (counted_key key ts n) w) as Hs.
  pose proof (probe_true c b (counted_key key ts n) w) as Ht.
  unfold probe in Ht.
  destruct (check_s3_file_exists c b (counted_key key ts n) w) as [[[]|e] w1];
    simpl in *; try done.
  destruct (decide (j = n)) as [->|Hne].
  - by apply Ht.
  - destruct Hs as (_ & _ & _ & _ & _ & <- & _).
    apply (IH (n + 1) w1 H). lia.
Qed.

(** More fuel than there are objects is always enough. *)
Lemma counter_loop_terminates fuel n w :
  size (objects w) < fuel → is_Some (counter_loop fuel c b key ts n w).
Proof.
  intros Hfuel.
  destruct (counter_loop fuel c b key ts n w) as [r|] eqn:H; [by eexists|].
  pose proof (counter_loop_none _ _ _ H) as Hall.
  assert (length ((λ j, (b, counted_key key ts j)) <$> seq n fuel)
          ≤ size (objects w)) as Hle.
  { apply nodup_keys_size.
    - apply NoDup_fmap_2; [|apply NoDup_seq].
      intros x y [= Hxy]. by apply counted_key_inj in Hxy.
    - intros x (j & -> & Hj%elem_of_seq)%list_elem_of_fmap. apply Hall. lia. }
  rewrite length_fmap, length_seq in Hle. lia.
Qed.

(** What the loop returns, how it got there and what it did. *)
Lemma counter_loop_spec fuel n w r w' :
  counter_loop fuel c b key ts n w = Some (r, w') →
  same_state w w' ∧
  (∃ probes, trace w' = trace w ++ probes ∧ Forall is_head probes) ∧
  ∀ k, r = Ret k →
    probe c b k w = Ret false ∧
    ∃ m, n ≤ m ∧ k = counted_key key ts m ∧
         ∀ j, n ≤ j < m → probe c b (counted_key key ts j) w = Ret true.
Proof.
  revert n w. induction fuel as [|fuel IH]; intros n w H; [done|].
  simpl in H.
  pose proof (check_same_state c b (counted_key key ts n) w) as Hs.
  destruct (check_world c b (counted_key key ts n) w) as [e He].
  destruct (check_s3_file_exists c b (counted_key key ts n) w)
    as [[[]|e'] w1] eqn:Hchk; simpl in *.
  - apply IH in H as (Hs' & (probes & Htr & Hpr) & Hk).
    split; [by eapply same_state_trans|]. split.
    + exists ((HeadObject b (counted_key key ts n), e) :: probes).
      rewrite Htr, He. simpl. rewrite <- app_assoc. split; [done|].
      constructor; [by do 2 eexists | done].
    + intros k Hr. destruct (Hk k Hr) as (Hfree & m & Hm & -> & Hbelow).
      rewrite (probe_same_state _ _ _ _ _ Hs) in Hfree. split; [done|].
      exists m. split; [lia|]. split; [done|].
      intros j Hj. destruct (decide (j = n)) as [->|Hne].
      * unfold probe. by rewrite Hchk.
      * rewrite <- (probe_same_state _ _ _ _ _ Hs). apply Hbelow. lia.
  - injection H as <- <-. split; [done|]. split.
    + exists [(HeadObject b (counted_key key ts n), e)]. rewrite He.
      split; [done|]. constructor; [by do 2 eexists | done].
    + intros k [= <-]. split; [unfold probe; by rewrite Hchk|].
      exists n. split; [lia|]. split; [done|]. intros j Hj. lia.
  - injection H as <- <-. split; [done|]. split.
    + exists [(HeadObject b (counted_key key ts n), e)]. rewrite He.
      split; [done|]. constructor; [by do 2 eexists | done].
    + intros k [=].
Qed.

(** When the loop raises, it is the check of the first candidate not
    found taken that raised. *)
Lemma counter_loop_raise fuel n w e w' :
  counter_loop fuel c b key ts n w = Some (Raise e, w') →
  ∃ m, n ≤ m ∧ probe c b (counted_key key ts m) w = Raise e ∧
       ∀ j, n ≤ j < m → probe c b (counted_key key ts j) w = Ret true.
Proof.
  revert n w. induction fuel as [|fuel IH]; intros n w H; [done|].
  simpl in H.
  pose proof (check_same_state c b (counted_key key ts n) w) as Hs.
  destruct (check_s3_file_exists c b (counted_key key ts n) w)
    as [[[]|e'] w1] eqn:Hchk; simpl in *.
  - apply IH in H as (m & Hm & Hraise & Hbelow).
    exists m. split; [lia|]. split.
    + by rewrite <- (probe_same_state _ _ _ _ _ Hs).
    + intros j Hj. destruct (decide (j = n)) as [->|Hne].
      * unfold probe. by rewrite Hchk.
      * rewrite <- (probe_same_state _ _ _ _ _ Hs). apply Hbelow. lia.
  - done.
  - injection H as -> <-. exists n. split; [lia|]. split.
    + unfold probe. by rewrite Hchk.
    + intros j Hj. lia.
Qed.

End allocator_loop.

Section allocator_spec.
Context (c : Client) (b : string).

Lemma generate_unique_s3_key_terminates fuel key w :
  size (objects w) < fuel → is_Some (generate_unique_s3_key fuel c b key w).
Proof.
  intros Hfuel. unfold generate_unique_s3_key.
  pose proof (check_same_state c b key w) as Hs1.
  destruct (check_s3_file_exists c b key w) as [[[]|e] w1]; simpl in *;
    try by eexists.
  pose proof (check_same_state c b (stamped_key key (strftime (clock w1))) w1) as Hs2.
  destruct (check_s3_file_exists c b _ w1) as [[[]|e] w2]; simpl in *;
    try by eexists.
  apply counter_loop_terminates.
  destruct Hs1 as (_ & _ & _ & _ & _ & Ho1 & _).
  destruct Hs2 as (_ & _ & _ & _ & _ & Ho2 & _). congruence.
Qed.

(** The first probe is for the desired key; only probes are made; the
    key returned was found free, after the candidates before it were
    found taken. *)
Lemma generate_unique_s3_key_spec fuel key w r w' :
  generate_unique_s3_key fuel c b key w = Some (r, w') →
  same_state w w' ∧
  (∃ e rest, trace w' = trace w ++ (HeadObject b key, e) :: rest ∧
             Forall is_head rest) ∧
  ∀ k, r = Ret k →
    probe c b k w = Ret false ∧
    (k = key ∨
     (probe c b key w = Ret true ∧
      (k = stamped_key key (strftime (clock w)) ∨
       (probe c b (stamped_key key (strftime (clock w))) w = Ret true ∧
        ∃ m, 1 ≤ m ∧ k = counted_key key (strftime (clock w)) m ∧
             ∀ j, 1 ≤ j < m →
               probe c b (counted_key key (strftime (clock w)) j) w = Ret true)))).
Proof.
  unfold generate_unique_s3_key. intros H.
  pose proof (check_same_state c b key w) as Hs1.
  destruct (check_world c b key w) as [e1 He1].
  destruct (check_s3_file_exists c b key w) as [[[]|e] w1] eqn:Hc1; simpl in *.
  2:{ injection H as <- <-. split; [done|]. split.
      - exists e1, []. by rewrite He1.
      - intros k [= <-]. unfold probe. rewrite Hc1. by split; [|left]. }
  2:{ injection H as <- <-. split; [done|]. split.
      - exists e1, []. by rewrite He1.
      - intros k [=]. }
  assert (clock w1 = clock w) as Hck by apply Hs1. rewrite Hck in H.
  set (ts := strftime (clock w)) in *.
  pose proof (check_same_state c b (stamped_key key ts) w1) as Hs2.
  destruct (check_world c b (stamped_key key ts) w1) as [e2 He2].
  destruct (check_s3_file_exists c b (stamped_key key ts) w1)
    as [[[]|e] w2] eqn:Hc2; simpl in *.
  2:{ injection H as <- <-. split; [by eapply same_state_trans|]. split.
      - exists e1, [(HeadObject b (stamped_key key ts), e2)].
        rewrite He2, He1. simpl. rewrite <- app_assoc. split; [done|].
        constructor; [by do 2 eexists | done].
      - intros k [= <-].
        rewrite <- (probe_same_state c b _ _ _ Hs1). unfold probe at 1.
        rewrite Hc2. split; [done|]. right. unfold probe. rewrite Hc1.
        split; [done|]. by left. }
  2:{ injection H as <- <-. split; [by eapply same_state_trans|]. split.
      - exists e1, [(HeadObject b (stamped_key key ts), e2)].
        rewrite He2, He1. simpl. rewrite <- app_assoc. split; [done|].
        constructor; [by do 2 eexists | done].
      - intros k [=]. }
  pose proof (same_state_trans _ _ _ Hs1 Hs2) as Hs12.
  apply counter_loop_spec in H as (Hs3 & (probes & Htr & Hpr) & Hk).
  split; [by eapply same_state_trans|]. split.
  - exists e1, ((HeadObject b (stamped_key key ts), e2) :: probes).
    rewrite Htr, He2, He1. simpl. rewrite <- !app_assoc. split; [done|].
    constructor; [by do 2 eexists | done].
  - intros k Hr. destruct (Hk k Hr) as (Hfree & m & Hm & -> & Hbelow).
    rewrite (probe_same_state c b _ _ _ Hs12) in Hfree. split; [done|].
    right. split; [unfold probe; by rewrite Hc1|]. right. split.
    + rewrite <- (probe_same_state c b _ _ _ Hs1). unfold probe.
      by rewrite Hc2.
    + exists m. split; [done|]. split; [done|]. intros j Hj.
      rewrite <- (probe_same_state c b _ _ _ Hs12). by apply Hbelow.
Qed.

(** When the allocator raises, it is the check of the first candidate not
    found taken that raised. *)
Lemma generate_unique_s3_key_raise fuel key w e w' :
  generate_unique_s3_key fuel c b key w = Some (Raise e, w') →
  ∃ k, probe c b k w = Raise e ∧
    (k = key ∨
     (probe c b key w = Ret true ∧
      (k = stamped_key key (strftime (clock w)) ∨
       (probe c b (stamped_key key (strftime (clock w))) w = Ret true ∧
        ∃ m, 1 ≤ m ∧ k = counted_key key (strftime (clock w)) m ∧
             ∀ j, 1 ≤ j < m →
               probe c b (counted_key key (strftime (clock w)) j) w = Ret true)))).
Proof.
  unfold generate_unique_s3_key. intros H.
  pose proof (check_same_state c b key w) as Hs1.
  destruct (check_s3_file_exists c b key w) as [[[]|e1] w1] eqn:Hc1; simpl in *.
  2:{ done. }
  2:{ injection H as -> <-. exists key. unfold probe. rewrite Hc1. by split; [|left]. }
  assert (clock w1 = clock w) as Hck by apply Hs1. rewrite Hck in H.
  set (ts := strftime (clock w)) in *.
  pose proof (check_same_state c b (stamped_key key ts) w1) as Hs2.
  destruct (check_s3_file_exists c b (stamped_key key ts) w1)
    as [[[]|e2] w2] eqn:Hc2; simpl in *.
  2:{ done. }
  2:{ injection H as -> <-. exists (stamped_key key ts). split.
      - rewrite <- (probe_same_state c b _ _ _ Hs1). unfold probe. by rewrite Hc2.
      - right. unfold probe. rewrite Hc1. split; [done|]. by left. }
  pose proof (same_state_trans _ _ _ Hs1 Hs2) as Hs12.
  apply counter_loop_raise in H as (m & Hm & Hraise & Hbelow).
  exists (counted_key key ts m). split.
  - by rewrite <- (probe_same_state c b _ _ _ Hs12).
  - right. split; [unfold probe; by rewrite Hc1|]. right. split.
    + rewrite <- (probe_same_state c b _ _ _ Hs1). unfold probe. by rewrite Hc2.
    + exists m. split; [done|]. split; [done|]. intros j Hj.
      rewrite <- (probe_same_state c b _ _ _ Hs12). by apply Hbelow.
Qed.

End allocator_spec.

(** C6: when the existence check says the desired key is free, the
    allocator returns the desired key unchanged, whatever the fuel. *)
Theorem generate_unique_s3_key_free_unchanged
    (fuel : nat) (c : Client) (b key : string) (w : World) :
  probe c b key w = Ret false →
  generate_unique_s3_key fuel c b key w
  = Some (Ret key, snd (check_s3_file_exists c b key w)).
Proof.
  unfold probe, generate_unique_s3_key.
  destruct (check_s3_file_exists c b key w) as [[[]|e] w1]; simpl; congruence.
Qed.

Lemma generate_unique_s3_key_free_unchanged_witness :
  probe Scenario.client "bucket" "gtfs/GTFS_Carris.zip" Scenario.fresh = Ret false ∧
  fst <$> generate_unique_s3_key 0 Scenario.client "bucket" "gtfs/GTFS_Carris.zip"
            Scenario.fresh
  = Some (Ret "gtfs/GTFS_Carris.zip").
Proof.
  split; [reflexivity|].
  rewrite (generate_unique_s3_key_free_unchanged 0 Scenario.client "bucket"
             "gtfs/GTFS_Carris.zip" Scenario.fresh); reflexivity.
Defined.

(** C9: the existence check answers False exactly when [head_object]
    raised a ClientError with code 404; any other exception of
    [head_object] leaves the check as it is; and a key returned by the
    allocator is one whose probe raised that 404. *)
Theorem check_s3_file_exists_false_only_on_404
    (c : Client) (b key : string) (w : World) :
  (probe c b key w = Ret false ↔
   fst (head_object c b key w) = Raise (ClientError "404")) ∧
  (∀ e, fst (head_object c b key w) = Raise e → e ≠ ClientError "404" →
        probe c b key w = Raise e) ∧
  (∀ fuel k w', generate_unique_s3_key fuel c b key w = Some (Ret k, w') →
        fst (head_object c b k w) = Raise (ClientError "404")).
Proof.
  split; [apply probe_false|]. split; [apply probe_raise|].
  intros fuel k w' H. apply generate_unique_s3_key_spec in H as (_ & _ & Hk).
  destruct (Hk k eq_refl) as [Hfree _]. by apply probe_false.
Qed.

(** C1: with more fuel than the bucket has objects the allocator returns;
    the bucket and the local files are as before and only [head_object]
    calls were made; a key it returns is one the existence check finds
    free, and it is the desired key, or else (the desired key being taken)
    the time-stamped key, or else (that one being taken too) the key with
    the least counter from 1 on whose key is free.  The allocator raises
    only what the check of the first candidate not found taken raised,
    which is what a failing [head_object] call raised; so, when no
    [head_object] call fails, it does return a key. *)
Theorem generate_unique_s3_key_returns_free_key
    (fuel : nat) (c : Client) (b key : string) (w : World) :
  size (objects w) < fuel →
  ∃ r w', generate_unique_s3_key fuel c b key w = Some (r, w') ∧
    objects w' = objects w ∧ files w' = files w ∧
    (∃ probes, trace w' = trace w ++ probes ∧ Forall is_head probes) ∧
    (∀ k, r = Ret k →
      probe c b k w = Ret false ∧
      (k = key ∨
       (probe c b key w = Ret true ∧
        (k = stamped_key key (strftime (clock w)) ∨
         (probe c b (stamped_key key (strftime (clock w))) w = Ret true ∧
          ∃ m, 1 ≤ m ∧ k = counted_key key (strftime (clock w)) m ∧
               ∀ j, 1 ≤ j < m →
                 probe c b (counted_key key (strftime (clock w)) j) w = Ret true))))) ∧
    (∀ e, r = Raise e →
      ∃ k, probe c b k w = Raise e ∧ s3_fault w (HeadObject b k) = Some e ∧
      (k = key ∨
       (probe c b key w = Ret true ∧
        (k = stamped_key key (strftime (clock w)) ∨
         (probe c b (stamped_key key (strftime (clock w))) w = Ret true ∧
          ∃ m, 1 ≤ m ∧ k = counted_key key (strftime (clock w)) m ∧
               ∀ j, 1 ≤ j < m →
                 probe c b (counted_key key (strftime (clock w)) j) w = Ret true))))) ∧
    ((∀ k, s3_fault w (HeadObject b k) = None) → ∃ k, r = Ret k).
Proof.
  intros Hfuel.
  destruct (generate_unique_s3_key_terminates c b fuel key w Hfuel) as [[r w'] H].
  exists r, w'. split; [done|].
  assert (∀ e, r = Raise e →
    ∃ k, probe c b k w = Raise e ∧ s3_fault w (HeadObject b k) = Some e ∧
    (k = key ∨
     (probe c b key w = Ret true ∧
      (k = stamped_key key (strftime (clock w)) ∨
       (probe c b (stamped_key key (strftime (clock w))) w = Ret true ∧
        ∃ m, 1 ≤ m ∧ k = counted_key key (strftime (clock w)) m ∧
             ∀ j, 1 ≤ j < m →
               probe c b (counted_key key (strftime (clock w)) j) w = Ret true)))))
    as Hraise.
  { intros e ->. apply generate_unique_s3_key_raise in H as (k & Hk & Hwhich).
    exists k. split; [done|]. split; [|done]. by eapply probe_raise_fault. }
  apply generate_unique_s3_key_spec in H as (Hs & (e & rest & Htr & Hpr) & Hk).
  split; [apply Hs|]. split; [apply Hs|]. split; [|split; [done|split; [done|]]].
  - exists ((HeadObject b key, e) :: rest). split; [done|].
    constructor; [by do 2 eexists | done].
  - intros Hnf. destruct r as [k|e']; [by exists k|].
    destruct (Hraise e' eq_refl) as (k & _ & Hfault & _).
    rewrite Hnf in Hfault. discriminate.
Qed.

Lemma generate_unique_s3_key_returns_free_key_witness :
  size (objects Cases.crowded) < 4 ∧
  ∃ w', generate_unique_s3_key 4 Scenario.client "bucket" "gtfs/GTFS_Carris.zip"
          Cases.crowded
        = Some (Ret "gtfs/GTFS_Carris_20240101_120000_2.zip", w') ∧
        objects w' = objects Cases.crowded ∧
        trace w'
        = [(HeadObject "bucket" "gtfs/GTFS_Carris.zip", None);
           (HeadObject "bucket" "gtfs/GTFS_Carris_20240101_120000.zip", None);
           (HeadObject "bucket" "gtfs/GTFS_Carris_20240101_120000_1.zip", None);
           (HeadObject "bucket" "gtfs/GTFS_Carris_20240101_120000_2.zip",
            Some (ClientError "404"))].
Proof.
  assert (size (objects Cases.crowded) < 4) as Hfuel by (vm_compute; lia).
  split; [done|].
  destruct (generate_unique_s3_key_returns_free_key 4 Scenario.client "bucket"
              "gtfs/GTFS_Carris.zip" Cases.crowded Hfuel)
    as (r & w' & Hgen & Hobj & _ & _ & _ & _ & Hret).
  destruct (Hret (λ _, eq_refl)) as [k ->].
  exists w'. split; [|split; [done|]].
  - rewrite Hgen. vm_compute in Hgen. injection Hgen as <- _. reflexivity.
  - vm_compute in Hgen. injection Hgen as _ <-. reflexivity.
Defined.

(** ** The fingerprint *)

(** The embedded SHA-256 on the standard test vectors. *)
Example sha256_of_empty :
  SHA256.hexdigest_of []
  = "e3b0c44298fc1c149afbf4c8996fb92427ae41e4649b934ca495991b7852b855".
Proof. vm_compute. reflexivity. Qed.

Example sha256_of_abc :
  SHA256.hexdigest_of [x61; x62; x63]%byte
  = "ba7816bf8f01cfea414140de5dae2223b00361a396177a9cb410ff61f20015ad".
Proof. vm_compute. reflexivity. Qed.

(** More than one block. *)
Example sha256_of_200_a :
  SHA256.hexdigest_of (replicate 200 x61%byte)
  = "c2a908d98f5df987ade41b5fce213067efbcc21ef2240212a41e54b5e7c28ae5".
Proof. vm_compute. reflexivity. Qed.

(** The string operations on the values the script meets. *)
Example rsplit_key :
  Py.rsplit "/" "gtfs/GTFS_Carris.zip" = ["gtfs"; "GTFS_Carris.zip"]
  ∧ Py.rsplit "." "GTFS_Carris.zip" = ["GTFS_Carris"; "zip"]
  ∧ Py.rsplit "." "archive.tar.gz" = ["archive.tar"; "gz"]
  ∧ Py.rsplit "/" "GTFS_Carris" = ["GTFS_Carris"].
Proof. repeat split. Qed.

Example strip_newline :
  Py.strip (" abc123" +:+ String "010" "") = "abc123".
Proof. vm_compute. reflexivity. Qed.

Example filename_from_header :
  Py.findall_filename_first
    ("attachment; filename=" +:+ String Py.dquote ("feed.zip" +:+ String Py.dquote ""))
  = Some "feed.zip"
  ∧ Py.findall_filename_first "attachment; filename=feed.zip; size=3"
    = Some "feed.zip; size=3"
  ∧ Py.findall_filename_first "attachment; filename=" = None.
Proof. vm_compute. repeat split. Qed.

Example stamped_and_counted :
  stamped_key "gtfs/GTFS_Carris.zip" "20240101_120000"
  = "gtfs/GTFS_Carris_20240101_120000.zip"
  ∧ counted_key "gtfs/GTFS_Carris.zip" "20240101_120000" 1
    = "gtfs/GTFS_Carris_20240101_120000_1.zip"
  ∧ stamped_key "feed" "20240101_120000" = "feed_20240101_120000".
Proof. vm_compute. repeat split. Qed.

(** Reading block by block feeds the whole file, in order. *)
Lemma read_blocks_fed (h : sha256_hash) (data : list byte) :
  fed (read_blocks h data) = fed h ++ data.
Proof.
  funelim (read_blocks h data).
  - cbn [file_read fst] in *.
    destruct rest; [by rewrite app_nil_r | discriminate].
  - match goal with IH : fed _ = _ |- _ => rewrite IH end.
    cbn [file_read fst snd update fed] in *.
    match goal with E : take _ _ = _ |- _ => rewrite <- E end.
    by rewrite <- app_assoc, take_drop.
Qed.

Lemma digest_sha256 (data : list byte) : digest data = SHA256.hexdigest_of data.
Proof. unfold digest, hexdigest. by rewrite read_blocks_fed. Qed.

Lemma calculate_file_hash_eq (p : string) (w : World) :
  calculate_file_hash p w =
  match fs_fault w (OpenRead p) with
  | Some e => (Raise e, w)
  | None => match files w !! realpath w p with
            | Some data => (Ret (digest data), w)
            | None => (Raise (OtherException "FileNotFoundError"), w)
            end
  end.
Proof.
  unfold calculate_file_hash, bind, open_rb, ret, digest.
  destruct (fs_fault w _); [done|]. by destruct (files w !! _).
Qed.

(** *** The digest takes at most 2^256 values *)

Section sha_range.
Local Open Scope Z_scope.
Import SHA256.

Lemma w32_ok x : word_ok (w32 x).
Proof. unfold word_ok, w32. change (2 ^ 32) with 4294967296. apply Z.mod_pos_bound. lia. Qed.

Lemma compress_ok h block : regs_ok (compress h block).
Proof. unfold compress, add_regs. repeat split; apply w32_ok. Qed.

Lemma blocks_ok fuel ws h : regs_ok h → regs_ok (blocks fuel ws h).
Proof.
  revert ws h. induction fuel as [|fuel IH]; intros [|x ws] h Hh; simpl; try done.
  apply IH, compress_ok.
Qed.

Lemma H0_ok : regs_ok H0.
Proof. unfold regs_ok, word_ok. simpl. lia. Qed.

Lemma digest_int_range msg : 0 ≤ digest_int msg < 2 ^ 256.
Proof.
  unfold digest_int, digest_regs.
  pose proof (blocks_ok (length (words (pad (byteZ <$> msg))))
                (words (pad (byteZ <$> msg))) H0 H0_ok) as Hok.
  destruct (blocks _ _ _) as [a b c d e f g h].
  unfold regs_ok, word_ok, regs_int in *. simpl in *.
  change (2 ^ 32) with 4294967296.
  change (2 ^ 256) with
    (4294967296 * 4294967296 * 4294967296 * 4294967296
     * 4294967296 * 4294967296 * 4294967296 * 4294967296).
  nia.
Qed.

End sha_range.

(** No function from the naturals into a bounded range is injective. *)
Lemma bounded_not_injective (N : nat) (f : nat → nat) :
  (∀ i, f i < N) → ¬ (∀ i j, f i = f j → i = j).
Proof.
  intros Hbound Hinj.
  assert (length (f <$> seq 0 (S N)) ≤ length (seq 0 N)) as Hle.
  { apply NoDup_incl_length.
    - apply NoDup_ListNoDup, NoDup_fmap_2; [exact Hinj | apply NoDup_seq].
    - intros x Hx. apply list_elem_of_In in Hx.
      apply list_elem_of_fmap in Hx as (i & -> & _).
      apply list_elem_of_In, elem_of_seq. specialize (Hbound i). lia. }
  rewrite length_fmap, !length_seq in Hle. lia.
Qed.

(** C7, refuted as stated: equal digests for all pairs of byte sequences
    would make the digest injective, but it takes at most 2^256 values
    while the sequences of zero bytes of each length are all different. *)
Lemma digest_not_injective :
  ¬ (∀ b1 b2 : list byte, digest b1 = digest b2 ↔ b1 = b2).
Proof.
  intros Hiff.
  apply (bounded_not_injective (Z.to_nat (2 ^ 256))
           (λ i, Z.to_nat (SHA256.digest_int (replicate i x00%byte)))).
  - intros i. pose proof (digest_int_range (replicate i x00%byte)). lia.
  - intros i j Hij.
    assert (digest (replicate i x00%byte) = digest (replicate j x00%byte)) as Hd.
    { rewrite !digest_sha256. unfold SHA256.hexdigest_of. f_equal.
      pose proof (digest_int_range (replicate i x00%byte)).
      pose proof (digest_int_range (replicate j x00%byte)). lia. }
    apply Hiff in Hd. apply (f_equal length) in Hd.
    by rewrite !length_replicate in Hd.
Qed.

Lemma hex_length (n : nat) (x : Z) : String.length (SHA256.hex n x) = n.
Proof.
  revert x. induction n as [|n IH]; intros x; [done|].
  simpl. rewrite string_length_app, IH. simpl. lia.
Qed.

(** C7, amended: on any readable file, whatever its bytes (none at all
    included), [calculate_file_hash] returns and leaves the world as it
    was; the result is the SHA-256 of the bytes in 64 hexadecimal digits
    and depends on nothing but the bytes: two files with the same bytes, in
    any two worlds, get the same digest. *)
Theorem calculate_file_hash_total_deterministic
    (p1 p2 : string) (w1 w2 : World) (data : list byte) :
  files w1 !! realpath w1 p1 = Some data → fs_fault w1 (OpenRead p1) = None →
  files w2 !! realpath w2 p2 = Some data → fs_fault w2 (OpenRead p2) = None →
  calculate_file_hash p1 w1 = (Ret (digest data), w1) ∧
  calculate_file_hash p2 w2 = (Ret (digest data), w2) ∧
  digest data = SHA256.hexdigest_of data ∧
  String.length (digest data) = 64.
Proof.
  intros Hf1 He1 Hf2 He2. rewrite !calculate_file_hash_eq, Hf1, He1, Hf2, He2.
  split; [done|]. split; [done|]. split; [apply digest_sha256|].
  rewrite digest_sha256. apply hex_length.
Qed.

Lemma calculate_file_hash_total_deterministic_witness :
  calculate_file_hash "GTFS_Carris.zip" Scenario.empty_file
  = (Ret "e3b0c44298fc1c149afbf4c8996fb92427ae41e4649b934ca495991b7852b855",
     Scenario.empty_file).
Proof.
  destruct (calculate_file_hash_total_deterministic
              "GTFS_Carris.zip" "GTFS_Carris.zip"
              Scenario.empty_file Scenario.empty_file []
              eq_refl eq_refl eq_refl eq_refl) as (H & _ & Hd & _).
  rewrite H, Hd. vm_compute. reflexivity.
Defined.

(** ** The steps of a run *)

Lemma world_eta (w : World) :
  {| environ := environ w; clock := clock w; http := http w;
     realpath := realpath w; files := files w;
     fs_fault := fs_fault w; objects := objects w; s3_fault := s3_fault w;
     trace := trace w |} = w.
Proof. by destruct w. Qed.

Lemma write_chunks_eq (p : string) (cs : list (list byte)) (w : World) (d : list byte) :
  files w !! realpath w p = Some d →
  write_chunks p cs w
  = (Ret tt, set_files (<[realpath w p := d ++ mjoin cs]> (files w)) w).
Proof.
  revert w d. induction cs as [|ch cs IH]; intros w d Hd; simpl.
  - unfold ret, set_files. rewrite app_nil_r, (insert_id _ _ _ Hd).
    by rewrite world_eta.
  - unfold bind, file_write. cbv zeta. rewrite Hd. simpl.
    erewrite IH; [|by apply lookup_insert_eq].
    unfold set_files. simpl. by rewrite insert_insert_eq, app_assoc.
Qed.

(** The five ways [download_gtfs_file] can go: no answer; an error status;
    the local file cannot be opened; the transfer breaks after some chunks
    were written; success.  Once the file is opened it holds the chunks
    received. *)
Lemma download_gtfs_file_eq (url d : string) (w : World) :
  download_gtfs_file url d w =
  match http w url with
  | Raise e => (Raise e, record (HttpGet url) (Some e) w)
  | Ret resp =>
      let w0 := record (HttpGet url) None w in
      if ((400 <=? status_code resp) && (status_code resp <? 600))%Z
      then (Raise (RequestException "HTTPError"), w0)
      else
        let name := choose_filename resp d in
        match fs_fault w (OpenWrite name) with
        | Some e => (Raise e, w0)
        | None =>
            let w1 :=
              set_files (<[realpath w name := mjoin (chunks resp)]> (files w)) w0 in
            match broken resp with
            | Some e => (Raise e, w1)
            | None => (Ret name, w1)
            end
        end
  end.
Proof.
  unfold download_gtfs_file, bind, requests_get, raise_for_status.
  destruct (http w url) as [resp|e]; [|done]. simpl.
  destruct ((400 <=? status_code resp)%Z && (status_code resp <? 600)%Z);
    [done|]. unfold ret at 1. unfold open_wb. simpl.
  destruct (fs_fault w _); [done|].
  erewrite write_chunks_eq; [|by apply lookup_insert_eq].
  unfold set_files. simpl. rewrite insert_insert_eq.
  by destruct (broken resp).
Qed.

Lemma same_state_bucket (w w' : World) :
  same_state w w' → S3_BUCKET_NAME w' = S3_BUCKET_NAME w.
Proof. intros (He & _). unfold S3_BUCKET_NAME, environ_get. by rewrite He. Qed.

Lemma same_state_config_params (w w' : World) :
  same_state w w' → config_params w' = config_params w.
Proof.
  intros (He & _).
  unfold config_params, S3_REGION, S3_ENDPOINT_URL, S3_ACCESS_KEY_ID,
    S3_SECRET_ACCESS_KEY, environ_get. by rewrite He.
Qed.

Lemma writes_app (l1 l2 : list Event) : writes (l1 ++ l2) = writes l1 ++ writes l2.
Proof. apply List.filter_app. Qed.

Lemma writes_heads (l : list Event) : Forall is_head l → writes l = [].
Proof.
  induction 1 as [|[call o] l (b & k & Hc) _ IH]; [done|].
  simpl in *. subst call. exact IH.
Qed.

Lemma get_s3_client_world (w : World) :
  ∃ o, snd (get_s3_client w) = record (CreateClient (config_params w)) o w ∧
       ∀ c, fst (get_s3_client w) = Ret c → c = config_params w.
Proof.
  unfold get_s3_client, boto3_client.
  destruct (s3_fault w _); simpl; eexists; (split; [done|]); congruence.
Qed.

Lemma get_remote_hash_world (c : Client) (b k : string) (w : World) :
  ∃ o, snd (get_remote_hash c b k w) = record (GetObject b k) o w.
Proof.
  unfold get_remote_hash, get_object.
  destruct (s3_fault w _) as [[code| |]|]; simpl; eauto.
  - destruct (String.eqb code "NoSuchKey"); simpl; eauto.
  - destruct (objects w !! _) as [body|]; simpl; eauto.
    destruct (Py.decode_utf8 body); simpl; eauto.
Qed.

Lemma upload_to_s3_eq (c : Client) (b p k : string) (w : World) :
  upload_to_s3 c b p k w =
  match s3_fault w (UploadFile p b k) with
  | Some e => (Raise e, record (UploadFile p b k) (Some e) w)
  | None =>
      match files w !! realpath w p with
      | Some data =>
          (Ret true, record (UploadFile p b k) None
                       (set_objects (<[(b, k) := data]> (objects w)) w))
      | None =>
          (Raise (OtherException "FileNotFoundError"),
           record (UploadFile p b k) (Some (OtherException "FileNotFoundError")) w)
      end
  end.
Proof.
  unfold upload_to_s3, bind, upload_file.
  destruct (s3_fault w _); [done|]. by destruct (files w !! _).
Qed.

Lemma save_hash_to_s3_eq (c : Client) (b k h : string) (w : World) :
  save_hash_to_s3 c b k h w =
  let call := PutObject b k (Py.encode_utf8 h) "text/plain" in
  match s3_fault w call with
  | Some e => (Raise e, record call (Some e) w)
  | None =>
      (Ret true, record call None
                   (set_objects (<[(b, k) := Py.encode_utf8 h]> (objects w)) w))
  end.
Proof.
  unfold save_hash_to_s3, bind, put_object. simpl. by destruct (s3_fault w _).
Qed.

(** Cleaning up touches the local files only, and what it leaves depends
    on the local files and the local faults only. *)
Lemma cleanup_local_file_frame (p : string) (w : World) :
  environ (cleanup_local_file p w) = environ w ∧
  clock (cleanup_local_file p w) = clock w ∧
  http (cleanup_local_file p w) = http w ∧
  fs_fault (cleanup_local_file p w) = fs_fault w ∧
  objects (cleanup_local_file p w) = objects w ∧
  s3_fault (cleanup_local_file p w) = s3_fault w ∧
  trace (cleanup_local_file p w) = trace w.
Proof.
  unfold cleanup_local_file, os_remove.
  destruct (os_path_exists p w); [|done].
  destruct (fs_fault w _); [done|]. by destruct (files w !! _).
Qed.

Lemma cleanup_local_file_realpath (p : string) (w : World) :
  realpath (cleanup_local_file p w) = realpath w.
Proof.
  unfold cleanup_local_file, os_remove.
  destruct (os_path_exists p w); [|done].
  destruct (fs_fault w _); [done|]. by destruct (files w !! _).
Qed.

Lemma cleanup_local_file_files (p : string) (w : World) :
  files (cleanup_local_file p w) =
  match fs_fault w (Remove p) with
  | Some _ => files w
  | None => delete (realpath w p) (files w)
  end.
Proof.
  unfold cleanup_local_file, os_remove, os_path_exists.
  case_bool_decide as Hex.
  - destruct (fs_fault w _); [done|]. destruct Hex as [d ->]. done.
  - destruct (fs_fault w _); [done|]. symmetry. apply delete_id.
    by apply eq_None_not_Some.
Qed.

(** What the part of [main] after the download does to the bucket: the
    write calls of the run are none, or a failed upload alone, or a
    successful upload under a key found free followed by the write of the
    hash. *)
Lemma main_after_download_spec (fuel : nat) (name : string) (w : World)
    (r : result run_end) (w' : World) :
  main_after_download fuel name w = Some (r, w') →
  environ w' = environ w ∧ fs_fault w' = fs_fault w ∧ s3_fault w' = s3_fault w ∧
  files w' = match r with
             | Ret _ => files (cleanup_local_file name w)
             | Raise _ => files w
             end ∧
  ∃ new, trace w' = trace w ++ new ∧
    ((writes new = [] ∧ objects w' = objects w ∧ r ≠ Ret ReturnUploaded) ∨
     (∃ k e, writes new = [(UploadFile name (S3_BUCKET_NAME w) k, Some e)] ∧
             objects w' = objects w ∧ r = Raise e) ∨
     (∃ k data o,
        writes new = [(UploadFile name (S3_BUCKET_NAME w) k, None);
                      (PutObject (S3_BUCKET_NAME w) hash_key
                         (Py.encode_utf8 (digest data)) "text/plain", o)] ∧
        files w !! realpath w name = Some data ∧
        probe (config_params w) (S3_BUCKET_NAME w) k w = Ret false ∧
        match o with
        | Some e =>
            r = Raise e ∧
            objects w' = <[(S3_BUCKET_NAME w, k) := data]> (objects w)
        | None =>
            r = Ret ReturnUploaded ∧
            objects w' = <[(S3_BUCKET_NAME w, hash_key) := Py.encode_utf8 (digest data)]>
                           (<[(S3_BUCKET_NAME w, k) := data]> (objects w))
        end)).
Proof.
  unfold main_after_download, main_publish. rewrite calculate_file_hash_eq.
  destruct (fs_fault w (OpenRead name)) as [e|].
  { intros [= <- <-]. repeat split; try done. exists []. rewrite app_nil_r.
    split; [done|]. left. by repeat split. }
  destruct (files w !! realpath w name) as [data|] eqn:Hdata.
  2:{ intros [= <- <-]. repeat split; try done. exists []. rewrite app_nil_r.
      split; [done|]. left. by repeat split. }
  (* the client *)
  destruct (get_s3_client_world w) as (o2 & Hw2 & Hc).
  destruct (get_s3_client w) as [[c|e] w2]; simpl in Hw2, Hc; subst w2.
  2:{ intros [= <- <-]. repeat split; try done. eexists [_].
      split; [done|]. left. by repeat split. }
  rewrite (Hc c eq_refl). clear Hc c.
  set (w2 := record (CreateClient (config_params w)) o2 w).
  assert (same_state w w2) as Hs2 by apply same_state_record.
  (* the remote hash *)
  rewrite (same_state_bucket _ _ Hs2).
  set (b := S3_BUCKET_NAME w).
  destruct (get_remote_hash_world (config_params w) b (S3_PREFIX +:+ "hash.txt") w2)
    as (o3 & Hw3).
  destruct (get_remote_hash (config_params w) b (S3_PREFIX +:+ "hash.txt") w2)
    as [[remote|e] w3]; simpl in Hw3; subst w3.
  2:{ intros [= <- <-]. repeat split; try done. eexists [_; _].
      split; [simpl; by rewrite <- app_assoc|]. left. by repeat split. }
  set (w3 := record (GetObject b (S3_PREFIX +:+ "hash.txt")) o3 w2).
  assert (same_state w w3) as Hs3.
  { eapply same_state_trans; [exact Hs2 | apply same_state_record]. }
  case_bool_decide as Hcmp.
  { intros [= <- <-].
    destruct (cleanup_local_file_frame name w3) as (He & _ & _ & Hf & Ho & Hsf & Ht).
    split; [by rewrite He|]. split; [by rewrite Hf|]. split; [by rewrite Hsf|].
    split; [by rewrite !cleanup_local_file_files|].
    eexists [_; _]. split; [rewrite Ht; simpl; by rewrite <- app_assoc|].
    left. by rewrite Ho. }
  (* the allocator *)
  rewrite (same_state_bucket _ _ Hs3). fold b.
  destruct (generate_unique_s3_key fuel (config_params w) b (S3_PREFIX +:+ name) w3)
    as [[[k|e] w4]|] eqn:Hgen; [| |done].
  2:{ intros [= <- <-].
      apply generate_unique_s3_key_spec in Hgen as (Hs4 & (e1 & rest & Htr & Hpr) & _).
      pose proof (same_state_trans _ _ _ Hs3 Hs4) as Hs.
      split; [apply Hs|]. split; [apply Hs|]. split; [apply Hs|].
      split; [apply Hs|].
      exists ([(CreateClient (config_params w), o2);
               (GetObject b (S3_PREFIX +:+ "hash.txt"), o3)]
              ++ (HeadObject b (S3_PREFIX +:+ name), e1) :: rest).
      split; [rewrite Htr; simpl; by rewrite <- !app_assoc|].
      left. split; [|split; [apply Hs | done]].
      rewrite writes_app. simpl. by apply writes_heads. }
  apply generate_unique_s3_key_spec in Hgen as (Hs4 & (e1 & rest & Htr & Hpr) & Hk).
  destruct (Hk k eq_refl) as [Hfree _]. clear Hk.
  rewrite (probe_same_state _ _ _ _ _ Hs3) in Hfree.
  pose proof (same_state_trans _ _ _ Hs3 Hs4) as Hs.
  assert (trace w4 = trace w ++
            [(CreateClient (config_params w), o2);
             (GetObject b (S3_PREFIX +:+ "hash.txt"), o3)]
            ++ (HeadObject b (S3_PREFIX +:+ name), e1) :: rest) as Htr4.
  { rewrite Htr. simpl. by rewrite <- !app_assoc. }
  assert (writes ([(CreateClient (config_params w), o2);
             (GetObject b (S3_PREFIX +:+ "hash.txt"), o3)]
            ++ (HeadObject b (S3_PREFIX +:+ name), e1) :: rest) = []) as Hwr4.
  { rewrite writes_app. simpl. by apply writes_heads. }
  clear Htr. revert Htr4 Hwr4. generalize ([(CreateClient (config_params w), o2);
             (GetObject b (S3_PREFIX +:+ "hash.txt"), o3)]
            ++ (HeadObject b (S3_PREFIX +:+ name), e1) :: rest).
  intros pre Htr4 Hwr4.
  destruct Hs as (Henv & Hclk & Hhttp & Hfiles & Hfsf & Hobj & Hs3f & Hrp).
  (* the upload *)
  rewrite (same_state_bucket w w4) by (by repeat split). fold b.
  rewrite upload_to_s3_eq, Hs3f, Hrp, Hfiles, Hdata.
  destruct (s3_fault w (UploadFile name b k)) as [e|] eqn:Hup.
  { intros [= <- <-]. simpl. repeat split; try done.
    exists (pre ++ [(UploadFile name b k, Some e)]).
    split; [by rewrite Htr4, <- app_assoc|]. right. left. exists k, e.
    rewrite writes_app, Hwr4. by repeat split. }
  (* the hash *)
  set (w5 := record (UploadFile name b k) None
               (set_objects (<[(b, k) := data]> (objects w4)) w4)).
  assert (S3_BUCKET_NAME w5 = b) as ->.
  { unfold b, S3_BUCKET_NAME, environ_get. simpl. by rewrite Henv. }
  rewrite save_hash_to_s3_eq. cbv zeta.
  replace (s3_fault w5) with (s3_fault w) by (simpl; congruence).
  destruct (s3_fault w (PutObject b (S3_PREFIX +:+ "hash.txt")
                          (Py.encode_utf8 (digest data)) "text/plain")) as [e|] eqn:Hput.
  { intros [= <- <-]. simpl. repeat split; try done.
    eexists (pre ++ [_; _]).
    split; [by rewrite Htr4, <- !app_assoc|]. right. right.
    exists k, data, (Some e). rewrite writes_app, Hwr4. simpl.
    repeat split; try done. by rewrite Hobj. }
  intros [= <- <-].
  match goal with |- context [cleanup_local_file name ?x] => set (w6 := x) end.
  destruct (cleanup_local_file_frame name w6) as (He & _ & _ & Hf & Ho & Hsf & Ht).
  split; [by rewrite He|]. split; [by rewrite Hf|]. split; [by rewrite Hsf|].
  split.
  { rewrite !cleanup_local_file_files. simpl. by rewrite Hfsf, Hfiles, Hrp. }
  eexists (pre ++ [_; _]). split.
  { rewrite Ht. simpl. by rewrite Htr4, <- !app_assoc. }
  right. right. exists k, data, None. rewrite writes_app, Hwr4. simpl.
  repeat split; try done. rewrite Ho. simpl. by rewrite Hobj.
Qed.

Lemma main_after_download_realpath (fuel : nat) (name : string) (w : World)
    (r : result run_end) (w' : World) :
  main_after_download fuel name w = Some (r, w') → realpath w' = realpath w.
Proof.
  unfold main_after_download, main_publish. rewrite calculate_file_hash_eq.
  destruct (fs_fault w (OpenRead name)); [by intros [= <- <-]|].
  destruct (files w !! realpath w name); [|by intros [= <- <-]].
  destruct (get_s3_client_world w) as (o2 & Hw2 & _).
  destruct (get_s3_client w) as [[c|e] w2]; simpl in Hw2; subst w2;
    [|by intros [= <- <-]].
  match goal with |- context [get_remote_hash ?c ?b ?k ?x] =>
    destruct (get_remote_hash_world c b k x) as (o3 & Hw3);
    destruct (get_remote_hash c b k x) as [[remote|e] w3]
  end; simpl in Hw3; subst w3; [|by intros [= <- <-]].
  case_bool_decide.
  { intros [= <- <-]. by rewrite cleanup_local_file_realpath. }
  match goal with |- context [generate_unique_s3_key fuel ?c ?b ?k ?x] =>
    destruct (generate_unique_s3_key fuel c b k x) as [[[key|e] w4]|] eqn:Hgen;
      [| |done];
      apply generate_unique_s3_key_spec in Hgen as ((_ & _ & _ & _ & _ & _ & _ & Hrp) & _)
  end; [|by intros [= <- <-]].
  rewrite upload_to_s3_eq.
  destruct (s3_fault w4 _); [by intros [= <- <-]|].
  destruct (files w4 !! _); [|by intros [= <- <-]].
  rewrite save_hash_to_s3_eq. cbv zeta.
  destruct (s3_fault _ _); intros [= <- <-]; [done|].
  by rewrite cleanup_local_file_realpath.
Qed.

Lemma main_after_download_terminates (fuel : nat) (name : string) (w : World) :
  size (objects w) < fuel → is_Some (main_after_download fuel name w).
Proof.
  intros Hfuel. unfold main_after_download, main_publish.
  rewrite calculate_file_hash_eq.
  destruct (fs_fault w (OpenRead name)); [by eexists|].
  destruct (files w !! realpath w name); [|by eexists].
  destruct (get_s3_client_world w) as (o2 & Hw2 & _).
  destruct (get_s3_client w) as [[c|e] w2]; simpl in Hw2; subst w2; [|by eexists].
  match goal with |- context [get_remote_hash ?c ?b ?k ?x] =>
    destruct (get_remote_hash_world c b k x) as (o3 & Hw3);
    destruct (get_remote_hash c b k x) as [[remote|e] w3]
  end; simpl in Hw3; subst w3; [|by eexists].
  case_bool_decide; [by eexists|].
  match goal with |- context [generate_unique_s3_key fuel ?c ?b ?k ?x] =>
    destruct (generate_unique_s3_key_terminates c b fuel k x) as [[[key|e] w4] ->]
  end; [done| |by eexists].
  destruct (upload_to_s3 _ _ _ _ w4) as [[]w5]; [|by eexists].
  destruct (save_hash_to_s3 _ _ _ _ w5) as [[]w6]; by eexists.
Qed.

Lemma truthy_false (s : string) : Py.truthy s = false ↔ s = "".
Proof.
  unfold Py.truthy. destruct (String.eqb_spec s ""); simpl; naive_solver.
Qed.

Lemma config_ok_false (w : World) :
  config_ok w = false ↔
  S3_BUCKET_NAME w = "" ∨ GTFS_URL w = "" ∨
  (S3_ENDPOINT_URL w ≠ "" ∧
   (S3_ACCESS_KEY_ID w = "" ∨ S3_SECRET_ACCESS_KEY w = "")).
Proof.
  unfold config_ok. rewrite <- !truthy_false.
  destruct (Py.truthy (S3_BUCKET_NAME w)), (Py.truthy (GTFS_URL w)),
    (Py.truthy (S3_ENDPOINT_URL w)), (Py.truthy (S3_ACCESS_KEY_ID w)),
    (Py.truthy (S3_SECRET_ACCESS_KEY w)); simpl; naive_solver.
Qed.

(** [main] after its three checks. *)
Lemma main_config_ok (fuel : nat) (w : World) :
  config_ok w = true →
  main fuel w =
  match download_gtfs_file (GTFS_URL w) LOCAL_GTFS_FILE w with
  | (Raise e, w1) => Some (SysExit 1, w1)
  | (Ret local_file, w1) =>
      match main_after_download fuel local_file w1 with
      | None => None
      | Some (Ret r, w2) => Some (r, w2)
      | Some (Raise e, w2) => Some (SysExit 1, cleanup_local_file local_file w2)
      end
  end.
Proof.
  unfold config_ok, main.
  destruct (Py.truthy (S3_BUCKET_NAME w)), (Py.truthy (GTFS_URL w)),
    (Py.truthy (S3_ENDPOINT_URL w)), (Py.truthy (S3_ACCESS_KEY_ID w)),
    (Py.truthy (S3_SECRET_ACCESS_KEY w)); simpl; done.
Qed.

Lemma main_config_error (fuel : nat) (w : World) :
  config_ok w = false → main fuel w = Some (SysExit 1, w).
Proof.
  unfold config_ok, main.
  destruct (Py.truthy (S3_BUCKET_NAME w)), (Py.truthy (GTFS_URL w)),
    (Py.truthy (S3_ENDPOINT_URL w)), (Py.truthy (S3_ACCESS_KEY_ID w)),
    (Py.truthy (S3_SECRET_ACCESS_KEY w)); simpl; done.
Qed.

(** The download leaves everything but the local files and the trace, to
    which it adds the one HTTP call. *)
Lemma download_gtfs_file_frame (url d : string) (w : World) :
  let w1 := snd (download_gtfs_file url d w) in
  environ w1 = environ w ∧ fs_fault w1 = fs_fault w ∧
  s3_fault w1 = s3_fault w ∧ objects w1 = objects w ∧
  ∃ o, trace w1 = trace w ++ [(HttpGet url, o)].
Proof.
  rewrite download_gtfs_file_eq.
  destruct (http w url) as [resp|e]; simpl; [|by eauto 10].
  destruct ((400 <=? status_code resp)%Z && (status_code resp <? 600)%Z);
    simpl; [by eauto 10|].
  destruct (fs_fault w (OpenWrite _)); simpl; [by eauto 10|].
  destruct (broken resp); simpl; by eauto 10.
Qed.

Lemma download_gtfs_file_realpath (url d : string) (w : World) :
  realpath (snd (download_gtfs_file url d w)) = realpath w.
Proof.
  rewrite download_gtfs_file_eq.
  destruct (http w url) as [resp|e]; simpl; [|done].
  destruct ((400 <=? status_code resp)%Z && (status_code resp <? 600)%Z);
    simpl; [done|].
  destruct (fs_fault w (OpenWrite _)); simpl; [done|].
  by destruct (broken resp).
Qed.

Lemma main_terminates (fuel : nat) (w : World) :
  size (objects w) < fuel → is_Some (main fuel w).
Proof.
  intros Hfuel. destruct (config_ok w) eqn:Hcfg.
  2:{ rewrite main_config_error by done. by eexists. }
  rewrite main_config_ok by done.
  pose proof (download_gtfs_file_frame (GTFS_URL w) LOCAL_GTFS_FILE w)
    as (_ & _ & _ & Hobj & _).
  destruct (download_gtfs_file _ _ w) as [[name|e] w1]; simpl in *; [|by eexists].
  destruct (main_after_download_terminates fuel name w1) as [[[r|e] w2] ->];
    [congruence| |]; by eexists.
Qed.

(** The write calls of a whole run. *)
Lemma main_writes (fuel : nat) (w : World) (r : run_end) (w' : World) :
  main fuel w = Some (r, w') →
  ∃ new, trace w' = trace w ++ new ∧
    ((writes new = [] ∧ objects w' = objects w ∧ r ≠ ReturnUploaded) ∨
     (∃ p k e, writes new = [(UploadFile p (S3_BUCKET_NAME w) k, Some e)] ∧
               objects w' = objects w ∧ r = SysExit 1) ∨
     (∃ p k data o,
        writes new = [(UploadFile p (S3_BUCKET_NAME w) k, None);
                      (PutObject (S3_BUCKET_NAME w) hash_key
                         (Py.encode_utf8 (digest data)) "text/plain", o)] ∧
        probe (config_params w) (S3_BUCKET_NAME w) k w = Ret false ∧
        match o with
        | Some e =>
            r = SysExit 1 ∧
            objects w' = <[(S3_BUCKET_NAME w, k) := data]> (objects w)
        | None =>
            r = ReturnUploaded ∧
            objects w' = <[(S3_BUCKET_NAME w, hash_key) := Py.encode_utf8 (digest data)]>
                           (<[(S3_BUCKET_NAME w, k) := data]> (objects w))
        end)).
Proof.
  destruct (config_ok w) eqn:Hcfg.
  2:{ rewrite main_config_error by done. intros [= <- <-].
      exists []. rewrite app_nil_r. split; [done|]. left. by repeat split. }
  rewrite main_config_ok by done.
  pose proof (download_gtfs_file_frame (GTFS_URL w) LOCAL_GTFS_FILE w)
    as (Henv & Hfsf & Hs3f & Hobj & o1 & Htr1).
  destruct (download_gtfs_file _ _ w) as [[name|e] w1]; simpl in *.
  2:{ intros [= <- <-]. eexists. split; [done|]. left. by repeat split. }
  destruct (main_after_download fuel name w1) as [[r1 w2]|] eqn:Hmad; [|done].
  apply main_after_download_spec in Hmad
    as (Henv2 & Hfsf2 & Hs3f2 & Hfiles2 & new & Htr2 & Hcases).
  assert (S3_BUCKET_NAME w1 = S3_BUCKET_NAME w) as Hb.
  { unfold S3_BUCKET_NAME, environ_get. by rewrite Henv. }
  assert (config_params w1 = config_params w) as Hcp.
  { unfold config_params, S3_REGION, S3_ENDPOINT_URL, S3_ACCESS_KEY_ID,
      S3_SECRET_ACCESS_KEY, environ_get. by rewrite Henv. }
  assert (∀ k, probe (config_params w) (S3_BUCKET_NAME w) k w1
               = probe (config_params w) (S3_BUCKET_NAME w) k w) as Hprobe.
  { intros k. by apply probe_ext. }
  rewrite Hb, Hcp, Hobj in Hcases.
  assert (∀ w3, trace w3 = trace w2 →
            trace w3 = trace w ++ (HttpGet (GTFS_URL w), o1) :: new) as Htr.
  { intros w3 ->. rewrite Htr2, Htr1. by rewrite <- app_assoc. }
  intros Hres.
  exists ((HttpGet (GTFS_URL w), o1) :: new).
  change (writes ((HttpGet (GTFS_URL w), o1) :: new)) with (writes new).
  destruct r1 as [r1|e].
  - injection Hres as <- <-. split; [by apply Htr|].
    destruct Hcases as [(Hw & Ho & Hr)|[(k & e & Hw & Ho & Hr)|(k & data & o & Hw & _ & Hp & Ho)]].
    + left. repeat split; [done..|]. congruence.
    + done.
    + right. right. exists name, k, data, o. split; [done|].
      split; [by rewrite <- Hprobe|].
      destruct o as [e|]; destruct Ho as [Hr Ho]; [done|]. split; [congruence|done].
  - injection Hres as <- <-.
    destruct (cleanup_local_file_frame name w2) as (_ & _ & _ & _ & Hoc & _ & Htc).
    split; [by apply Htr|]. rewrite Hoc.
    destruct Hcases as [(Hw & Ho & Hr)|[(k & e' & Hw & Ho & Hr)|(k & data & o & Hw & _ & Hp & Ho)]].
    + left. by repeat split.
    + right. left. exists name, k, e'. by repeat split.
    + right. right. exists name, k, data, o. split; [done|].
      split; [by rewrite <- Hprobe|].
      destruct o as [e'|]; destruct Ho as [Hr Ho]; [done|]. done.
Qed.

(** ** The run as a whole *)

(** C8: when the bucket or the URL is not set, or an endpoint is set
    without both the access key and the secret, [main] ends with
    [sys.exit(1)] and the world is exactly as it was: nothing was
    fetched, no store call was made, no local file was touched. *)
Theorem main_config_error_exits_before_any_call (fuel : nat) (w : World) :
  S3_BUCKET_NAME w = "" ∨ GTFS_URL w = "" ∨
  (S3_ENDPOINT_URL w ≠ "" ∧
   (S3_ACCESS_KEY_ID w = "" ∨ S3_SECRET_ACCESS_KEY w = "")) →
  main fuel w = Some (SysExit 1, w) ∧ exit_code (SysExit 1) = 1%Z.
Proof.
  intros H. split; [|done]. apply main_config_error. by apply config_ok_false.
Qed.

Lemma main_config_error_exits_before_any_call_witness :
  main 0 Scenario.endpoint_without_keys
  = Some (SysExit 1, Scenario.endpoint_without_keys).
Proof.
  apply (main_config_error_exits_before_any_call 0 Scenario.endpoint_without_keys).
  right. right. split; [by vm_compute | left; by vm_compute].
Defined.

(** C2: in every run the calls that write to the bucket are, in order:
    none at all, with the bucket unchanged; or one upload that failed,
    after which the run ends with [sys.exit(1)] and the bucket, the
    fingerprint object included, is unchanged; or one upload that
    succeeded followed by the write of the hash.  So the hash is never
    written before the archive has been stored. *)
Theorem main_hash_written_only_after_upload (fuel : nat) (w : World) :
  size (objects w) < fuel →
  ∃ r w' new, main fuel w = Some (r, w') ∧ trace w' = trace w ++ new ∧
    ((writes new = [] ∧ objects w' = objects w) ∨
     (∃ p k e, writes new = [(UploadFile p (S3_BUCKET_NAME w) k, Some e)] ∧
               r = SysExit 1 ∧ objects w' = objects w) ∨
     (∃ p k body o,
        writes new = [(UploadFile p (S3_BUCKET_NAME w) k, None);
                      (PutObject (S3_BUCKET_NAME w) hash_key body "text/plain", o)])).
Proof.
  intros Hfuel. destruct (main_terminates fuel w Hfuel) as [[r w'] Hmain].
  exists r, w'. destruct (main_writes _ _ _ _ Hmain) as (new & Htr & Hcases).
  exists new. split; [done|]. split; [done|].
  destruct Hcases as [(Hw & Ho & _)|[(p & k & e & Hw & Ho & Hr)|(p & k & data & o & Hw & _)]].
  - by left.
  - right. left. by exists p, k, e.
  - right. right. by exists p, k, (Py.encode_utf8 (digest data)), o.
Qed.

Lemma main_hash_written_only_after_upload_witness :
  size (objects Scenario.upload_refused) < 1 ∧
  ∃ w', main 1 Scenario.upload_refused = Some (SysExit 1, w') ∧
        writes (trace w')
        = [(UploadFile "GTFS_Carris.zip" "bucket" "gtfs/GTFS_Carris.zip",
            Some (ClientError "AccessDenied"))] ∧
        objects w' = objects Scenario.upload_refused.
Proof.
  assert (size (objects Scenario.upload_refused) < 1) as Hfuel by (vm_compute; lia).
  split; [done|].
  destruct (main_hash_written_only_after_upload 1 Scenario.upload_refused Hfuel)
    as (r & w' & new & Hmain & _).
  exists w'. rewrite Hmain. vm_compute in Hmain. injection Hmain as <- <-.
  repeat split.
Defined.

(** *** A run that reaches the comparison *)

Lemma get_remote_hash_eq (c : Client) (b k : string) (w : World) :
  s3_fault w (GetObject b k) = None →
  get_remote_hash c b k w =
  match objects w !! (b, k) with
  | Some body =>
      match Py.decode_utf8 body with
      | Some text => (Ret (Some (Py.strip text)), record (GetObject b k) None w)
      | None => (Raise (OtherException "UnicodeDecodeError"),
                 record (GetObject b k) None w)
      end
  | None => (Ret None, record (GetObject b k) (Some (ClientError "NoSuchKey")) w)
  end.
Proof.
  intros Hf. unfold get_remote_hash, get_object. rewrite Hf.
  by destruct (objects w !! (b, k)).
Qed.

Lemma main_at_comparison (fuel : nat) (w : World) (resp : Response) :
  reaches_comparison w resp →
  main fuel w =
  match objects w !! (S3_BUCKET_NAME w, hash_key) with
  | Some body =>
      match Py.decode_utf8 body with
      | None => Some (SysExit 1, cleanup_local_file (local_name resp)
                                   (world_at_comparison w resp None))
      | Some text =>
          if bool_decide (digest (mjoin (chunks resp)) = Py.strip text)
          then Some (ReturnSkipped, cleanup_local_file (local_name resp)
                                      (world_at_comparison w resp None))
          else publish_from fuel w resp (world_at_comparison w resp None)
      end
  | None =>
      publish_from fuel w resp
        (world_at_comparison w resp (Some (ClientError "NoSuchKey")))
  end.
Proof.
  intros (Hcfg & Hhttp & Hstatus & Hopen & Hbroken & Hread & Hclient & Hget).
  rewrite main_config_ok by done.
  rewrite download_gtfs_file_eq, Hhttp. cbv zeta. rewrite Hstatus.
  fold (local_name resp). rewrite Hopen, Hbroken.
  unfold main_after_download. rewrite calculate_file_hash_eq.
  cbn [fs_fault files set_files record]. rewrite Hread, lookup_insert_eq.
  unfold get_s3_client, boto3_client.
  match goal with |- context [config_params ?x] =>
    change (config_params x) with (config_params w) end.
  cbn [s3_fault set_files record]. rewrite Hclient.
  match goal with |- context [get_remote_hash _ (S3_BUCKET_NAME ?x)] =>
    change (S3_BUCKET_NAME x) with (S3_BUCKET_NAME w) end.
  rewrite get_remote_hash_eq by exact Hget.
  cbn [objects set_files record]. fold hash_key.
  unfold world_at_comparison, publish_from.
  destruct (objects w !! (S3_BUCKET_NAME w, hash_key)) as [body|]; [|done].
  destruct (Py.decode_utf8 body) as [text|]; [|done].
  destruct (decide (digest (mjoin (chunks resp)) = Py.strip text)) as [Heq|Hne].
  - rewrite !bool_decide_eq_true_2; [done|done|by f_equal].
  - rewrite !bool_decide_eq_false_2; [done|done|congruence].
Qed.

(** *** A hexadecimal digest survives [encode], [decode] and [strip] *)

Lemma hex_digit_cases (d : Z) (P : ascii → Prop) :
  (0 ≤ d < 16)%Z →
  P "0"%char → P "1"%char → P "2"%char → P "3"%char → P "4"%char →
  P "5"%char → P "6"%char → P "7"%char → P "8"%char → P "9"%char →
  P "a"%char → P "b"%char → P "c"%char → P "d"%char → P "e"%char →
  P "f"%char → P (SHA256.hex_digit d).
Proof.
  intros Hd. intros.
  assert (d = 0 ∨ d = 1 ∨ d = 2 ∨ d = 3 ∨ d = 4 ∨ d = 5 ∨ d = 6 ∨ d = 7 ∨
          d = 8 ∨ d = 9 ∨ d = 10 ∨ d = 11 ∨ d = 12 ∨ d = 13 ∨ d = 14 ∨
          d = 15)%Z as Hc by lia.
  destruct_or!; subst d; assumption.
Qed.

Lemma mod16_range (x : Z) : (0 ≤ x mod 16 < 16)%Z.
Proof. apply Z.mod_pos_bound. lia. Qed.

(** No whitespace begins with a hexadecimal digit, and none ends with one. *)
Lemma lstrip_hex_digit (d : Z) (s : string) :
  (0 ≤ d < 16)%Z →
  Py.lstrip (String (SHA256.hex_digit d) s) = String (SHA256.hex_digit d) s.
Proof.
  intros Hd. unfold Py.lstrip, Py.lstrip_with. cbn [String.length Py.drop_all].
  apply (hex_digit_cases d
           (λ a, match Py.drop_one (String.string_of_list_byte <$> Py.whitespace)
                         (String a s) with
                 | Some r => Py.drop_all (String.length s)
                               (String.string_of_list_byte <$> Py.whitespace) r
                 | None => String a s
                 end = String a s)); [done|..]; reflexivity.
Qed.

Lemma lstrip_rev_hex_digit (d : Z) (s : string) :
  (0 ≤ d < 16)%Z →
  Py.lstrip_with ((λ p, String.rev (String.string_of_list_byte p)) <$> Py.whitespace)
    (String (SHA256.hex_digit d) s) = String (SHA256.hex_digit d) s.
Proof.
  intros Hd. unfold Py.lstrip_with. cbn [String.length Py.drop_all].
  apply (hex_digit_cases d
           (λ a, match Py.drop_one
                         ((λ p, String.rev (String.string_of_list_byte p))
                            <$> Py.whitespace) (String a s) with
                 | Some r => Py.drop_all (String.length s)
                               ((λ p, String.rev (String.string_of_list_byte p))
                                  <$> Py.whitespace) r
                 | None => String a s
                 end = String a s)); [done|..]; reflexivity.
Qed.

Lemma rev_app_rev_app (s t u : string) :
  String.rev_app (String.rev_app s t) u = String.rev_app t (s +:+ u).
Proof.
  revert t u. induction s as [|a s IH]; intros t u; [done|].
  cbn [String.rev_app]. rewrite IH. by rewrite string_app_cons.
Qed.

Lemma string_app_nil_r (s : string) : s +:+ "" = s.
Proof. induction s as [|a s IH]; [done|]. by rewrite string_app_cons, IH. Qed.

Lemma rev_involutive (s : string) : String.rev (String.rev s) = s.
Proof. unfold String.rev. rewrite rev_app_rev_app. cbn. apply string_app_nil_r. Qed.

Lemma rev_app_snoc (s : string) (a : ascii) (t : string) :
  String.rev_app (s +:+ String a "") t = String a (String.rev_app s t).
Proof.
  revert t. induction s as [|b s IH]; intros t; [done|].
  rewrite string_app_cons. cbn [String.rev_app]. apply IH.
Qed.

Lemma hex_first (n : nat) (x : Z) :
  ∃ d s, (0 ≤ d < 16)%Z ∧ SHA256.hex (S n) x = String (SHA256.hex_digit d) s.
Proof.
  revert x. induction n as [|n IH]; intros x.
  - exists (x mod 16)%Z, "". split; [apply mod16_range | done].
  - destruct (IH (x / 16)%Z) as (d & s & Hd & Hs).
    exists d, (s +:+ String (SHA256.hex_digit (x mod 16)) "").
    split; [done|]. change (SHA256.hex (S (S n)) x) with
      (SHA256.hex (S n) (x / 16) +:+ String (SHA256.hex_digit (x mod 16)) "").
    by rewrite Hs, string_app_cons.
Qed.

Lemma strip_hex (n : nat) (x : Z) : Py.strip (SHA256.hex n x) = SHA256.hex n x.
Proof.
  destruct n as [|n]; [done|]. unfold Py.strip.
  destruct (hex_first n x) as (d & s & Hd & Hs).
  rewrite Hs, lstrip_hex_digit by done. rewrite <- Hs.
  assert (String.rev (SHA256.hex (S n) x)
          = String (SHA256.hex_digit (x mod 16)) (String.rev (SHA256.hex n (x / 16))))
    as Hrev.
  { unfold String.rev. cbn [SHA256.hex]. apply rev_app_snoc. }
  unfold Py.rstrip. rewrite Hrev, lstrip_rev_hex_digit by apply mod16_range.
  rewrite <- Hrev. apply rev_involutive.
Qed.

Lemma list_byte_of_string_app (s t : string) :
  String.list_byte_of_string (s +:+ t)
  = String.list_byte_of_string s ++ String.list_byte_of_string t.
Proof.
  induction s as [|a s IH]; [done|].
  rewrite string_app_cons. unfold String.list_byte_of_string in *.
  cbn [String.list_ascii_of_string List.map]. by rewrite IH.
Qed.

Lemma utf8_valid_ascii (bs : list byte) :
  Forall (λ b, Py.in_range 0 127 b = true) bs → Py.utf8_valid bs = true.
Proof. induction 1 as [|b bs Hb _ IH]; [done|]. cbn [Py.utf8_valid]. by rewrite Hb. Qed.

Lemma hex_ascii (n : nat) (x : Z) :
  Forall (λ b, Py.in_range 0 127 b = true)
         (String.list_byte_of_string (SHA256.hex n x)).
Proof.
  revert x. induction n as [|n IH]; intros x; [constructor|].
  cbn [SHA256.hex]. rewrite list_byte_of_string_app. apply Forall_app.
  split; [apply IH|].
  apply (hex_digit_cases (x mod 16)
           (λ a, Forall (λ b, Py.in_range 0 127 b = true)
                   (String.list_byte_of_string (String a ""))));
    [apply mod16_range|..]; by repeat constructor.
Qed.

Lemma decode_encode_hex (n : nat) (x : Z) :
  Py.decode_utf8 (Py.encode_utf8 (SHA256.hex n x)) = Some (SHA256.hex n x).
Proof.
  unfold Py.decode_utf8, Py.encode_utf8.
  rewrite utf8_valid_ascii by apply hex_ascii.
  by rewrite String.string_of_list_byte_of_string.
Qed.

(** *** Publishing *)

Section publish.
Context (c : Client) (b : string).

(** Without faults on [head_object] the check tells whether the key is
    in the bucket. *)
Lemma probe_no_fault k w :
  s3_fault w (HeadObject b k) = None →
  probe c b k w = Ret (bool_decide (is_Some (objects w !! (b, k)))).
Proof.
  intros Hf. unfold probe, check_s3_file_exists, head_object. rewrite Hf.
  destruct (objects w !! (b, k)) eqn:Ho.
  - by rewrite bool_decide_eq_true_2 by eauto.
  - by rewrite bool_decide_eq_false_2 by (by intros [? ?]).
Qed.

Lemma counter_loop_no_raise fuel key ts n w e w' :
  (∀ k, s3_fault w (HeadObject b k) = None) →
  counter_loop fuel c b key ts n w ≠ Some (Raise e, w').
Proof.
  revert n w. induction fuel as [|fuel IH]; intros n w Hnf; [done|].
  simpl. pose proof (probe_no_fault (counted_key key ts n) w (Hnf _)) as Hp.
  pose proof (check_same_state c b (counted_key key ts n) w) as Hs.
  unfold probe in Hp.
  destruct (check_s3_file_exists c b (counted_key key ts n) w) as [[[]|e'] w1];
    simpl in *; [|done..].
  apply IH. intros k. destruct Hs as (_ & _ & _ & _ & _ & _ & -> & _). apply Hnf.
Qed.

Lemma generate_unique_s3_key_no_raise fuel key w e w' :
  (∀ k, s3_fault w (HeadObject b k) = None) →
  generate_unique_s3_key fuel c b key w ≠ Some (Raise e, w').
Proof.
  intros Hnf. unfold generate_unique_s3_key.
  pose proof (probe_no_fault key w (Hnf _)) as Hp1.
  pose proof (check_same_state c b key w) as Hs1. unfold probe in Hp1.
  destruct (check_s3_file_exists c b key w) as [[[]|e1] w1]; simpl in *;
    [|done..].
  assert (∀ k, s3_fault w1 (HeadObject b k) = None) as Hnf1.
  { intros k. destruct Hs1 as (_ & _ & _ & _ & _ & _ & -> & _). apply Hnf. }
  pose proof (probe_no_fault (stamped_key key (strftime (clock w1))) w1 (Hnf1 _))
    as Hp2.
  pose proof (check_same_state c b (stamped_key key (strftime (clock w1))) w1)
    as Hs2. unfold probe in Hp2.
  destruct (check_s3_file_exists c b _ w1) as [[[]|e2] w2]; simpl in *;
    [|done..].
  apply counter_loop_no_raise.
  intros k. destruct Hs2 as (_ & _ & _ & _ & _ & _ & -> & _). apply Hnf1.
Qed.

(** Publishing begins with the probe of the desired key, never ends in
    the no-update return, and, unless a probe fails, calls
    [upload_file] with a key that is not in the bucket. *)
Lemma main_publish_spec fuel name key hk h w r w' :
  S3_BUCKET_NAME w = b →
  main_publish fuel c name key hk h w = Some (r, w') →
  r ≠ Ret ReturnSkipped ∧
  ∃ o rest, trace w' = trace w ++ (HeadObject b key, o) :: rest ∧
    ((∀ k, s3_fault w (HeadObject b k) = None) →
     ∃ k o', (UploadFile name b k, o') ∈ rest ∧ objects w !! (b, k) = None).
Proof.
  intros Hb. unfold main_publish. rewrite Hb.
  destruct (generate_unique_s3_key fuel c b key w) as [[[k|e] w4]|] eqn:Hgen;
    [| |done].
  2:{ intros [= <- <-]. split; [done|].
      pose proof Hgen as Hgen'.
      apply generate_unique_s3_key_spec in Hgen as (_ & (o & rest & Htr & _) & _).
      exists o, rest. split; [done|]. intros Hnf.
      by destruct (generate_unique_s3_key_no_raise fuel key w e w4 Hnf). }
  apply generate_unique_s3_key_spec in Hgen as (Hs & (o & rest & Htr & _) & Hk).
  destruct (Hk k eq_refl) as [Hfree _]. clear Hk.
  rewrite (same_state_bucket _ _ Hs), Hb.
  assert (∃ o5, ∀ r5 w5, upload_to_s3 c b name k w4 = (r5, w5) →
            trace w5 = trace w4 ++ [(UploadFile name b k, o5)] ∧
            environ w5 = environ w4) as (o5 & Hup).
  { rewrite upload_to_s3_eq. destruct (s3_fault w4 _).
    - eexists. by intros ?? [= <- <-].
    - destruct (files w4 !! _); eexists; by intros ?? [= <- <-]. }
  destruct (upload_to_s3 c b name k w4) as [r5 w5].
  destruct (Hup _ _ eq_refl) as [Htr5 Henv5].
  assert (∀ w6 more, trace w6 = trace w5 ++ more →
            ∃ o rest, trace w6 = trace w ++ (HeadObject b key, o) :: rest ∧
              ((∀ k, s3_fault w (HeadObject b k) = None) →
               ∃ k o', (UploadFile name b k, o') ∈ rest
                       ∧ objects w !! (b, k) = None)) as Hfin.
  { intros w6 more Htr6.
    exists o, (rest ++ (UploadFile name b k, o5) :: more). split.
    - rewrite Htr6, Htr5, Htr. by rewrite <- !app_assoc.
    - intros Hnf. exists k, o5. split; [set_solver|].
      rewrite (probe_no_fault k w (Hnf k)) in Hfree.
      injection Hfree as Hfree. apply bool_decide_eq_false in Hfree.
      by apply eq_None_not_Some. }
  destruct r5 as [ok|e].
  2:{ intros [= <- <-]. split; [done|]. apply (Hfin w5 []). by rewrite app_nil_r. }
  rewrite save_hash_to_s3_eq. cbv zeta.
  destruct (s3_fault w5 _) as [e|].
  { intros [= <- <-]. split; [done|]. by eapply (Hfin _ [_]). }
  intros [= <- <-]. split; [done|]. eapply (Hfin _ [_]).
  destruct (cleanup_local_file_frame name
              (record (PutObject (S3_BUCKET_NAME w5) hk (Py.encode_utf8 h) "text/plain") None
                 (set_objects (<[(S3_BUCKET_NAME w5, hk):=Py.encode_utf8 h]> (objects w5)) w5)))
    as (_ & _ & _ & _ & _ & _ & ->). done.
Qed.

End publish.

Lemma publish_from_spec (fuel : nat) (w : World) (resp : Response) (o3 : option exn)
    (r : run_end) (w' : World) :
  publish_from fuel w resp (world_at_comparison w resp o3) = Some (r, w') →
  r ≠ ReturnSkipped ∧
  ∃ o rest,
    trace w' = trace (world_at_comparison w resp o3)
               ++ (HeadObject (S3_BUCKET_NAME w) (S3_PREFIX +:+ local_name resp), o) :: rest ∧
    ((∀ k, s3_fault w (HeadObject (S3_BUCKET_NAME w) k) = None) →
     ∃ k o', (UploadFile (local_name resp) (S3_BUCKET_NAME w) k, o') ∈ rest ∧
             objects w !! (S3_BUCKET_NAME w, k) = None).
Proof.
  unfold publish_from.
  destruct (main_publish _ _ _ _ _ _ _) as [[r1 w1]|] eqn:Hpub; [|done].
  apply (main_publish_spec _ (S3_BUCKET_NAME w)) in Hpub as (Hr & o & rest & Htr & Hup);
    [|done].
  destruct r1 as [r1|e]; intros [= <- <-].
  - split; [congruence|]. by exists o, rest.
  - split; [done|]. exists o, rest. split; [|done].
    by destruct (cleanup_local_file_frame (local_name resp) w1)
      as (_ & _ & _ & _ & _ & _ & ->).
Qed.

(** *** The comparison of the two hashes *)

Lemma scenario_reaches_comparison (o : gmap (string * string) (list byte)) :
  reaches_comparison (set_objects o Scenario.fresh) Scenario.response.
Proof. repeat split. Qed.

(** C3: on a run that reaches the comparison with the fingerprint object
    holding the digest of the downloaded bytes, [main] takes the no-update
    return (exit code 0); the calls made are the download, the creation of
    the client and the read of the fingerprint object, none of them a
    write; the bucket is unchanged. *)

Theorem main_skips_without_writing (fuel : nat) (w : World) (resp : Response) :
  reaches_comparison w resp →
  objects w !! (S3_BUCKET_NAME w, hash_key)
  = Some (Py.encode_utf8 (digest (mjoin (chunks resp)))) →
  ∃ w', main fuel w = Some (ReturnSkipped, w') ∧
    exit_code ReturnSkipped = 0%Z ∧
    objects w' = objects w ∧
    trace w' = trace w ++ [(HttpGet (GTFS_URL w), None);
                           (CreateClient (config_params w), None);
                           (GetObject (S3_BUCKET_NAME w) hash_key, None)] ∧
    writes [(HttpGet (GTFS_URL w), None);
            (CreateClient (config_params w), None);
            (GetObject (S3_BUCKET_NAME w) hash_key, None)] = [].
Proof.
  intros Hreach Hobj. rewrite (main_at_comparison fuel w resp Hreach), Hobj.
  rewrite digest_sha256. unfold SHA256.hexdigest_of.
  rewrite decode_encode_hex, strip_hex, bool_decide_eq_true_2 by done.
  eexists. split; [done|]. split; [done|].
  destruct (cleanup_local_file_frame (local_name resp)
              (world_at_comparison w resp None))
    as (_ & _ & _ & _ & -> & _ & ->).
  split; [done|]. split; [|done]. simpl. by rewrite <- !app_assoc.
Qed.

Lemma main_skips_without_writing_witness :
  ∃ w', main 0 Scenario.recorded_exact = Some (ReturnSkipped, w') ∧
        objects w' = objects Scenario.recorded_exact.
Proof.
  assert (objects Scenario.recorded_exact
            !! (S3_BUCKET_NAME Scenario.recorded_exact, hash_key)
          = Some (Py.encode_utf8 (digest (mjoin (chunks Scenario.response))))) as Hobj.
  { rewrite digest_sha256. vm_compute. reflexivity. }
  destruct (main_skips_without_writing 0 Scenario.recorded_exact Scenario.response
              (scenario_reaches_comparison _) Hobj)
    as (w' & Hmain & _ & Hobj' & _).
  exists w'. split; [exact Hmain | exact Hobj'].
Defined.

(** C10: on a run that reaches the comparison with the fingerprint object
    holding the bytes [v], [main] takes the no-update return exactly when
    [v] decodes to a text whose stripped form is the local digest. *)

Theorem main_skips_iff_stripped_hash_equal
    (fuel : nat) (w : World) (resp : Response) (v : list byte) :
  reaches_comparison w resp →
  objects w !! (S3_BUCKET_NAME w, hash_key) = Some v →
  size (objects w) < fuel →
  ∃ r w', main fuel w = Some (r, w') ∧
    (r = ReturnSkipped ↔
     ∃ text, Py.decode_utf8 v = Some text ∧
             Py.strip text = digest (mjoin (chunks resp))).
Proof.
  intros Hreach Hobj Hfuel.
  destruct (main_terminates fuel w Hfuel) as [[r w'] Hmain].
  exists r, w'. split; [done|].
  rewrite (main_at_comparison fuel w resp Hreach), Hobj in Hmain.
  destruct (Py.decode_utf8 v) as [text|].
  - case_bool_decide as Heq.
    + injection Hmain as <- <-. split; [|done]. intros _. by exists text.
    + apply publish_from_spec in Hmain as [Hr _]. split; [done|].
      intros (text' & [= <-] & Hs). by destruct Heq.
  - injection Hmain as <- <-. split; [done|]. by intros (text' & [=] & _).
Qed.

Lemma main_skips_iff_stripped_hash_equal_witness :
  size (objects Scenario.recorded) < 2 ∧
  ∃ w', main 2 Scenario.recorded = Some (ReturnSkipped, w').
Proof.
  assert (size (objects Scenario.recorded) < 2) as Hfuel by (vm_compute; lia).
  split; [exact Hfuel|].
  destruct (main_skips_iff_stripped_hash_equal 2 Scenario.recorded Scenario.response
              (Py.encode_utf8 (SHA256.hexdigest_of [x50; x4b; x03; x04]%byte)
               ++ [x0a]%byte)
              (scenario_reaches_comparison _) eq_refl Hfuel)
    as (r & w' & Hmain & Hiff).
  assert (r = ReturnSkipped) as ->.
  { apply Hiff.
    exists (SHA256.hexdigest_of [x50; x4b; x03; x04]%byte +:+ String "010" "").
    split; [vm_compute; reflexivity|].
    rewrite digest_sha256. vm_compute. reflexivity. }
  exists w'. exact Hmain.
Defined.

(** C5: on a run that reaches the comparison with no fingerprint object in
    the bucket, [get_remote_hash] returns None without raising, and [main]
    does not take the no-update return: its next call is the probe of the
    desired key, and, unless a probe fails, it calls [upload_file] with a
    key that is not in the bucket. *)

Theorem main_publishes_when_no_hash_stored
    (fuel : nat) (w : World) (resp : Response) :
  reaches_comparison w resp →
  objects w !! (S3_BUCKET_NAME w, hash_key) = None →
  size (objects w) < fuel →
  fst (get_remote_hash (config_params w) (S3_BUCKET_NAME w) hash_key w) = Ret None ∧
  ∃ r w' o rest, main fuel w = Some (r, w') ∧ r ≠ ReturnSkipped ∧
    trace w' = trace w ++
      [(HttpGet (GTFS_URL w), None);
       (CreateClient (config_params w), None);
       (GetObject (S3_BUCKET_NAME w) hash_key, Some (ClientError "NoSuchKey"));
       (HeadObject (S3_BUCKET_NAME w) (S3_PREFIX +:+ local_name resp), o)] ++ rest ∧
    ((∀ k, s3_fault w (HeadObject (S3_BUCKET_NAME w) k) = None) →
     ∃ k o', (UploadFile (local_name resp) (S3_BUCKET_NAME w) k, o') ∈ rest ∧
             objects w !! (S3_BUCKET_NAME w, k) = None).
Proof.
  intros Hreach Hobj Hfuel. split.
  { rewrite get_remote_hash_eq by apply Hreach. by rewrite Hobj. }
  destruct (main_terminates fuel w Hfuel) as [[r w'] Hmain].
  pose proof Hmain as Hpub.
  rewrite (main_at_comparison fuel w resp Hreach), Hobj in Hpub.
  apply publish_from_spec in Hpub as (Hr & o & rest & Htr & Hup).
  exists r, w', o, rest. split; [done|].
  split; [done|]. split; [|done].
  rewrite Htr. simpl. by rewrite <- !app_assoc.
Qed.

Lemma main_publishes_when_no_hash_stored_witness :
  size (objects Scenario.taken) < 2 ∧
  ∃ w', main 2 Scenario.taken = Some (ReturnUploaded, w').
Proof.
  assert (size (objects Scenario.taken) < 2) as Hfuel by (vm_compute; lia).
  split; [exact Hfuel|].
  destruct (main_publishes_when_no_hash_stored 2 Scenario.taken Scenario.response
              (scenario_reaches_comparison _) eq_refl Hfuel)
    as (_ & r & w' & o & rest & Hmain & _).
  assert (r = ReturnUploaded) as ->.
  { pose proof Hmain as Hrun. vm_compute in Hrun. by injection Hrun as <- _. }
  exists w'. exact Hmain.
Defined.

(** *** The local file *)

(** C4, refuted as stated: when [os.remove] fails, [cleanup_local_file]
    logs a warning and goes on; the run ends normally (exit code 0) and
    the archive, absent before the run, is still on the disk under the
    default name. *)
Lemma main_leaves_file_when_remove_fails :
  files Scenario.undeletable !! realpath Scenario.undeletable LOCAL_GTFS_FILE = None ∧
  ∃ w', main 1 Scenario.undeletable = Some (ReturnUploaded, w') ∧
        files w' !! realpath w' LOCAL_GTFS_FILE = Some [x50; x4b; x03; x04]%byte.
Proof.
  split; [reflexivity|].
  destruct (main 1 Scenario.undeletable) as [[r w']|] eqn:Hmain;
    vm_compute in Hmain; [|discriminate].
  injection Hmain as <- <-. eexists. split; reflexivity.
Qed.

(** A transfer that breaks after the file was opened: [download_gtfs_file]
    raises before [local_file] is bound, so the handler of [main] cleans
    nothing and the chunks written so far stay on the disk. *)
Lemma main_leaves_partial_file_when_transfer_breaks :
  files Scenario.interrupted !! realpath Scenario.interrupted LOCAL_GTFS_FILE = None ∧
  ∃ w', main 1 Scenario.interrupted = Some (SysExit 1, w') ∧
        files w' !! realpath w' LOCAL_GTFS_FILE = Some [x50; x4b]%byte.
Proof.
  split; [reflexivity|].
  destruct (main 1 Scenario.interrupted) as [[r w']|] eqn:Hmain;
    vm_compute in Hmain; [|discriminate].
  injection Hmain as <- <-. eexists. split; reflexivity.
Qed.

(** C4, amended: a run that fails its configuration checks, or whose
    download fails before the local file is opened (no answer, an error
    status, the file cannot be opened), leaves the local files as they
    were; a run whose download returned a name ends, on every path, with
    [cleanup_local_file] on that name, and if [os.remove] does not fail on
    it the file is gone and every other file is as before. *)
Theorem main_removes_downloaded_file
    (fuel : nat) (w : World) (r : run_end) (w' : World) :
  main fuel w = Some (r, w') →
  (config_ok w = false → files w' = files w) ∧
  (config_ok w = true →
   (∀ e, http w (GTFS_URL w) = Raise e → files w' = files w) ∧
   (∀ resp, http w (GTFS_URL w) = Ret resp →
      ((400 <=? status_code resp) && (status_code resp <? 600))%Z = true ∨
      is_Some (fs_fault w (OpenWrite (local_name resp))) →
      files w' = files w) ∧
   (∀ name w1,
      download_gtfs_file (GTFS_URL w) LOCAL_GTFS_FILE w = (Ret name, w1) →
      fs_fault w (Remove name) = None →
      files w' = delete (realpath w name) (files w))).
Proof.
  intros Hmain. split.
  { intros Hcfg. rewrite main_config_error in Hmain by exact Hcfg.
    by injection Hmain as <- <-. }
  intros Hcfg. rewrite main_config_ok in Hmain by exact Hcfg.
  rewrite download_gtfs_file_eq in *. split; [|split].
  - intros e He. rewrite He in Hmain. by injection Hmain as <- <-.
  - intros resp Hresp Hbad. rewrite Hresp in Hmain. cbv zeta in Hmain.
    destruct ((400 <=? status_code resp)%Z && (status_code resp <? 600)%Z).
    { by injection Hmain as <- <-. }
    destruct Hbad as [?|[e He]]; [done|].
    fold (local_name resp) in Hmain. rewrite He in Hmain.
    by injection Hmain as <- <-.
  - intros name w1 Hdl Hrm.
    destruct (http w (GTFS_URL w)) as [resp|e]; [|done]. cbv zeta in *.
    destruct ((400 <=? status_code resp)%Z && (status_code resp <? 600)%Z); [done|].
    destruct (fs_fault w (OpenWrite _)); [done|].
    destruct (broken resp); [done|].
    injection Hdl as <- <-.
    set (name := choose_filename resp LOCAL_GTFS_FILE) in *.
    set (w1 := set_files _ _) in *.
    assert (delete (realpath w name) (files w1) = delete (realpath w name) (files w))
      as Hdel.
    { unfold w1. cbn [files set_files]. apply delete_insert_eq. }
    destruct (main_after_download fuel name w1) as [[r1 w2]|] eqn:Hmad; [|done].
    pose proof (main_after_download_realpath _ _ _ _ _ Hmad) as Hrp.
    apply main_after_download_spec in Hmad as (_ & Hfsf & _ & Hfiles & _).
    destruct r1 as [r1|e]; injection Hmain as <- <-.
    + rewrite Hfiles, cleanup_local_file_files.
      cbn [fs_fault realpath w1 set_files record]. by rewrite Hrm.
    + rewrite cleanup_local_file_files, Hfsf, Hfiles, Hrp.
      cbn [fs_fault realpath w1 set_files record]. by rewrite Hrm.
Qed.

Lemma main_removes_downloaded_file_witness :
  ∃ w', main 1 Scenario.fresh = Some (ReturnUploaded, w') ∧
        files w' !! realpath Scenario.fresh LOCAL_GTFS_FILE = None.
Proof.
  destruct (main 1 Scenario.fresh) as [[r w']|] eqn:Hmain.
  2:{ vm_compute in Hmain. discriminate. }
  destruct (main_removes_downloaded_file 1 Scenario.fresh r w' Hmain)
    as (_ & Hok).
  destruct (Hok eq_refl) as (_ & _ & Hgone).
  assert (download_gtfs_file (GTFS_URL Scenario.fresh) LOCAL_GTFS_FILE Scenario.fresh
          = (Ret LOCAL_GTFS_FILE,
             snd (download_gtfs_file (GTFS_URL Scenario.fresh) LOCAL_GTFS_FILE
                    Scenario.fresh))) as Hdl.
  { rewrite download_gtfs_file_eq. reflexivity. }
  specialize (Hgone _ _ Hdl eq_refl).
  assert (r = ReturnUploaded) as ->.
  { pose proof Hmain as Hrun. vm_compute in Hrun. by injection Hrun as <- _. }
  exists w'. split; [reflexivity|]. rewrite Hgone. apply lookup_delete_eq.
Defined.

(** * Further properties of the script *)

(** ** download_gtfs_file *)

(** X1: when [download_gtfs_file] returns, the file that the returned
    name names holds the chunks received, in order, whatever it held
    before, and it is read back so under every path that names it; a path
    that names another file reads what it read before; the bucket is
    untouched and one HTTP request was made. *)
Theorem download_gtfs_file_stores_the_chunks
    (url d name : string) (w w1 : World) :
  download_gtfs_file url d w = (Ret name, w1) →
  ∃ resp, http w url = Ret resp ∧ name = choose_filename resp d ∧
    files w1 = <[realpath w name := mjoin (chunks resp)]> (files w) ∧
    realpath w1 = realpath w ∧
    (∀ p, realpath w p = realpath w name →
          fst (open_rb p w1) = match fs_fault w (OpenRead p) with
                               | Some e => Raise e
                               | None => Ret (mjoin (chunks resp))
                               end) ∧
    (∀ p, realpath w p ≠ realpath w name →
          fst (open_rb p w1) = fst (open_rb p w)) ∧
    objects w1 = objects w ∧
    trace w1 = trace w ++ [(HttpGet url, None)].
Proof.
  rewrite download_gtfs_file_eq. destruct (http w url) as [resp|e]; [|done].
  cbv zeta. destruct ((400 <=? status_code resp)%Z && (status_code resp <? 600)%Z);
    [done|].
  destruct (fs_fault w (OpenWrite _)); [done|].
  destruct (broken resp); [done|]. intros [= <- <-]. exists resp.
  split; [done|]. split; [done|]. split; [done|]. split; [done|].
  split; [|split; [|done]].
  - intros p Hp. unfold open_rb. cbn [fs_fault realpath files set_files record].
    destruct (fs_fault w (OpenRead p)); [done|].
    by rewrite Hp, lookup_insert_eq.
  - intros p Hp. unfold open_rb. cbn [fs_fault realpath files set_files record].
    destruct (fs_fault w (OpenRead p)); [done|].
    rewrite lookup_insert_ne by congruence. by destruct (files w !! _).
Qed.

Lemma download_gtfs_file_stores_the_chunks_witness :
  fst (open_rb "notes.txt" Cases.named_like_notes) = Ret [x01]%byte ∧
  ∃ w1, download_gtfs_file "https://example.org/gtfs" "GTFS_Carris.zip"
          Cases.named_like_notes
        = (Ret "./notes.txt", w1) ∧
        fst (open_rb "notes.txt" w1) = Ret [x50; x4b; x03; x04]%byte.
Proof.
  split; [reflexivity|].
  assert (fst (download_gtfs_file "https://example.org/gtfs" "GTFS_Carris.zip"
                 Cases.named_like_notes) = Ret "./notes.txt") as Hname
    by (vm_compute; reflexivity).
  destruct (download_gtfs_file "https://example.org/gtfs" "GTFS_Carris.zip"
              Cases.named_like_notes) as [r w1] eqn:Hdl.
  cbn [fst] in Hname. subst r.
  destruct (download_gtfs_file_stores_the_chunks _ _ _ _ _ Hdl)
    as (resp & Hresp & _ & _ & _ & Hread & _).
  exists w1. split; [reflexivity|].
  rewrite (Hread "notes.txt" eq_refl). injection Hresp as <-. reflexivity.
Defined.

(** X2: an answer with a status from 400 to 599 makes [download_gtfs_file]
    raise before the local file is opened: the local files, a file under
    the default name included, are as they were. *)
Theorem download_gtfs_file_error_status_keeps_files
    (url d : string) (w : World) (resp : Response) :
  http w url = Ret resp →
  (400 ≤ status_code resp < 600)%Z →
  ∃ w1, download_gtfs_file url d w = (Raise (RequestException "HTTPError"), w1) ∧
        files w1 = files w ∧ objects w1 = objects w.
Proof.
  intros Hresp Hst. rewrite download_gtfs_file_eq, Hresp. cbv zeta.
  assert (((400 <=? status_code resp)%Z && (status_code resp <? 600)%Z) = true)
    as -> by (apply andb_true_intro; split; lia).
  by eexists.
Qed.

Lemma download_gtfs_file_error_status_keeps_files_witness :
  ∃ w1, download_gtfs_file "https://example.org/gtfs" "GTFS_Carris.zip" Cases.not_found
        = (Raise (RequestException "HTTPError"), w1) ∧
        files w1 !! "GTFS_Carris.zip" = Some [x01]%byte.
Proof.
  destruct (download_gtfs_file_error_status_keeps_files
              "https://example.org/gtfs" "GTFS_Carris.zip" Cases.not_found
              {| status_code := 404; content_disposition := None;
                 chunks := []; broken := None |} eq_refl)
    as (w1 & Hdl & Hfiles & _); [simpl; lia|].
  exists w1. split; [exact Hdl|]. rewrite Hfiles. reflexivity.
Defined.

(** *** The name taken from the header *)

Lemma take_nonquote_free (g : string) :
  Py.contains (String Py.dquote "") (Py.take_nonquote g) = false.
Proof.
  induction g as [|a g IH]; [done|]. cbn [Py.take_nonquote].
  destruct (Ascii.eqb_spec a Py.dquote) as [->|Hne]; [done|].
  cbn [Py.contains Py.strip_prefix].
  destruct (Ascii.eqb_spec Py.dquote a) as [<-|_]; [done|]. exact IH.
Qed.

Lemma filename_group_spec (rest g : string) :
  Py.filename_group rest = Some g →
  g ≠ "" ∧ Py.contains (String Py.dquote "") g = false.
Proof.
  unfold Py.filename_group.
  set (body := match rest with "" => rest | String a r => _ end).
  pose proof (take_nonquote_free body) as Hfree.
  destruct (Py.take_nonquote body); [done|]. by intros [= <-].
Qed.

Lemma findall_filename_first_spec (s g : string) :
  Py.findall_filename_first s = Some g →
  g ≠ "" ∧ Py.contains (String Py.dquote "") g = false ∧
  Py.contains "filename=" s = true.
Proof.
  induction s as [|a s IH].
  - cbn. done.
  - cbn [Py.findall_filename_first Py.contains].
    destruct (Py.strip_prefix "filename=" (String a s)) as [rest|].
    + destruct (Py.filename_group rest) as [g'|] eqn:Hg.
      * intros [= <-]. by destruct (filename_group_spec _ _ Hg).
      * intros H. by destruct (IH H) as (? & ? & _).
    + exact IH.
Qed.

(** X3: the test for [filename=] in the header never changes the name
    chosen: the local name is the group of the first match of the
    expression in the Content-Disposition header when there is a match,
    and the default name otherwise; a name taken from the header is never
    empty and never contains a double quote. *)
Theorem choose_filename_default_or_header (r : Response) (d : string) :
  choose_filename r d
  = default d (content_disposition r ≫= Py.findall_filename_first) ∧
  (choose_filename r d = d ∨
   ∃ cd, content_disposition r = Some cd ∧
         Py.findall_filename_first cd = Some (choose_filename r d) ∧
         choose_filename r d ≠ "" ∧
         Py.contains (String Py.dquote "") (choose_filename r d) = false).
Proof.
  unfold choose_filename. destruct (content_disposition r) as [cd|]; [|by split; [|left]].
  cbn [mbind option_bind].
  destruct (Py.findall_filename_first cd) as [g|] eqn:Hg.
  - destruct (findall_filename_first_spec _ _ Hg) as (? & ? & ->).
    split; [done|]. right. by exists cd.
  - destruct (Py.contains "filename=" cd); by split; [|left].
Qed.

(** The literal [filename=] does not overlap with itself: a position
    inside a text without it cannot start a match that runs into a
    following [filename=]. *)
Lemma strip_prefix_filename_extend (s rest : string) :
  s ≠ "" →
  Py.strip_prefix "filename=" s = None →
  Py.strip_prefix "filename=" (s +:+ "filename=" +:+ rest) = None.
Proof.
  intros Hs H.
  change ("filename=" +:+ rest) with (String "f" ("ilename=" +:+ rest)).
  destruct s as [|c0 [|c1 [|c2 [|c3 [|c4 [|c5 [|c6 [|c7 [|c8 s]]]]]]]]];
    [done|..];
    rewrite ?string_app_cons, ?string_app_nil;
    cbn [Py.strip_prefix] in *;
    repeat match goal with
           | |- context [Ascii.eqb ?a ?b] =>
               destruct (Ascii.eqb a b) eqn:?; try done
           | H : context [Ascii.eqb ?a ?b] |- _ =>
               destruct (Ascii.eqb a b) eqn:?; try done
           end.
Qed.

Lemma findall_filename_skip (p t : string) :
  Py.contains "filename=" p = false →
  Py.findall_filename_first (p +:+ "filename=" +:+ t)
  = Py.findall_filename_first ("filename=" +:+ t).
Proof.
  induction p as [|a p IH]; intros Hp; [done|].
  cbn [Py.contains] in Hp.
  destruct (Py.strip_prefix "filename=" (String a p)) eqn:Hsp; [done|].
  rewrite <- IH by (by destruct p). clear IH.
  pose proof (strip_prefix_filename_extend (String a p) t ltac:(done) Hsp) as Hext.
  rewrite string_app_cons in *.
  cbn [Py.findall_filename_first]. by rewrite Hext.
Qed.

Lemma take_nonquote_id (name tail : string) :
  Py.contains (String Py.dquote "") name = false →
  (tail = "" ∨ ∃ rest, tail = String Py.dquote rest) →
  Py.take_nonquote (name +:+ tail) = name.
Proof.
  induction name as [|a name IH]; intros Hfree Htail.
  - rewrite string_app_nil. by destruct Htail as [->|[rest ->]].
  - rewrite string_app_cons. cbn [Py.take_nonquote].
    cbn [Py.contains Py.strip_prefix] in Hfree.
    destruct (Ascii.eqb_spec Py.dquote a) as [<-|Hne]; [done|].
    destruct (Ascii.eqb_spec a Py.dquote) as [->|_]; [done|].
    by rewrite IH.
Qed.

(** X4: in a header whose text before the first [filename=] does not
    contain [filename=], a name between double quotes is taken as it is,
    and a name without quotes runs to the end of the header (or to the
    next double quote), parameters after a semicolon included. *)
Theorem findall_filename_quoted_and_bare (p name rest : string) :
  Py.contains "filename=" p = false →
  name ≠ "" →
  Py.contains (String Py.dquote "") name = false →
  Py.findall_filename_first
    (p +:+ "filename=" +:+ String Py.dquote (name +:+ String Py.dquote rest))
  = Some name ∧
  Py.findall_filename_first (p +:+ "filename=" +:+ name) = Some name.
Proof.
  intros Hp Hne Hfree.
  assert (∀ t, Py.filename_group t = Some name →
               Py.findall_filename_first ("filename=" +:+ t) = Some name) as Hhere.
  { intros t Ht.
    change ("filename=" +:+ t) with (String "f" ("ilename=" +:+ t)).
    cbn [Py.findall_filename_first].
    change (Py.strip_prefix "filename=" (String "f" ("ilename=" +:+ t)))
      with (Some t). cbv beta iota zeta. by rewrite Ht. }
  split; rewrite findall_filename_skip by done; apply Hhere.
  - unfold Py.filename_group. rewrite Ascii.eqb_refl.
    rewrite take_nonquote_id by eauto. by destruct name.
  - unfold Py.filename_group.
    destruct name as [|a name]; [done|].
    pose proof Hfree as Hfree'.
    cbn [Py.contains Py.strip_prefix] in Hfree.
    destruct (Ascii.eqb_spec Py.dquote a) as [<-|Hq]; [done|].
    destruct (Ascii.eqb_spec a Py.dquote) as [->|_]; [done|].
    rewrite <- (string_app_nil_r (String a name)) at 1.
    rewrite take_nonquote_id; [done|exact Hfree'|by left].
Qed.

Lemma findall_filename_quoted_and_bare_witness :
  Py.findall_filename_first Cases.header = Some "feed.zip" ∧
  Py.findall_filename_first "attachment; filename=feed.zip; size=3"
  = Some "feed.zip; size=3".
Proof.
  split.
  - apply (findall_filename_quoted_and_bare "attachment; " "feed.zip" "");
      [reflexivity | discriminate | reflexivity].
  - apply (findall_filename_quoted_and_bare "attachment; " "feed.zip; size=3" "");
      [reflexivity | discriminate | reflexivity].
Defined.

(** ** The store functions *)

(** X5: [get_remote_hash] returns None exactly when [get_object] raised a
    ClientError with code NoSuchKey; every other exception of [get_object]
    leaves it unchanged; a body that is not valid UTF-8 raises too; and in
    no case is the bucket changed. *)
Theorem get_remote_hash_none_only_on_no_such_key
    (c : Client) (b k : string) (w : World) :
  (fst (get_remote_hash c b k w) = Ret None ↔
   fst (get_object c b k w) = Raise (ClientError "NoSuchKey")) ∧
  (∀ e, fst (get_object c b k w) = Raise e → e ≠ ClientError "NoSuchKey" →
        fst (get_remote_hash c b k w) = Raise e) ∧
  (∀ body, fst (get_object c b k w) = Ret body → Py.decode_utf8 body = None →
        fst (get_remote_hash c b k w)
        = Raise (OtherException "UnicodeDecodeError")) ∧
  objects (snd (get_remote_hash c b k w)) = objects w.
Proof.
  destruct (get_remote_hash_world c b k w) as [o Hw]. rewrite Hw. clear Hw.
  unfold get_remote_hash.
  destruct (get_object c b k w) as [[body|[code| |]] w1]; cbn [fst].
  - destruct (Py.decode_utf8 body) eqn:Hd; cbn [fst];
      repeat split; intros; congruence.
  - destruct (String.eqb_spec code "NoSuchKey") as [->|Hne]; cbn [fst];
      repeat split; intros; congruence.
  - repeat split; intros; congruence.
  - repeat split; intros; congruence.
Qed.

(** X6: the hash that [save_hash_to_s3] stored is the hash that
    [get_remote_hash] reads back, for the digest of any bytes. *)
Theorem save_hash_to_s3_then_get_remote_hash
    (c : Client) (b k : string) (data : list byte) (w w1 : World) :
  save_hash_to_s3 c b k (digest data) w = (Ret true, w1) →
  s3_fault w (GetObject b k) = None →
  fst (get_remote_hash c b k w1) = Ret (Some (digest data)).
Proof.
  rewrite save_hash_to_s3_eq. cbv zeta.
  destruct (s3_fault w (PutObject _ _ _ _)); [done|]. intros [= <-] Hget.
  rewrite get_remote_hash_eq by exact Hget.
  cbn [objects record set_objects]. rewrite lookup_insert_eq.
  rewrite digest_sha256. unfold SHA256.hexdigest_of.
  by rewrite decode_encode_hex, strip_hex.
Qed.

Lemma save_hash_to_s3_then_get_remote_hash_witness :
  ∃ w1, save_hash_to_s3 Scenario.client "bucket" "gtfs/hash.txt" (digest []) Scenario.fresh
        = (Ret true, w1) ∧
        fst (get_remote_hash Scenario.client "bucket" "gtfs/hash.txt" w1)
        = Ret (Some (digest [])).
Proof.
  eexists. split; [by rewrite save_hash_to_s3_eq|].
  apply (save_hash_to_s3_then_get_remote_hash Scenario.client "bucket"
           "gtfs/hash.txt" [] Scenario.fresh);
    [by rewrite save_hash_to_s3_eq | reflexivity].
Defined.

(** X7: after [upload_to_s3] has returned, the key holds the bytes of the
    local file, every other object is as before, the existence check of the
    key says True, and the allocator asked for that key does not return
    it. *)
Theorem upload_to_s3_then_key_is_taken
    (c : Client) (b p k : string) (w w1 : World) :
  upload_to_s3 c b p k w = (Ret true, w1) →
  s3_fault w (HeadObject b k) = None →
  is_Some (files w !! realpath w p) ∧
  objects w1 !! (b, k) = files w !! realpath w p ∧
  (∀ key, key ≠ (b, k) → objects w1 !! key = objects w !! key) ∧
  probe c b k w1 = Ret true ∧
  ∀ fuel w2, generate_unique_s3_key fuel c b k w1 ≠ Some (Ret k, w2).
Proof.
  rewrite upload_to_s3_eq. destruct (s3_fault w (UploadFile p b k)); [done|].
  destruct (files w !! realpath w p) as [data|] eqn:Hdata; [|done].
  intros [= <-] Hhead.
  assert (probe c b k (record (UploadFile p b k) None
                         (set_objects (<[(b, k):=data]> (objects w)) w)) = Ret true)
    as Hprobe.
  { apply probe_true. split; [exact Hhead|]. cbn [objects record set_objects].
    rewrite lookup_insert_eq. by eexists. }
  split; [by eexists|]. split.
  { cbn [objects record set_objects]. by rewrite lookup_insert_eq. }
  split.
  { intros key Hne. cbn [objects record set_objects]. by rewrite lookup_insert_ne. }
  split; [exact Hprobe|].
  intros fuel w2 Hgen. apply generate_unique_s3_key_spec in Hgen as (_ & _ & Hk).
  destruct (Hk k eq_refl) as [Hfree _]. congruence.
Qed.

Lemma upload_to_s3_then_key_is_taken_witness :
  ∃ w1, upload_to_s3 Scenario.client "bucket" "GTFS_Carris.zip" "gtfs/GTFS_Carris.zip"
          Cases.downloaded = (Ret true, w1) ∧
        probe Scenario.client "bucket" "gtfs/GTFS_Carris.zip" w1 = Ret true.
Proof.
  eexists. split; [by rewrite upload_to_s3_eq|].
  apply (upload_to_s3_then_key_is_taken Scenario.client "bucket" "GTFS_Carris.zip"
           "gtfs/GTFS_Carris.zip" Cases.downloaded);
    [by rewrite upload_to_s3_eq | reflexivity].
Defined.

Lemma truthy_true (s : string) : Py.truthy s = true ↔ s ≠ "".
Proof.
  unfold Py.truthy. destruct (String.eqb_spec s ""); simpl; naive_solver.
Qed.

(** X8: the client that [get_s3_client] asks for has the configured
    region; it has an endpoint exactly when one is configured; it has
    explicit credentials exactly when both the access key and the secret
    are set (one of them alone is dropped); and, in a configuration that
    [main] accepts, a client with an endpoint always has credentials. *)
Theorem get_s3_client_parameters (w w1 : World) (c : Client) :
  get_s3_client w = (Ret c, w1) →
  service_name c = "s3" ∧ region_name c = S3_REGION w ∧
  (endpoint_url c = None ↔ S3_ENDPOINT_URL w = "") ∧
  (∀ u, endpoint_url c = Some u → u = S3_ENDPOINT_URL w) ∧
  (credentials c = None ↔
   S3_ACCESS_KEY_ID w = "" ∨ S3_SECRET_ACCESS_KEY w = "") ∧
  (∀ ak sk, credentials c = Some (ak, sk) →
     ak = S3_ACCESS_KEY_ID w ∧ sk = S3_SECRET_ACCESS_KEY w) ∧
  (config_ok w = true → endpoint_url c ≠ None → credentials c ≠ None).
Proof.
  intros Hc. destruct (get_s3_client_world w) as (o & _ & Hcp).
  rewrite Hc in Hcp. rewrite (Hcp c eq_refl). clear Hc Hcp.
  unfold config_ok, config_params. cbn [service_name region_name endpoint_url credentials].
  pose proof (truthy_false (S3_ENDPOINT_URL w)) as He.
  pose proof (truthy_false (S3_ACCESS_KEY_ID w)) as Ha.
  pose proof (truthy_false (S3_SECRET_ACCESS_KEY w)) as Hs.
  destruct (Py.truthy (S3_ENDPOINT_URL w)), (Py.truthy (S3_ACCESS_KEY_ID w)),
    (Py.truthy (S3_SECRET_ACCESS_KEY w)), (Py.truthy (S3_BUCKET_NAME w)),
    (Py.truthy (GTFS_URL w)); cbn [andb negb];
    repeat split; try done; try naive_solver.
Qed.

Lemma get_s3_client_parameters_witness :
  ∃ c w1, get_s3_client Cases.custom_endpoint = (Ret c, w1) ∧
    endpoint_url c = Some "https://s3.fr-par.scw.cloud" ∧
    credentials c = Some ("SCWKEY", "secret").
Proof.
  destruct (get_s3_client Cases.custom_endpoint) as [[c|e] w1] eqn:Hc;
    [|vm_compute in Hc; discriminate].
  destruct (get_s3_client_parameters _ _ _ Hc)
    as (_ & _ & Hnone & Hurl & Hcnone & Hcred & _).
  exists c, w1. split; [reflexivity|]. split.
  - destruct (endpoint_url c) as [u|].
    + by rewrite (Hurl u eq_refl).
    + by destruct Hnone as [Hn _]; specialize (Hn eq_refl).
  - destruct (credentials c) as [[ak sk]|].
    + by destruct (Hcred ak sk eq_refl) as [-> ->].
    + by destruct Hcnone as [Hn _]; destruct (Hn eq_refl).
Defined.

(** ** cleanup_local_file *)

Lemma cleanup_local_file_missing (p : string) (w : World) :
  files w !! realpath w p = None → cleanup_local_file p w = w.
Proof.
  intros Hnone. unfold cleanup_local_file, os_path_exists.
  rewrite bool_decide_eq_false_2; [done|]. rewrite Hnone. by intros [? ?].
Qed.

(** X9: [cleanup_local_file] changes nothing but the file that its path
    names: every other file, the bucket and the trace are as before, and a
    path names the file it named; when the path names no file nothing
    changes at all; when [os.remove] does not fail the file is gone, and
    [os.path.exists] says so for every path that names it, while for a
    path that names another file it answers as before; and cleaning twice
    is cleaning once. *)
Theorem cleanup_local_file_effect (p : string) (w : World) :
  (∀ f, f ≠ realpath w p → files (cleanup_local_file p w) !! f = files w !! f) ∧
  realpath (cleanup_local_file p w) = realpath w ∧
  objects (cleanup_local_file p w) = objects w ∧
  trace (cleanup_local_file p w) = trace w ∧
  (os_path_exists p w = false → cleanup_local_file p w = w) ∧
  (fs_fault w (Remove p) = None →
   ∀ q, realpath w q = realpath w p →
        os_path_exists q (cleanup_local_file p w) = false) ∧
  (∀ q, realpath w q ≠ realpath w p →
        os_path_exists q (cleanup_local_file p w) = os_path_exists q w) ∧
  cleanup_local_file p (cleanup_local_file p w) = cleanup_local_file p w.
Proof.
  destruct (cleanup_local_file_frame p w) as (_ & _ & _ & _ & Ho & _ & Ht).
  pose proof (cleanup_local_file_realpath p w) as Hrp.
  assert (∀ f, f ≠ realpath w p →
               files (cleanup_local_file p w) !! f = files w !! f) as Hframe.
  { intros f Hf. rewrite cleanup_local_file_files.
    destruct (fs_fault w (Remove p)); [done|]. by rewrite lookup_delete_ne. }
  split; [done|]. split; [done|]. split; [done|]. split; [done|].
  split; [|split; [|split]].
  - unfold os_path_exists. intros Hex%bool_decide_eq_false.
    apply cleanup_local_file_missing. by apply eq_None_not_Some.
  - intros Hrm q Hq. unfold os_path_exists.
    rewrite Hrp, Hq, cleanup_local_file_files, Hrm, lookup_delete_eq.
    apply bool_decide_eq_false. by intros [? ?].
  - intros q Hq. unfold os_path_exists. by rewrite Hrp, Hframe.
  - destruct (files w !! realpath w p) as [d|] eqn:Hd.
    2:{ by rewrite !(cleanup_local_file_missing p w Hd). }
    destruct (fs_fault w (Remove p)) as [e|] eqn:Hrm.
    + assert (cleanup_local_file p w = w) as Hid; [|by rewrite !Hid].
      unfold cleanup_local_file, os_remove. rewrite Hrm. by case_match.
    + apply cleanup_local_file_missing.
      rewrite Hrp, cleanup_local_file_files, Hrm. apply lookup_delete_eq.
Qed.

(** The file [notes.txt] is removed when the script cleans [./notes.txt]. *)
Lemma cleanup_local_file_effect_witness :
  os_path_exists "notes.txt" Cases.with_notes = true ∧
  os_path_exists "notes.txt" (cleanup_local_file "./notes.txt" Cases.with_notes)
  = false.
Proof.
  split; [reflexivity|].
  destruct (cleanup_local_file_effect "./notes.txt" Cases.with_notes)
    as (_ & _ & _ & _ & _ & Hgone & _).
  apply Hgone; reflexivity.
Defined.

(** ** The keys the allocator builds *)

Lemma string_app_assoc (s t u : string) : (s +:+ t) +:+ u = s +:+ t +:+ u.
Proof.
  induction s as [|a s IH]; [done|]. by rewrite !string_app_cons, IH.
Qed.

Lemma absent_cons (c a : ascii) (s : string) :
  absent c (String a s) ↔ c ≠ a ∧ absent c s.
Proof.
  unfold absent. cbn [Py.contains Py.strip_prefix].
  destruct (Ascii.eqb_spec c a); naive_solver.
Qed.

Lemma absent_app (c : ascii) (s t : string) :
  absent c (s +:+ t) ↔ absent c s ∧ absent c t.
Proof.
  induction s as [|a s IH].
  - rewrite string_app_nil. unfold absent at 2. naive_solver.
  - rewrite string_app_cons, !absent_cons, IH. naive_solver.
Qed.

Lemma rsplit_last_absent (sep : ascii) (s : string) :
  absent sep s → Py.rsplit_last sep s = None.
Proof.
  induction s as [|a s IH]; [done|]. intros [Hne Hs]%absent_cons.
  cbn [Py.rsplit_last]. rewrite (IH Hs).
  destruct (Ascii.eqb_spec a sep); [congruence | done].
Qed.

Lemma rsplit_last_app (sep : ascii) (p q : string) :
  absent sep q → Py.rsplit_last sep (p +:+ String sep q) = Some (p, q).
Proof.
  intros Hq. induction p as [|a p IH].
  - rewrite string_app_nil. cbn [Py.rsplit_last].
    by rewrite (rsplit_last_absent _ _ Hq), Ascii.eqb_refl.
  - rewrite string_app_cons. cbn [Py.rsplit_last]. by rewrite IH.
Qed.

(** The part before the last separator begins with what was before any
    separator. *)
Lemma rsplit_last_keeps_head (sep : ascii) (d t : string) :
  ∃ p q, Py.rsplit_last sep (d +:+ String sep t) = Some (p, q) ∧
         (p = d ∨ ∃ p', p = d +:+ String sep p').
Proof.
  induction d as [|a d IH].
  - rewrite string_app_nil. cbn [Py.rsplit_last].
    destruct (Py.rsplit_last sep t) as [[p q]|].
    + exists (String sep p), q. split; [done|]. right. by exists p.
    + rewrite Ascii.eqb_refl. exists "", t. split; [done|]. by left.
  - destruct IH as (p & q & Hpq & Hp). rewrite string_app_cons.
    cbn [Py.rsplit_last]. rewrite Hpq. exists (String a p), q. split; [done|].
    destruct Hp as [->|[p' ->]]; [by left|]. right. by exists p'.
Qed.

(** X10: for a key made of a directory, a slash, a stem, a dot and an
    extension, the time-stamped key and the counted keys keep the
    directory and the extension and put the suffix right before the last
    dot; without a dot in the file name the suffix goes to the end. *)
Theorem stamped_key_shape (dir stem ext file ts : string) (n : nat) :
  dir ≠ "" →
  absent "/" stem → absent "/" ext → absent "." ext →
  absent "/" file → absent "." file →
  stamped_key (dir +:+ "/" +:+ stem +:+ "." +:+ ext) ts
  = dir +:+ "/" +:+ stem +:+ "_" +:+ ts +:+ "." +:+ ext ∧
  counted_key (dir +:+ "/" +:+ stem +:+ "." +:+ ext) ts n
  = dir +:+ "/" +:+ stem +:+ "_" +:+ ts +:+ "_" +:+ pretty n +:+ "." +:+ ext ∧
  stamped_key (dir +:+ "/" +:+ file) ts = dir +:+ "/" +:+ file +:+ "_" +:+ ts ∧
  counted_key (dir +:+ "/" +:+ file) ts n
  = dir +:+ "/" +:+ file +:+ "_" +:+ ts +:+ "_" +:+ pretty n.
Proof.
  intros Hdir Hstem Hext Hdot Hfile Hfdot.
  assert (Py.truthy dir = true) as Htruthy by (by apply truthy_true).
  assert (absent "/" (stem +:+ "." +:+ ext)) as Hname.
  { apply absent_app. split; [done|]. by apply absent_cons. }
  assert (split_key (dir +:+ "/" +:+ stem +:+ "." +:+ ext)
          = (dir, stem +:+ "." +:+ ext)) as Hsplit1.
  { unfold split_key, Py.rsplit.
    change ("/" +:+ stem +:+ "." +:+ ext) with (String "/" (stem +:+ "." +:+ ext)).
    by rewrite rsplit_last_app. }
  assert (split_key (dir +:+ "/" +:+ file) = (dir, file)) as Hsplit2.
  { unfold split_key, Py.rsplit.
    change ("/" +:+ file) with (String "/" file). by rewrite rsplit_last_app. }
  assert (Py.rsplit "." (stem +:+ "." +:+ ext) = [stem; ext]) as Hparts1.
  { unfold Py.rsplit. change ("." +:+ ext) with (String "." ext).
    by rewrite rsplit_last_app. }
  assert (Py.rsplit "." file = [file]) as Hparts2.
  { unfold Py.rsplit. by rewrite rsplit_last_absent. }
  unfold stamped_key, counted_key, join_key.
  rewrite Hsplit1, Hsplit2, Hparts1, Hparts2, Htruthy. done.
Qed.

Lemma stamped_key_shape_witness :
  stamped_key "gtfs/archive.tar.gz" "20240101_120000"
  = "gtfs/archive.tar_20240101_120000.gz" ∧
  counted_key "gtfs/v1.2/feed" "20240101_120000" 3
  = "gtfs/v1.2/feed_20240101_120000_3".
Proof.
  split.
  - apply (stamped_key_shape "gtfs" "archive.tar" "gz" "" "20240101_120000" 0);
      done.
  - apply (stamped_key_shape "gtfs/v1.2" "" "" "feed" "20240101_120000" 3); done.
Defined.

(** X11: whatever the file name is, a key the allocator returns for a
    desired key under a directory lies under that directory. *)
Theorem generate_unique_s3_key_stays_under_directory
    (fuel : nat) (c : Client) (b dir name k : string) (w w' : World) :
  dir ≠ "" →
  generate_unique_s3_key fuel c b (dir +:+ "/" +:+ name) w = Some (Ret k, w') →
  ∃ rest, k = dir +:+ "/" +:+ rest.
Proof.
  intros Hdir Hgen.
  assert (∀ nf x, join_key (dir +:+ x) nf = dir +:+ x +:+ "/" +:+ nf) as Hjoin.
  { intros nf x. unfold join_key.
    assert (Py.truthy (dir +:+ x) = true) as ->; [|by rewrite string_app_assoc].
    apply truthy_true. by destruct dir. }
  assert (∀ f, ∃ rest,
            (let '(prefix, filename) := split_key (dir +:+ "/" +:+ name) in
             join_key prefix (f filename)) = dir +:+ "/" +:+ rest) as Hshape.
  { intros f. unfold split_key, Py.rsplit.
    change ("/" +:+ name) with (String "/" name).
    destruct (rsplit_last_keeps_head "/" dir name) as (p & q & -> & Hp).
    cbv beta iota. destruct Hp as [->|[p' ->]].
    - pose proof (Hjoin (f q) "") as Hj. rewrite !string_app_nil_r in Hj.
      rewrite Hj. by eexists.
    - rewrite Hjoin. change (String "/" p' +:+ "/" +:+ f q)
        with ("/" +:+ p' +:+ "/" +:+ f q). by eexists. }
  apply generate_unique_s3_key_spec in Hgen as (_ & _ & Hk).
  destruct (Hk k eq_refl) as (_ & [->|(_ & [->|(_ & m & _ & -> & _)])]).
  - by eexists.
  - apply (Hshape (λ filename, match Py.rsplit "." filename with
                               | [stem; ext] => _ | _ => _ end)).
  - apply (Hshape (λ filename, match Py.rsplit "." filename with
                               | [stem; ext] => _ | _ => _ end)).
Qed.

Lemma generate_unique_s3_key_stays_under_directory_witness :
  ∃ rest w', generate_unique_s3_key 2 Scenario.client "bucket"
               (S3_PREFIX +:+ "GTFS_Carris.zip") Scenario.taken
             = Some (Ret (S3_PREFIX +:+ rest), w').
Proof.
  assert (is_Some (generate_unique_s3_key 2 Scenario.client "bucket"
                     (S3_PREFIX +:+ "GTFS_Carris.zip") Scenario.taken
                   ≫= λ o, match o.1 with Ret k => Some k | Raise _ => None end))
    as [k0 Hk0] by (vm_compute; eauto).
  destruct (generate_unique_s3_key 2 Scenario.client "bucket"
              (S3_PREFIX +:+ "GTFS_Carris.zip") Scenario.taken)
    as [[[k|e] w']|] eqn:Hgen; [|discriminate Hk0..].
  destruct (generate_unique_s3_key_stays_under_directory 2 Scenario.client "bucket"
              "gtfs" "GTFS_Carris.zip" k Scenario.taken w' ltac:(done) Hgen)
    as [rest ->].
  by exists rest, w'.
Defined.

(** *** Time stamps *)

Lemma string_app_inj_length (s1 s2 t1 t2 : string) :
  String.length s1 = String.length s2 →
  s1 +:+ t1 = s2 +:+ t2 → s1 = s2 ∧ t1 = t2.
Proof.
  revert s2. induction s1 as [|a s1 IH]; intros [|a' s2] Hlen H; try done.
  rewrite !string_app_cons in H. injection H as Ha Ht. subst a'.
  destruct (IH s2) as [-> ->]; [by injection Hlen | done | done].
Qed.

Lemma pad2_length (n : nat) : n < 100 → String.length (Py.pad2 n) = 2.
Proof.
  intros Hn.
  assert (forallb (λ i, Nat.eqb (String.length (Py.pad2 i)) 2) (seq 0 100) = true)
    as Hall by (vm_compute; reflexivity).
  rewrite forallb_forall in Hall. apply Nat.eqb_eq, Hall, in_seq. lia.
Qed.

Lemma pad2_inj (n m : nat) : n < 100 → m < 100 → Py.pad2 n = Py.pad2 m → n = m.
Proof.
  intros Hn Hm Heq.
  assert (forallb (λ i, forallb (λ j, implb (String.eqb (Py.pad2 i) (Py.pad2 j))
                                           (Nat.eqb i j))
                                 (seq 0 100)) (seq 0 100) = true)
    as Hall by (vm_compute; reflexivity).
  rewrite forallb_forall in Hall.
  specialize (Hall n ltac:(apply in_seq; lia)).
  rewrite forallb_forall in Hall.
  specialize (Hall m ltac:(apply in_seq; lia)).
  apply String.eqb_eq in Heq. rewrite Heq in Hall. by apply Nat.eqb_eq.
Qed.

Lemma strftime_inj (d1 d2 : datetime) :
  datetime_valid d1 → datetime_valid d2 → strftime d1 = strftime d2 → d1 = d2.
Proof.
  intros (Hmo1 & Hd1 & Hh1 & Hmi1 & Hs1) (Hmo2 & Hd2 & Hh2 & Hmi2 & Hs2).
  destruct d1 as [y1 mo1 dd1 h1 mi1 s1], d2 as [y2 mo2 dd2 h2 mi2 s2].
  unfold strftime. cbn [year month day hour minute second] in *. intros H.
  assert (∀ n, n < 100 → String.length (Py.pad2 n) = 2) as Hlen
    by apply pad2_length.
  assert (String.length (pretty y1) = String.length (pretty y2)) as Hy.
  { apply (f_equal String.length) in H. rewrite !string_length_app in H.
    rewrite !Hlen in H by lia. lia. }
  apply string_app_inj_length in H as [Hyear H]; [|done].
  apply string_app_inj_length in H as [Hmonth H]; [|rewrite !Hlen by lia; done].
  apply string_app_inj_length in H as [Hday H]; [|rewrite !Hlen by lia; done].
  apply string_app_inj_length in H as [_ H]; [|done].
  apply string_app_inj_length in H as [Hhour H]; [|rewrite !Hlen by lia; done].
  apply string_app_inj_length in H as [Hmin Hsec]; [|rewrite !Hlen by lia; done].
  apply (inj pretty) in Hyear.
  apply pad2_inj in Hmonth, Hday, Hhour, Hmin, Hsec; try lia. by subst.
Qed.

Lemma stamped_key_inj (key : string) : Inj (=) (=) (stamped_key key).
Proof.
  intros t1 t2. unfold stamped_key. destruct (split_key key) as [prefix filename].
  intros H%join_key_inj.
  destruct (Py.rsplit "." filename) as [|stem [|ext [|? ?]]].
  - by do 2 apply String.app_inj in H.
  - by do 2 apply String.app_inj in H.
  - do 2 apply String.app_inj in H. by apply string_app_inv_tail in H.
  - by do 2 apply String.app_inj in H.
Qed.

(** X12: for one desired key, two readings of the clock that differ, be it
    by one second, give different time-stamped keys. *)
Theorem stamped_key_distinct_for_distinct_times (key : string) (d1 d2 : datetime) :
  datetime_valid d1 → datetime_valid d2 →
  stamped_key key (strftime d1) = stamped_key key (strftime d2) → d1 = d2.
Proof.
  intros Hv1 Hv2 H. apply stamped_key_inj in H. by apply strftime_inj.
Qed.

Lemma stamped_key_distinct_for_distinct_times_witness :
  stamped_key "gtfs/GTFS_Carris.zip" (strftime (Datetime 2024 1 1 12 0 0))
  ≠ stamped_key "gtfs/GTFS_Carris.zip" (strftime (Datetime 2024 1 1 12 0 1)).
Proof.
  intros H.
  apply (stamped_key_distinct_for_distinct_times "gtfs/GTFS_Carris.zip"
           (Datetime 2024 1 1 12 0 0) (Datetime 2024 1 1 12 0 1)) in H;
    [discriminate | unfold datetime_valid; simpl; lia..].
Defined.

(** ** The run as a whole, continued *)

Lemma probe_false_absent (c : Client) (b k : string) (w : World) :
  s3_fault w (HeadObject b k) ≠ Some (ClientError "404") →
  probe c b k w = Ret false → objects w !! (b, k) = None.
Proof.
  intros Hf. unfold probe, check_s3_file_exists, head_object.
  destruct (s3_fault w (HeadObject b k)) as [[code| |]|]; cbn [fst]; try done.
  - destruct (String.eqb_spec code "404") as [->|]; done.
  - by destruct (objects w !! (b, k)).
Qed.

(** X13: provided the store reports 404 for absent keys only, a run never
    changes or removes an object that was in the bucket, the fingerprint
    object apart: the archive goes to a key that was free. *)
Theorem main_keeps_existing_objects
    (fuel : nat) (w : World) (r : run_end) (w' : World)
    (key : string * string) (v : list byte) :
  main fuel w = Some (r, w') →
  (∀ k, s3_fault w (HeadObject (S3_BUCKET_NAME w) k) ≠ Some (ClientError "404")) →
  key ≠ (S3_BUCKET_NAME w, hash_key) →
  objects w !! key = Some v → objects w' !! key = Some v.
Proof.
  intros Hmain Hhonest Hkey Hv.
  destruct (main_writes _ _ _ _ Hmain) as (new & _ & Hcases).
  destruct Hcases as [(_ & -> & _)|[(p & k & e & _ & -> & _)|
                      (p & k & data & o & _ & Hfree & Ho)]]; [done..|].
  apply probe_false_absent in Hfree; [|apply Hhonest].
  assert (key ≠ (S3_BUCKET_NAME w, k)) as Hk by congruence.
  destruct o as [e|]; destruct Ho as [_ ->].
  - by rewrite lookup_insert_ne.
  - by rewrite !lookup_insert_ne.
Qed.

(** Runs [main] on a concrete world and names the world it ends in. *)
Ltac run_main fuel w r w' Hmain :=
  let Hend := fresh "Hend" in
  assert (fst <$> main fuel w = Some r) as Hend by (vm_compute; reflexivity);
  destruct (main fuel w) as [[? w']|] eqn:Hmain; [|discriminate Hend];
  injection Hend as ->.

Lemma main_keeps_existing_objects_witness :
  ∃ w', main 2 Scenario.taken = Some (ReturnUploaded, w') ∧
        objects w' !! ("bucket", "gtfs/GTFS_Carris.zip") = Some [x00]%byte.
Proof.
  run_main 2 Scenario.taken ReturnUploaded w' Hmain.
  exists w'. split; [reflexivity|].
  apply (main_keeps_existing_objects 2 Scenario.taken ReturnUploaded w'
           ("bucket", "gtfs/GTFS_Carris.zip") [x00]%byte Hmain);
    [done | done | reflexivity].
Defined.

Lemma get_remote_hash_some (c : Client) (b k h : string) (w w1 : World) :
  get_remote_hash c b k w = (Ret (Some h), w1) →
  ∃ body text, objects w !! (b, k) = Some body ∧
               Py.decode_utf8 body = Some text ∧ Py.strip text = h.
Proof.
  unfold get_remote_hash, get_object.
  destruct (s3_fault w (GetObject b k)) as [[code| |]|]; cbn; try done.
  - by destruct (String.eqb code "NoSuchKey").
  - destruct (objects w !! (b, k)) as [body|]; cbn; [|done].
    destruct (Py.decode_utf8 body) as [text|] eqn:Hd; [|done].
    intros [= <- <-]. by exists body, text.
Qed.

(** What a normal end of the [try] block leaves in the bucket: a
    fingerprint object that reads as the digest of the local file. *)
Lemma main_after_download_normal_end (fuel : nat) (name : string) (w : World)
    (r : run_end) (w' : World) :
  main_after_download fuel name w = Some (Ret r, w') →
  exit_code r = 0%Z ∧
  ∃ data v text, files w !! realpath w name = Some data ∧
    objects w' !! (S3_BUCKET_NAME w, hash_key) = Some v ∧
    Py.decode_utf8 v = Some text ∧ Py.strip text = digest data.
Proof.
  unfold main_after_download. rewrite calculate_file_hash_eq.
  destruct (fs_fault w (OpenRead name)); [done|].
  destruct (files w !! realpath w name) as [data|]; [|done].
  destruct (get_s3_client_world w) as (o2 & Hw2 & _).
  destruct (get_s3_client w) as [[c|e] w2]; [|done]. cbn [snd] in Hw2. subst w2.
  set (w2 := record _ o2 w).
  change (S3_BUCKET_NAME w2) with (S3_BUCKET_NAME w).
  destruct (get_remote_hash_world c (S3_BUCKET_NAME w) (S3_PREFIX +:+ "hash.txt") w2)
    as (o3 & Hw3).
  destruct (get_remote_hash c (S3_BUCKET_NAME w) (S3_PREFIX +:+ "hash.txt") w2)
    as [[remote|e] w3] eqn:Hremote; [|done]. cbn [snd] in Hw3. subst w3.
  set (w3 := record _ o3 w2) in *.
  case_bool_decide as Hcmp.
  - intros [= <- <-]. split; [done|]. subst remote.
    apply get_remote_hash_some in Hremote as (body & text & Hbody & Hd & Hs).
    exists data, body, text. split; [done|]. split; [|done].
    by destruct (cleanup_local_file_frame name w3) as (_ & _ & _ & _ & -> & _).
  - unfold main_publish. change (S3_BUCKET_NAME w3) with (S3_BUCKET_NAME w).
    destruct (generate_unique_s3_key fuel c (S3_BUCKET_NAME w) (S3_PREFIX +:+ name) w3)
      as [[[k|e] w4]|] eqn:Hgen; [|done..].
    apply generate_unique_s3_key_spec in Hgen as (Hs4 & _).
    assert (S3_BUCKET_NAME w4 = S3_BUCKET_NAME w) as ->.
    { rewrite (same_state_bucket _ _ Hs4). done. }
    rewrite upload_to_s3_eq. destruct (s3_fault w4 _); [done|].
    destruct (files w4 !! _) as [data4|]; [|done].
    set (w5 := record _ None (set_objects _ w4)).
    assert (S3_BUCKET_NAME w5 = S3_BUCKET_NAME w) as ->.
    { change (S3_BUCKET_NAME w5) with (S3_BUCKET_NAME w4).
      rewrite (same_state_bucket _ _ Hs4). done. }
    rewrite save_hash_to_s3_eq. cbv zeta. destruct (s3_fault w5 _); [done|].
    intros [= <- <-]. split; [done|].
    exists data, (Py.encode_utf8 (digest data)), (digest data).
    split; [done|]. split.
    + match goal with |- objects (cleanup_local_file name ?x) !! _ = _ =>
        destruct (cleanup_local_file_frame name x) as (_ & _ & _ & _ & -> & _) end.
      cbn [objects record set_objects]. apply lookup_insert_eq.
    + rewrite digest_sha256. unfold SHA256.hexdigest_of.
      by rewrite decode_encode_hex, strip_hex.
Qed.

(** The same for [main]: the answer of the server is the one hashed. *)
Lemma main_normal_end (fuel : nat) (w : World) (r : run_end) (w' : World) :
  main fuel w = Some (r, w') → exit_code r = 0%Z →
  ∃ resp v text, http w (GTFS_URL w) = Ret resp ∧
    objects w' !! (S3_BUCKET_NAME w, hash_key) = Some v ∧
    Py.decode_utf8 v = Some text ∧
    Py.strip text = digest (mjoin (chunks resp)).
Proof.
  intros Hmain Hexit. destruct (config_ok w) eqn:Hcfg.
  2:{ rewrite main_config_error in Hmain by done. by injection Hmain as <- _. }
  rewrite main_config_ok, download_gtfs_file_eq in Hmain by done.
  destruct (http w (GTFS_URL w)) as [resp|e]; [|by injection Hmain as <- _].
  cbv zeta in Hmain.
  destruct ((400 <=? status_code resp)%Z && (status_code resp <? 600)%Z);
    [by injection Hmain as <- _|].
  destruct (fs_fault w (OpenWrite _)); [by injection Hmain as <- _|].
  destruct (broken resp); [by injection Hmain as <- _|].
  set (name := choose_filename resp LOCAL_GTFS_FILE) in *.
  set (w1 := set_files _ _) in *.
  destruct (main_after_download fuel name w1) as [[[r1|e] w2]|] eqn:Hmad;
    [| by injection Hmain as <- _ | done].
  injection Hmain as <- <-.
  apply main_after_download_normal_end in Hmad
    as (_ & data & v & text & Hdata & Hv & Hd & Hs).
  exists resp, v, text. split; [done|]. split; [exact Hv|]. split; [done|].
  unfold w1 in Hdata. cbn [files realpath set_files record] in Hdata.
  rewrite lookup_insert_eq in Hdata. by injection Hdata as <-.
Qed.

(** X14: after every run that ends with exit code 0, by the no-update
    return or after an upload, the fingerprint object in the bucket reads,
    once decoded and stripped, as the digest of the bytes the server sent
    in this run. *)
Theorem main_exit_0_fingerprint_is_digest_of_feed
    (fuel : nat) (w : World) (r : run_end) (w' : World) :
  main fuel w = Some (r, w') → exit_code r = 0%Z →
  ∃ resp v text, http w (GTFS_URL w) = Ret resp ∧
    objects w' !! (S3_BUCKET_NAME w, hash_key) = Some v ∧
    Py.decode_utf8 v = Some text ∧
    Py.strip text = SHA256.hexdigest_of (mjoin (chunks resp)).
Proof.
  intros Hmain Hexit.
  destruct (main_normal_end _ _ _ _ Hmain Hexit) as (resp & v & text & ? & ? & ? & Hs).
  exists resp, v, text. by rewrite <- digest_sha256.
Qed.

Lemma main_exit_0_fingerprint_is_digest_of_feed_witness :
  ∃ w' v text, main 1 Scenario.fresh = Some (ReturnUploaded, w') ∧
    objects w' !! ("bucket", "gtfs/hash.txt") = Some v ∧
    Py.decode_utf8 v = Some text ∧
    Py.strip text = SHA256.hexdigest_of [x50; x4b; x03; x04]%byte.
Proof.
  run_main 1 Scenario.fresh ReturnUploaded w' Hmain.
  destruct (main_exit_0_fingerprint_is_digest_of_feed 1 Scenario.fresh
              ReturnUploaded w' Hmain eq_refl)
    as (resp & v & text & Hresp & Hv & Hd & Hs).
  injection Hresp as <-.
  exists w', v, text. split; [reflexivity|]. split; [exact Hv|].
  split; [exact Hd | exact Hs].
Defined.

(** The server, the clock and the faults are the same after the [try]
    block as before. *)
Lemma main_after_download_http (fuel : nat) (name : string) (w : World)
    (r : result run_end) (w' : World) :
  main_after_download fuel name w = Some (r, w') →
  http w' = http w ∧ clock w' = clock w.
Proof.
  unfold main_after_download. rewrite calculate_file_hash_eq.
  destruct (fs_fault w (OpenRead name)); [by intros [= <- <-]|].
  destruct (files w !! realpath w name) as [data|]; [|by intros [= <- <-]].
  destruct (get_s3_client_world w) as (o2 & Hw2 & _).
  destruct (get_s3_client w) as [[c|e] w2]; cbn [snd] in Hw2; subst w2;
    [|by intros [= <- <-]].
  set (w2 := record _ o2 w).
  destruct (get_remote_hash_world c (S3_BUCKET_NAME w2) (S3_PREFIX +:+ "hash.txt") w2)
    as (o3 & Hw3).
  destruct (get_remote_hash c (S3_BUCKET_NAME w2) (S3_PREFIX +:+ "hash.txt") w2)
    as [[remote|e] w3]; cbn [snd] in Hw3; subst w3; [|by intros [= <- <-]].
  set (w3 := record _ o3 w2).
  assert (∀ x, http (cleanup_local_file name x) = http x
               ∧ clock (cleanup_local_file name x) = clock x) as Hclean.
  { intros x. by destruct (cleanup_local_file_frame name x) as (_ & -> & -> & _). }
  case_bool_decide.
  { intros [= <- <-]. by destruct (Hclean w3) as [-> ->]. }
  unfold main_publish.
  destruct (generate_unique_s3_key fuel c (S3_BUCKET_NAME w3) (S3_PREFIX +:+ name) w3)
    as [[[k|e] w4]|] eqn:Hgen; [| |done].
  2:{ intros [= <- <-].
      apply generate_unique_s3_key_spec in Hgen as ((_ & -> & -> & _) & _). done. }
  apply generate_unique_s3_key_spec in Hgen as ((_ & Hc4 & Hh4 & _) & _).
  rewrite upload_to_s3_eq. destruct (s3_fault w4 _).
  { intros [= <- <-]. cbn [http clock record]. by rewrite Hc4, Hh4. }
  destruct (files w4 !! _).
  2:{ intros [= <- <-]. cbn [http clock record]. by rewrite Hc4, Hh4. }
  rewrite save_hash_to_s3_eq. cbv zeta.
  match goal with |- context [s3_fault ?x (PutObject _ _ _ _)] =>
    destruct (s3_fault x (PutObject _ _ _ _)) end.
  { intros [= <- <-]. cbn [http clock record set_objects]. by rewrite Hc4, Hh4. }
  intros [= <- <-].
  match goal with |- context [cleanup_local_file name ?x] =>
    destruct (Hclean x) as [-> ->] end.
  cbn [http clock record set_objects]. by rewrite Hc4, Hh4.
Qed.

(** A path names the same file after a run as before. *)
Lemma main_realpath (fuel : nat) (w : World) (r : run_end) (w' : World) :
  main fuel w = Some (r, w') → realpath w' = realpath w.
Proof.
  intros Hmain. destruct (config_ok w) eqn:Hcfg.
  2:{ rewrite main_config_error in Hmain by done. by injection Hmain as <- <-. }
  rewrite main_config_ok in Hmain by done.
  pose proof (download_gtfs_file_realpath (GTFS_URL w) LOCAL_GTFS_FILE w) as Hrp1.
  destruct (download_gtfs_file _ _ w) as [[name|e] w1]; cbn [snd] in *.
  2:{ by injection Hmain as <- <-. }
  destruct (main_after_download fuel name w1) as [[r1 w2]|] eqn:Hmad; [|done].
  apply main_after_download_realpath in Hmad.
  destruct r1 as [r1|e]; injection Hmain as <- <-.
  - congruence.
  - rewrite cleanup_local_file_realpath. congruence.
Qed.

(** A run changes the local files, the bucket and the trace only. *)
Lemma main_frame (fuel : nat) (w : World) (r : run_end) (w' : World) :
  main fuel w = Some (r, w') →
  environ w' = environ w ∧ http w' = http w ∧
  fs_fault w' = fs_fault w ∧ s3_fault w' = s3_fault w.
Proof.
  intros Hmain. destruct (config_ok w) eqn:Hcfg.
  2:{ rewrite main_config_error in Hmain by done. by injection Hmain as <- <-. }
  rewrite main_config_ok in Hmain by done.
  pose proof (download_gtfs_file_frame (GTFS_URL w) LOCAL_GTFS_FILE w)
    as (Henv & Hfsf & Hs3f & _).
  assert (http (snd (download_gtfs_file (GTFS_URL w) LOCAL_GTFS_FILE w)) = http w)
    as Hhttp.
  { rewrite download_gtfs_file_eq. destruct (http w (GTFS_URL w)) as [resp|]; [|done].
    cbv zeta. destruct (_ && _); [done|]. destruct (fs_fault w _); [done|].
    by destruct (broken resp). }
  destruct (download_gtfs_file _ _ w) as [[name|e] w1]; cbn [snd] in *.
  2:{ by injection Hmain as <- <-. }
  destruct (main_after_download fuel name w1) as [[r1 w2]|] eqn:Hmad; [|done].
  pose proof (main_after_download_http _ _ _ _ _ Hmad) as [Hh2 _].
  apply main_after_download_spec in Hmad as (He2 & Hf2 & Hs2 & _).
  destruct r1 as [r1|e]; injection Hmain as <- <-.
  - repeat split; congruence.
  - destruct (cleanup_local_file_frame name w2) as (-> & _ & -> & -> & _ & -> & _).
    repeat split; congruence.
Qed.

Lemma reaches_comparison_frame (w w' : World) (resp : Response) :
  environ w' = environ w → http w' = http w →
  fs_fault w' = fs_fault w → s3_fault w' = s3_fault w →
  reaches_comparison w resp → reaches_comparison w' resp.
Proof.
  intros He Hh Hf Hs.
  unfold reaches_comparison, config_ok, config_params, GTFS_URL, S3_BUCKET_NAME,
    S3_ENDPOINT_URL, S3_ACCESS_KEY_ID, S3_SECRET_ACCESS_KEY, S3_REGION, environ_get.
  by rewrite He, Hh, Hf, Hs.
Qed.

(** X15: after a run that reached the comparison and ended with exit code
    0, a second run that gets the same answer from the server takes the
    no-update return and leaves the bucket as the first run left it. *)
Theorem main_second_run_is_skipped
    (fuel fuel' : nat) (w : World) (resp : Response) (r : run_end) (w' : World) :
  reaches_comparison w resp →
  main fuel w = Some (r, w') → exit_code r = 0%Z →
  ∃ w'', main fuel' w' = Some (ReturnSkipped, w'') ∧ objects w'' = objects w'.
Proof.
  intros Hreach Hmain Hexit.
  destruct (main_frame _ _ _ _ Hmain) as (He & Hh & Hf & Hs).
  pose proof (reaches_comparison_frame w w' resp He Hh Hf Hs Hreach) as Hreach'.
  destruct (main_normal_end _ _ _ _ Hmain Hexit)
    as (resp' & v & text & Hresp & Hv & Hd & Hstrip).
  assert (resp' = resp) as ->.
  { destruct Hreach as (_ & Hr & _). congruence. }
  assert (S3_BUCKET_NAME w' = S3_BUCKET_NAME w) as Hb.
  { unfold S3_BUCKET_NAME, environ_get. by rewrite He. }
  rewrite (main_at_comparison fuel' w' resp Hreach'), Hb, Hv, Hd.
  rewrite bool_decide_eq_true_2 by done.
  eexists. split; [done|].
  by destruct (cleanup_local_file_frame (local_name resp)
                 (world_at_comparison w' resp None))
    as (_ & _ & _ & _ & -> & _).
Qed.

Lemma main_second_run_is_skipped_witness :
  ∃ w' w'', main 1 Scenario.fresh = Some (ReturnUploaded, w') ∧
            main 0 w' = Some (ReturnSkipped, w'').
Proof.
  run_main 1 Scenario.fresh ReturnUploaded w' Hmain.
  destruct (main_second_run_is_skipped 1 0 Scenario.fresh Scenario.response
              ReturnUploaded w' (scenario_reaches_comparison ∅) Hmain eq_refl)
    as (w'' & Hsecond & _).
  exists w', w''. split; [reflexivity | exact Hsecond].
Defined.

(** X16: when the fingerprint object is not valid UTF-8 the run fails: it
    ends with [sys.exit(1)] right after reading the object, nothing is
    written to the bucket and the archive is not uploaded. *)
Theorem main_fails_on_undecodable_fingerprint
    (fuel : nat) (w : World) (resp : Response) (v : list byte) :
  reaches_comparison w resp →
  objects w !! (S3_BUCKET_NAME w, hash_key) = Some v →
  Py.decode_utf8 v = None →
  ∃ w', main fuel w = Some (SysExit 1, w') ∧
    objects w' = objects w ∧
    trace w' = trace w ++ [(HttpGet (GTFS_URL w), None);
                           (CreateClient (config_params w), None);
                           (GetObject (S3_BUCKET_NAME w) hash_key, None)].
Proof.
  intros Hreach Hv Hd. rewrite (main_at_comparison fuel w resp Hreach), Hv, Hd.
  eexists. split; [done|].
  destruct (cleanup_local_file_frame (local_name resp)
              (world_at_comparison w resp None))
    as (_ & _ & _ & _ & -> & _ & ->).
  split; [done|]. cbn [trace world_at_comparison record set_files].
  by rewrite <- !app_assoc.
Qed.

Lemma main_fails_on_undecodable_fingerprint_witness :
  ∃ w', main 0 Cases.corrupt = Some (SysExit 1, w') ∧
        objects w' = objects Cases.corrupt.
Proof.
  destruct (main_fails_on_undecodable_fingerprint 0 Cases.corrupt Scenario.response
              [xff; xfe]%byte (scenario_reaches_comparison _) eq_refl eq_refl)
    as (w' & Hmain & Hobj & _).
  exists w'. split; [exact Hmain | exact Hobj].
Defined.

(** X17: a run touches no local file but the one that the name of the
    download names: every other file has, after the run, the content it had
    before, on every path of the run, and a path names after the run the
    file it named before. *)
Theorem main_touches_no_other_file
    (fuel : nat) (w : World) (r : run_end) (w' : World) (f : string) :
  main fuel w = Some (r, w') →
  (∀ resp, http w (GTFS_URL w) = Ret resp → f ≠ realpath w (local_name resp)) →
  files w' !! f = files w !! f ∧ realpath w' = realpath w.
Proof.
  intros Hmain Hf. split; [|by eapply main_realpath].
  destruct (config_ok w) eqn:Hcfg.
  2:{ rewrite main_config_error in Hmain by done. by injection Hmain as <- <-. }
  rewrite main_config_ok, download_gtfs_file_eq in Hmain by done.
  destruct (http w (GTFS_URL w)) as [resp|e]; [|by injection Hmain as <- <-].
  specialize (Hf resp eq_refl). cbv zeta in Hmain.
  destruct ((400 <=? status_code resp)%Z && (status_code resp <? 600)%Z);
    [by injection Hmain as <- <-|].
  fold (local_name resp) in Hmain.
  destruct (fs_fault w (OpenWrite _)); [by injection Hmain as <- <-|].
  assert (∀ x, realpath x = realpath w → files x !! f = files w !! f →
               files (cleanup_local_file (local_name resp) x) !! f = files w !! f)
    as Hclean.
  { intros x Hrp Hx. rewrite cleanup_local_file_files, Hrp.
    destruct (fs_fault x _); [done|]. by rewrite lookup_delete_ne. }
  set (w1 := set_files _ _) in *.
  assert (files w1 !! f = files w !! f) as H1.
  { unfold w1. cbn [files set_files]. by rewrite lookup_insert_ne. }
  destruct (broken resp); [by injection Hmain as <- <-|].
  destruct (main_after_download fuel (local_name resp) w1) as [[r1 w2]|] eqn:Hmad;
    [|done].
  pose proof (main_after_download_realpath _ _ _ _ _ Hmad) as Hrp.
  apply main_after_download_spec in Hmad as (_ & _ & _ & Hfiles & _).
  destruct r1 as [r1|e]; injection Hmain as <- <-.
  - rewrite Hfiles. by apply Hclean.
  - apply Hclean; [done|]. by rewrite Hfiles.
Qed.

Lemma main_touches_no_other_file_witness :
  ∃ w', main 1 Cases.with_notes = Some (ReturnUploaded, w') ∧
        fst (open_rb "./notes.txt" w') = Ret [x01]%byte.
Proof.
  run_main 1 Cases.with_notes ReturnUploaded w' Hmain.
  exists w'. split; [reflexivity|].
  destruct (main_touches_no_other_file 1 _ ReturnUploaded w' "notes.txt" Hmain)
    as [Hfile Hrp].
  { intros resp [= <-]. discriminate. }
  pose proof (main_frame _ _ _ _ Hmain) as (_ & _ & Hfsf & _).
  unfold open_rb. rewrite Hfsf, Hrp.
  change (realpath Cases.with_notes "./notes.txt") with "notes.txt".
  rewrite Hfile. reflexivity.
Defined.

(** When the server names the archive [./notes.txt], the file [notes.txt]
    is the one written, uploaded and removed. *)
Example main_removes_the_file_the_server_names :
  os_path_exists "notes.txt" Cases.named_like_notes = true ∧
  ∃ w', main 1 Cases.named_like_notes = Some (ReturnUploaded, w') ∧
        os_path_exists "notes.txt" w' = false ∧
        objects w' !! ("bucket", "gtfs/./notes.txt")
        = Some [x50; x4b; x03; x04]%byte.
Proof.
  split; [reflexivity|].
  assert ((λ o, (o.1, os_path_exists "notes.txt" o.2,
                 objects o.2 !! ("bucket", "gtfs/./notes.txt")))
            <$> main 1 Cases.named_like_notes
          = Some (ReturnUploaded, false, Some [x50; x4b; x03; x04]%byte)) as Hrun
    by (vm_compute; reflexivity).
  destruct (main 1 Cases.named_like_notes) as [[r w']|]; [|discriminate Hrun].
  cbn [fmap option_fmap option_map fst snd] in Hrun.
  injection Hrun as -> Hex Hobj. by exists w'.
Qed.

(** X18: when [main] ends after an upload, the write calls of the run are
    the upload of the local file under a key found free and the write of
    the hash, both successful; the bucket is the old one with the bytes the
    server sent under that key and their digest under the fingerprint key;
    so, unless the key is the fingerprint key itself, the archive can be
    read back from the bucket. *)
Theorem main_uploaded_archive_is_stored (fuel : nat) (w w' : World) :
  main fuel w = Some (ReturnUploaded, w') →
  ∃ resp k new, http w (GTFS_URL w) = Ret resp ∧
    probe (config_params w) (S3_BUCKET_NAME w) k w = Ret false ∧
    trace w' = trace w ++ new ∧
    writes new
    = [(UploadFile (local_name resp) (S3_BUCKET_NAME w) k, None);
       (PutObject (S3_BUCKET_NAME w) hash_key
          (Py.encode_utf8 (digest (mjoin (chunks resp)))) "text/plain", None)] ∧
    objects w'
    = <[(S3_BUCKET_NAME w, hash_key) := Py.encode_utf8 (digest (mjoin (chunks resp)))]>
        (<[(S3_BUCKET_NAME w, k) := mjoin (chunks resp)]> (objects w)) ∧
    (k ≠ hash_key → objects w' !! (S3_BUCKET_NAME w, k) = Some (mjoin (chunks resp))).
Proof.
  intros Hmain. destruct (config_ok w) eqn:Hcfg.
  2:{ by rewrite main_config_error in Hmain by done. }
  rewrite main_config_ok, download_gtfs_file_eq in Hmain by done.
  destruct (http w (GTFS_URL w)) as [resp|e]; [|done]. cbv zeta in Hmain.
  destruct ((400 <=? status_code resp)%Z && (status_code resp <? 600)%Z); [done|].
  fold (local_name resp) in Hmain.
  destruct (fs_fault w (OpenWrite _)); [done|].
  destruct (broken resp); [done|].
  set (w1 := set_files _ _) in *.
  destruct (main_after_download fuel (local_name resp) w1) as [[[r1|e] w2]|] eqn:Hmad;
    [|done..].
  injection Hmain as -> ->.
  apply main_after_download_spec in Hmad as (_ & _ & _ & _ & new & Htr & Hcases).
  change (S3_BUCKET_NAME w1) with (S3_BUCKET_NAME w) in Hcases.
  change (config_params w1) with (config_params w) in Hcases.
  change (objects w1) with (objects w) in Hcases.
  destruct Hcases as [(_ & _ & Hr)|[(k & e & _ & _ & Hr)|
                      (k & data & o & Hw & Hdata & Hfree & Ho)]]; [done..|].
  destruct o as [e|]; destruct Ho as [Hr Hobj]; [done|].
  unfold w1 in Hdata. cbn [files realpath set_files record] in Hdata.
  rewrite lookup_insert_eq in Hdata. injection Hdata as <-.
  exists resp, k, ((HttpGet (GTFS_URL w), None) :: new).
  split; [done|]. split.
  { rewrite <- Hfree. symmetry. by apply probe_ext. }
  split. { rewrite Htr. unfold w1. cbn [trace set_files record].
           by rewrite <- app_assoc. }
  split; [exact Hw|]. split; [exact Hobj|].
  intros Hk. rewrite Hobj, lookup_insert_ne by congruence. apply lookup_insert_eq.
Qed.

Lemma main_uploaded_archive_is_stored_witness :
  ∃ w', main 2 Scenario.taken = Some (ReturnUploaded, w') ∧
        objects w' !! ("bucket", "gtfs/GTFS_Carris_20240101_120000.zip")
        = Some [x50; x4b; x03; x04]%byte.
Proof.
  assert ((λ o, writes (trace o.2)) <$> main 2 Scenario.taken
          = Some [(UploadFile "GTFS_Carris.zip" "bucket"
                     "gtfs/GTFS_Carris_20240101_120000.zip", None);
                  (PutObject "bucket" "gtfs/hash.txt"
                     (Py.encode_utf8 (SHA256.hexdigest_of [x50; x4b; x03; x04]%byte))
                     "text/plain", None)]) as Hwrites by (vm_compute; reflexivity).
  run_main 2 Scenario.taken ReturnUploaded w' Hmain.
  destruct (main_uploaded_archive_is_stored 2 Scenario.taken w' Hmain)
    as (resp & k & new & Hresp & _ & Htr & Hw & _ & Hstored).
  injection Hresp as <-.
  assert (k = "gtfs/GTFS_Carris_20240101_120000.zip") as ->.
  { cbn [fmap option_fmap option_map snd] in Hwrites. injection Hwrites as Hwrites.
    change (trace Scenario.taken) with (@nil Event) in Htr.
    rewrite Htr, app_nil_l, Hw in Hwrites.
    apply (f_equal (λ l : list Event,
                      match l with
                      | (UploadFile _ _ key, _) :: _ => key
                      | _ => ""
                      end)) in Hwrites.
    exact Hwrites. }
  exists w'. split; [reflexivity|]. by apply Hstored.
Defined.

(** X19: when the server names the archive [hash.txt] and no fingerprint is
    stored, the archive is uploaded under the fingerprint key and then
    replaced there by its own hash: the run ends normally and the bucket
    has gained the fingerprint object and nothing else. *)
Theorem main_archive_named_like_fingerprint_is_lost
    (fuel : nat) (w : World) (resp : Response) :
  reaches_comparison w resp →
  local_name resp = "hash.txt" →
  objects w !! (S3_BUCKET_NAME w, hash_key) = None →
  s3_fault w (HeadObject (S3_BUCKET_NAME w) hash_key) = None →
  s3_fault w (UploadFile "hash.txt" (S3_BUCKET_NAME w) hash_key) = None →
  s3_fault w (PutObject (S3_BUCKET_NAME w) hash_key
                (Py.encode_utf8 (digest (mjoin (chunks resp)))) "text/plain") = None →
  ∃ w', main fuel w = Some (ReturnUploaded, w') ∧
    objects w'
    = <[(S3_BUCKET_NAME w, hash_key) := Py.encode_utf8 (digest (mjoin (chunks resp)))]>
        (objects w).
Proof.
  intros Hreach Hname Hobj Hhead Hup Hput.
  rewrite (main_at_comparison fuel w resp Hreach), Hobj.
  unfold publish_from, main_publish. rewrite Hname.
  change (S3_PREFIX +:+ "hash.txt") with hash_key.
  set (w3 := world_at_comparison w resp (Some (ClientError "NoSuchKey"))).
  change (S3_BUCKET_NAME w3) with (S3_BUCKET_NAME w).
  unfold generate_unique_s3_key, check_s3_file_exists, head_object.
  change (s3_fault w3) with (s3_fault w). change (objects w3) with (objects w).
  rewrite Hhead, Hobj. cbn [String.eqb Ascii.eqb Bool.eqb].
  cbv beta iota.
  set (w4 := record (HeadObject _ _) _ w3).
  change (S3_BUCKET_NAME w4) with (S3_BUCKET_NAME w).
  rewrite upload_to_s3_eq.
  change (s3_fault w4) with (s3_fault w). rewrite Hup.
  unfold w4, w3, world_at_comparison. cbn [files realpath record set_files].
  rewrite Hname, lookup_insert_eq.
  match goal with |- context [save_hash_to_s3 _ (S3_BUCKET_NAME ?x)] =>
    change (S3_BUCKET_NAME x) with (S3_BUCKET_NAME w) end.
  rewrite save_hash_to_s3_eq. cbv zeta. cbn [s3_fault record set_objects set_files].
  rewrite Hput. eexists. split; [done|].
  match goal with |- objects (cleanup_local_file ?p ?x) = _ =>
    destruct (cleanup_local_file_frame p x) as (_ & _ & _ & _ & -> & _) end.
  cbn [objects record set_objects set_files]. apply insert_insert_eq.
Qed.

Lemma main_archive_named_like_fingerprint_is_lost_witness :
  ∃ w', main 0 Cases.named_hash_txt = Some (ReturnUploaded, w') ∧
        dom (objects w') = {[ ("bucket", "gtfs/hash.txt") ]}.
Proof.
  destruct (main_archive_named_like_fingerprint_is_lost 0 Cases.named_hash_txt
              {| status_code := 200;
                 content_disposition :=
                   Some ("attachment; filename="
                         +:+ String Py.dquote ("hash.txt" +:+ String Py.dquote ""));
                 chunks := [[x50; x4b]; [x03; x04]]%byte; broken := None |})
    as (w' & Hmain & Hobj); try reflexivity.
  { repeat split. }
  exists w'. split; [exact Hmain|]. rewrite Hobj.
  rewrite dom_insert_L. change (objects Cases.named_hash_txt) with
    (∅ : gmap (string * string) (list byte)).
  rewrite dom_empty_L. by rewrite union_empty_r_L.
Defined.

(** X20: when the download fails, [main] makes no store call at all: it
    ends with [sys.exit(1)], the HTTP request is the only call of the run
    and the bucket is untouched. *)
Theorem main_failed_download_makes_no_store_call
    (fuel : nat) (w : World) (e : exn) :
  config_ok w = true →
  fst (download_gtfs_file (GTFS_URL w) LOCAL_GTFS_FILE w) = Raise e →
  ∃ w' o, main fuel w = Some (SysExit 1, w') ∧
    trace w' = trace w ++ [(HttpGet (GTFS_URL w), o)] ∧
    objects w' = objects w.
Proof.
  intros Hcfg Hdl. rewrite main_config_ok by done.
  pose proof (download_gtfs_file_frame (GTFS_URL w) LOCAL_GTFS_FILE w)
    as (_ & _ & _ & Hobj & o & Htr).
  destruct (download_gtfs_file (GTFS_URL w) LOCAL_GTFS_FILE w) as [[name|e'] w1];
    [done|]. cbn [snd] in *. by exists w1, o.
Qed.

Lemma main_failed_download_makes_no_store_call_witness :
  ∃ w' o, main 0 Cases.unreachable = Some (SysExit 1, w') ∧
          trace w' = [(HttpGet "https://example.org/gtfs", o)].
Proof.
  destruct (main_failed_download_makes_no_store_call 0 Cases.unreachable
              (RequestException "ConnectionError") eq_refl eq_refl)
    as (w' & o & Hmain & Htr & _).
  exists w', o. split; [exact Hmain | exact Htr].
Defined.
